(** * Meraki lifecycle report: normalisation, matching, classification, export

    A shallow embedding of [main.py].  Python values are embedded as follows.

    - [str] is [string]; the embedding covers ASCII text (product labels,
      model names, column names, URLs), so [upper], [lower] and [strip] act
      on the ASCII letters and the ASCII whitespace characters of Python;
    - a pandas row (a [Series] indexed by column name) and a row dictionary
      are [gmap string cell]; a [DataFrame] is its column list with its rows;
    - [raise] is the [Raise] constructor of [result];
    - library calls whose result order the library leaves open
      ([sort_values] with the default sort kind) and library parsers
      ([datetime.strptime], [pd.to_numeric]) are Section variables; what
      the default sort does with a frame of at most four rows is given in
      [VectorSort]. *)

From Stdlib Require Import ZArith Ascii String List Sorting.Sorted Lia.
From Stdlib Require Import Numbers.DecimalString.
From stdpp Require Import base option list sorting gmap strings fin_maps.

(** ** Python string primitives *)

Module PyStr.

(** [str.isspace] on one ASCII character: TAB, LF, VT, FF, CR, the four
    separators FS, GS, RS, US, and the space. *)
Definition isspace (c : ascii) : bool :=
  match c with
  | "009" | "010" | "011" | "012" | "013"
  | "028" | "029" | "030" | "031" | " " => true
  | _ => false
  end%char.

Definition islower (c : ascii) : bool :=
  let n := nat_of_ascii c in (97 <=? n)%nat && (n <=? 122)%nat.

Definition isupper (c : ascii) : bool :=
  let n := nat_of_ascii c in (65 <=? n)%nat && (n <=? 90)%nat.

Definition upper_char (c : ascii) : ascii :=
  if islower c then ascii_of_nat (nat_of_ascii c - 32) else c.

Definition lower_char (c : ascii) : ascii :=
  if isupper c then ascii_of_nat (nat_of_ascii c + 32) else c.

(** [s.upper()] and [s.lower()] *)
Fixpoint upper (s : string) : string :=
  match s with
  | EmptyString => EmptyString
  | String c s' => String (upper_char c) (upper s')
  end.

Fixpoint lower (s : string) : string :=
  match s with
  | EmptyString => EmptyString
  | String c s' => String (lower_char c) (lower s')
  end.

(** [s.lstrip()], [s.rstrip()] and [s.strip()] without argument *)
Fixpoint lstrip (s : string) : string :=
  match s with
  | EmptyString => EmptyString
  | String c s' => if isspace c then lstrip s' else s
  end.

Fixpoint rstrip (s : string) : string :=
  match s with
  | EmptyString => EmptyString
  | String c s' =>
      match rstrip s' with
      | EmptyString => if isspace c then EmptyString else String c EmptyString
      | r => String c r
      end
  end.

Definition strip (s : string) : string := rstrip (lstrip s).

(** [sub in s] *)
Fixpoint contains (sub s : string) : bool :=
  String.prefix sub s ||
  match s with
  | EmptyString => false
  | String _ s' => contains sub s'
  end.

(** [s.split(sep)] for a non-empty separator: the pieces between the
    leftmost non-overlapping occurrences of [sep].  [skip] counts the
    characters of a separator that are still to be passed over. *)
Fixpoint split_go (sep : string) (skip : nat) (s : string) : list string :=
  match s with
  | EmptyString => [EmptyString]
  | String c s' =>
      match skip with
      | S k => split_go sep k s'
      | O =>
          if String.prefix sep s
          then EmptyString :: split_go sep (String.length sep - 1) s'
          else match split_go sep 0 s' with
               | p :: ps => String c p :: ps
               | [] => [String c EmptyString]
               end
      end
  end.

Definition split (sep s : string) : list string := split_go sep 0 s.

(** [l[0]] on the result of [split], which is never the empty list
    (lemma [split_nonempty] below) *)
Definition item0 (l : list string) : string := hd EmptyString l.

(** [sep.join(l)] *)
Fixpoint join (sep : string) (l : list string) : string :=
  match l with
  | [] => EmptyString
  | [x] => x
  | x :: l' => x +:+ sep +:+ join sep l'
  end.

Definition TAB : ascii := "009"%char.

(** Every character of [s] passes the test [p]. *)
Fixpoint all_chars (p : ascii → bool) (s : string) : bool :=
  match s with
  | EmptyString => true
  | String c s' => p c && all_chars p s'
  end.

(** The character [c] does not occur in [s]. *)
Definition lacks (c : ascii) (s : string) : bool :=
  all_chars (λ x, negb (bool_decide (x = c))) s.

(** No lower-case letter, and no whitespace other than the space. *)
Definition plain (s : string) : bool :=
  all_chars (λ c, negb (islower c) &&
                  (negb (isspace c) || bool_decide (c = " "%char))) s.

(** The first character of [s], if any, is no whitespace. *)
Definition starts_clean (s : string) : Prop :=
  match s with
  | EmptyString => True
  | String c _ => isspace c = false
  end.

End PyStr.

(** ** Python values of the program *)

(** Exceptions the modelled code raises. *)
Inductive exn : Type :=
| RuntimeError (msg : string)
| KeyError (key : string)
| ValueError (msg : string)
| TypeError (msg : string).

Inductive result (A : Type) : Type :=
| Ok (a : A)
| Raise (e : exn).
Arguments Ok {A} a.
Arguments Raise {A} e.

Definition bind {A B : Type} (r : result A) (k : A → result B) : result B :=
  match r with
  | Ok a => k a
  | Raise e => Raise e
  end.

(** Running a fallible step over a list, stopping at the first exception. *)
Fixpoint mapM {A B : Type} (f : A → result B) (l : list A) : result (list B) :=
  match l with
  | [] => Ok []
  | x :: l' => bind (f x) (λ y, bind (mapM f l') (λ ys, Ok (y :: ys)))
  end.

(** The values a table cell holds in this program. *)
Inductive cell : Type :=
| CStr (s : string)            (* a [str] *)
| CNaN                         (* a missing value: [NaN] or [None] *)
| CNum (n : Z)                 (* a number: a unit count *)
| CLinks (l : list string).    (* a list of URLs *)

#[global] Instance cell_eq_dec : EqDecision cell.
Proof. solve_decision. Defined.

(** A row ([Series] or row [dict]) maps column names to cells. *)
Abbreviation row := (gmap string cell).

(** A [DataFrame]: its column labels and its rows.  In a frame every row
    has a cell for every column. *)
Record DataFrame : Type := mkDataFrame {
  columns : list string;
  rows : list row
}.

(** [pd.DataFrame()] *)
Definition empty_frame : DataFrame := mkDataFrame [] [].

(** [df.empty]: no rows or no columns *)
Definition df_empty (df : DataFrame) : bool :=
  bool_decide (rows df = []) || bool_decide (columns df = []).

(** [row[col]]; a cell absent from a row of a frame reads as missing *)
Definition getitem (r : row) (col : string) : cell := default CNaN (r !! col).

(** The column labels after [df[col] = ...] *)
Definition add_column (col : string) (cols : list string) : list string :=
  if decide (col ∈ cols) then cols else cols ++ [col].

(** [str()] of a cell.  [pd.read_html] fills a Product column with text
    and missing values; the other two cases make [py_str] total. *)

Module PyRepr.
Import PyStr.

Definition quote1 : ascii := "'"%char.
Definition quote2 : ascii := "034"%char.
Definition backslash : ascii := "\"%char.

Definition hex_digit (n : nat) : ascii :=
  match n with
  | 0 => "0" | 1 => "1" | 2 => "2" | 3 => "3" | 4 => "4" | 5 => "5"
  | 6 => "6" | 7 => "7" | 8 => "8" | 9 => "9" | 10 => "a" | 11 => "b"
  | 12 => "c" | 13 => "d" | 14 => "e" | _ => "f"
  end%char.

Definition has_char (c : ascii) (s : string) : bool :=
  contains (String c EmptyString) s.

(** One character of [repr(s)] with [q] the chosen quote *)
Definition repr_char (q c : ascii) : string :=
  let n := nat_of_ascii c in
  if bool_decide (c = q) || bool_decide (c = backslash)
  then String backslash (String c EmptyString)
  else if bool_decide (n = 9) then String backslash "t"
  else if bool_decide (n = 10) then String backslash "n"
  else if bool_decide (n = 13) then String backslash "r"
  else if (n <? 32)%nat || bool_decide (n = 127)
  then String backslash (String "x" (String (hex_digit (n / 16))
         (String (hex_digit (n mod 16)) EmptyString)))
  else String c EmptyString.

Fixpoint repr_body (q : ascii) (s : string) : string :=
  match s with
  | EmptyString => EmptyString
  | String c s' => repr_char q c +:+ repr_body q s'
  end.

(** [repr(s)] of an ASCII [str] *)
Definition repr_str (s : string) : string :=
  let q := if has_char quote1 s && negb (has_char quote2 s)
           then quote2 else quote1 in
  String q (repr_body q s +:+ String q EmptyString).

(** [str(v)] of a cell value *)
Definition py_str (v : cell) : string :=
  match v with
  | CStr s => s
  | CNaN => "nan"
  | CNum n => NilZero.string_of_int (Z.to_int n)
  | CLinks l => "[" +:+ join ", " (map repr_str l) +:+ "]"
  end.

End PyRepr.

(** ** Key Normalizer *)

Module Normalizer.
Import PyStr.

Definition normalize_product_to_key (v : cell) : string :=
  match v with
  | CStr s =>
      let s := strip s in
      let s := strip (item0 (split "," s)) in
      let s := item0 (split " " s) in
      let s := if contains "-HW" s then item0 (split "-HW" s) else s in
      upper s
  | _ => EmptyString
  end.

(** The text of [s] before the first occurrence of [sep], all of [s] when
    there is none. *)
Fixpoint before_first (sep s : string) : string :=
  match s with
  | EmptyString => EmptyString
  | String c s' =>
      if String.prefix sep s then EmptyString else String c (before_first sep s')
  end.

(** The normalizer in the words of its description: the upper case of
    the first space-separated token of the text before the first comma of
    the trimmed input, truncated at "-HW". *)
Definition normalize_described (x : string) : string :=
  upper (before_first "-HW" (before_first " " (before_first "," (strip x)))).

(** The same with the text before the comma trimmed again. *)
Definition normalize_retrimmed (x : string) : string :=
  upper (before_first "-HW"
           (before_first " " (strip (before_first "," (strip x))))).

End Normalizer.

(** ** EoL Table Builder *)

Module Builder.
Import PyStr PyRepr Normalizer.

(** The markup as the scraper walks it: [table.find_all("tr")], in each
    [row.find_all("td")], in each [td.find_all("a")], and of each anchor
    [a.get("href")]. *)
Record anchor : Type := mkAnchor { href : option string }.
Definition td : Type := list anchor.
Definition tr : Type := list td.
Definition html_table : Type := list tr.

(** The hrefs of one cell that are truthy: present and not empty. *)
Definition sublinks_of (cell_anchors : td) : list string :=
  omap (λ a, match href a with
             | Some h => if decide (h = EmptyString) then None else Some h
             | None => None
             end) cell_anchors.

(** The [links] list built by the scraping loop: one entry for every [td]
    whose [sublinks] is not empty. *)
Definition scrape_links (table : html_table) : list (list string) :=
  flat_map (λ row_tds,
    flat_map (λ cell_anchors,
      match sublinks_of cell_anchors with
      | [] => []
      | sublinks => [sublinks]
      end) row_tds) table.

(** Link extraction in the words of its description: for each table row,
    the hyperlink targets found in its cells. *)
Definition row_links_described (table : html_table) : list (list string) :=
  map (λ row_tds, flat_map sublinks_of row_tds) table.

(** A table row as the vendor page has them: a header row, which has no
    [td] cell, or a data row with links in exactly one of its cells. *)
Definition regular_row (row_tds : tr) : Prop :=
  row_tds = [] ∨ length (filter (λ l, l ≠ []) (map sublinks_of row_tds)) = 1.

(** The list assigned to the "Upgrade Path" column of a frame of [n] rows. *)
Definition padded_links (n : nat) (links : list (list string))
  : list (list string) :=
  if decide (length links = n) then links
  else let padded := take n links in
       padded ++ replicate (n - length padded) [].

(** [eol_df["Upgrade Path"] = links] *)
Definition attach_links (links : list (list string)) (eol_df : DataFrame)
  : DataFrame :=
  mkDataFrame
    (add_column "Upgrade Path" (columns eol_df))
    (zip_with (λ r l, <["Upgrade Path" := CLinks l]> r)
       (rows eol_df) (padded_links (length (rows eol_df)) links)).

(** The loop body of the multi-SKU expansion for one row. *)
Definition expand_row (r : row) : list row :=
  let product_raw := py_str (getitem r "Product") in
  let parts :=
    filter (λ p, p ≠ EmptyString) (map strip (split "," product_raw)) in
  match parts with
  | [] => [r]
  | _ => map (λ part, <["Product" := CStr part]> r) parts
  end.

Definition expanded_rows (eol_df : DataFrame) : list row :=
  flat_map expand_row (rows eol_df).

(** [expanded_df["ProductKey"] = expanded_df["Product"].apply(...)] *)
Definition with_product_key (r : row) : row :=
  <["ProductKey" := CStr (normalize_product_to_key (getitem r "Product"))]> r.

(** [expanded_df[expanded_df["ProductKey"] != ""]] *)
Definition has_product_key (r : row) : Prop :=
  getitem r "ProductKey" ≠ CStr EmptyString.

(** The lambda that turns the link list into a "; "-separated string. *)
Definition join_upgrade_path (r : row) : row :=
  <["Upgrade Path" := CStr match getitem r "Upgrade Path" with
                           | CLinks v => join "; " v
                           | _ => EmptyString
                           end]> r.

(** [fetch_eol_table], as a function of what the two fetches returned:
    [dfs] from [pd.read_html] and [table] from [soup.find("table")]. *)
Definition fetch_eol_table (dfs : list DataFrame) (table : option html_table)
  : result DataFrame :=
  match dfs with
  | [] => Raise (RuntimeError "No tables found on EoL page; layout may have changed.")
  | eol_df :: _ =>
      if decide ("Product" ∈ columns eol_df) then
        match table with
        | None => Raise (RuntimeError "Could not find table element on EoL page; layout may have changed.")
        | Some table =>
            let links := scrape_links table in
            let eol_df := attach_links links eol_df in
            match expanded_rows eol_df with
            | [] => Raise (KeyError "Product")
            | expanded =>
                let cols := add_column "ProductKey" (columns eol_df) in
                let keyed := filter has_product_key (map with_product_key expanded) in
                let joined :=
                  if decide ("Upgrade Path" ∈ cols)
                  then map join_upgrade_path keyed else keyed in
                match joined with
                | [] => Raise (RuntimeError "All EoL rows collapsed after normalization; parser likely broken.")
                | _ => Ok (mkDataFrame cols joined)
                end
            end
        end
      else Raise (RuntimeError "EoL table has no 'Product' column; parser needs updating.")
  end.

End Builder.

(** ** Sorting *)

Module PySort.

(** Insertion sort by a "goes before" test.  [sorted(l, key=...)] of Python
    is stable, which is [isort] with the test [key x <= key y]. *)
Fixpoint insert_by {A : Type} (before : A → A → bool) (x : A) (l : list A)
  : list A :=
  match l with
  | [] => [x]
  | y :: l' => if before x y then x :: l else y :: insert_by before x l'
  end.

Definition isort {A : Type} (before : A → A → bool) (l : list A) : list A :=
  foldr (insert_by before) [] l.

(** What [sort_values(by=...)] is asked to do: the columns to sort by, each
    with its [ascending] flag. *)
Abbreviation sort_spec := (list (string * bool)).

(** The numeric value of a cell of a sorted column. *)
Definition num_of (c : cell) : Z :=
  match c with
  | CNum n => n
  | _ => 0
  end.

Definition total_units (r : row) : Z := num_of (getitem r "Total Units").

(** The order [sort_values(by=["Total Units"], ascending=False)] puts rows
    in: no row is followed by one with more units. *)
Definition units_desc (r1 r2 : row) : Prop := (total_units r2 ≤ total_units r1)%Z.

(** A sort by descending units that meets the contract of [sort_values]:
    it keeps rows with equal units in the order they had. *)
Definition sort_units_keeping_ties : list row → list row :=
  isort (λ r1 r2, (total_units r2 <=? total_units r1)%Z).

(** What the library promises of [sort_values]: the rows are rearranged,
    and sorting by "Total Units" in descending order leaves rows whose
    units are numbers in that order.  The default sort kind is not a
    stable one, so nothing is promised about rows with equal units. *)
Definition sort_values_contract (sort_values : sort_spec → list row → list row)
  : Prop :=
  (∀ by_ l, sort_values by_ l ≡ₚ l) ∧
  (∀ l, Forall (λ r, ∃ n, r !! "Total Units" = Some (CNum n)) l →
        Sorted units_desc (sort_values [("Total Units", false)] l)).

End PySort.

(** ** Inventory Matcher *)

Module Matcher.
Import PyStr PySort.

(** One inventory device: the two fields the matcher reads. *)
Record device : Type := mkDevice {
  model : string;
  networkId : option string
}.

(** One element of the returned list: [{"name": label, "report": df}];
    [None] stands for a report that is [None]. *)
Record org_report : Type := mkReport {
  name : string;
  report : option DataFrame
}.

(** [Series.value_counts()], read as the mapping from value to count *)
Definition value_counts (keys : list string) : gmap string nat :=
  foldr (λ k counts, <[k := S (default 0 (counts !! k))]> counts) ∅ keys.

(** [~inv_df["networkId"].isna()] *)
Definition assigned (d : device) : Prop := networkId d ≠ None.

(** [inv_assigned["model"].astype(str).str.upper()]; the model of a
    device is a string. *)
Definition ModelKey (d : device) : string := upper (model d).

(** [final_eol["ProductKey"].map(counts)] for one row *)
Definition units_cell (counts : gmap string nat) (r : row) : cell :=
  match getitem r "ProductKey" with
  | CStr k =>
      match counts !! k with
      | Some n => CNum (Z.of_nat n)
      | None => CNaN
      end
  | _ => CNaN
  end.

Definition with_total_units (counts : gmap string nat) (r : row) : row :=
  <["Total Units" := units_cell counts r]> r.

(** [dropna(subset=["Total Units"])] *)
Definition has_units (r : row) : Prop := getitem r "Total Units" ≠ CNaN.

(** The rows of [final_eol] before they are sorted, in catalog order. *)
Definition matched_rows (eol_df : DataFrame) (inv_assigned : list device)
  : list row :=
  let counts := value_counts (map ModelKey inv_assigned) in
  filter has_units (map (with_total_units counts) (rows eol_df)).

(** Rows with equal units are in the order of the catalog: for every
    number of units, the rows of [out] with that number are the matched
    rows with that number, in catalog order. *)
Definition ties_in_catalog_order (eol_df : DataFrame) (devices : list device)
    (out : list row) : Prop :=
  ∀ n, filter (λ r, total_units r = n) out =
       filter (λ r, total_units r = n)
         (matched_rows eol_df (filter assigned devices)).

(** The number of assigned devices whose upper-cased model is [k]. *)
Definition assigned_units (devices : list device) (k : string) : nat :=
  length (filter (λ d, assigned d ∧ ModelKey d = k) devices).

Section build.
(** [DataFrame.sort_values(by, ascending)] followed by the index reset, on
    the rows of a frame. *)
Variable sort_values : sort_spec → list row → list row.

(** The body of the loop of [build_eol_reports] for one organization.
    Reading the "ProductKey" column of a frame that has none raises. *)
Definition build_eol_report (eol_df : DataFrame) (devices : list device)
  : result DataFrame :=
  match devices with
  | [] => Ok empty_frame
  | _ =>
      match filter assigned devices with
      | [] => Ok empty_frame
      | inv_assigned =>
          if decide ("ProductKey" ∈ columns eol_df) then
            let final_eol := matched_rows eol_df inv_assigned in
            let final_eol :=
              match final_eol with
              | [] => final_eol
              | _ => sort_values [("Total Units", false)] final_eol
              end in
            Ok (mkDataFrame (add_column "Total Units" (columns eol_df)) final_eol)
          else Raise (KeyError "ProductKey")
      end
  end.

(** [inventories] is a dictionary walked in insertion order: the list of
    its items. *)
Definition build_eol_reports (eol_df : DataFrame)
    (inventories : list (string * list device)) : result (list org_report) :=
  mapM (λ item, bind (build_eol_report eol_df item.2)
                  (λ df, Ok (mkReport item.1 (Some df))))
    inventories.

End build.

End Matcher.

(** ** Risk Classifier *)

Module Classifier.
Import PyStr.

(** [datetime.date] and [datetime.datetime] *)
Record date : Type := mkDate { year : Z; month : Z; day : Z }.
Record datetime : Type := mkDatetime {
  dt_date : date;            (* [dt.date()] *)
  hour : Z; minute : Z; second : Z; microsecond : Z
}.

Definition is_leap (y : Z) : bool :=
  (y mod 4 =? 0)%Z && (negb (y mod 100 =? 0)%Z || (y mod 400 =? 0)%Z).

Definition days_before_year (y : Z) : Z :=
  let y := (y - 1)%Z in (y * 365 + y / 4 - y / 100 + y / 400)%Z.

Definition days_before_month (y m : Z) : Z :=
  (match m with
   | 1 => 0 | 2 => 31 | 3 => 59 | 4 => 90 | 5 => 120 | 6 => 151
   | 7 => 181 | 8 => 212 | 9 => 243 | 10 => 273 | 11 => 304 | _ => 334
   end + (if (2 <? m)%Z && is_leap y then 1 else 0))%Z.

(** [d.toordinal()] *)
Definition toordinal (d : date) : Z :=
  (days_before_year (year d) + days_before_month (year d) (month d) + day d)%Z.

(** The values [_parse_end_of_support] tells apart.  An object whose
    [to_pydatetime] or whose [date] raises goes on to the tests that
    follow, as any other object does: it is a [VOther], or a [VDate] or
    [VDatetime] when it is an instance of these. *)
Inductive pyvalue : Type :=
| VTimestamp (dt : datetime)  (* has [to_pydatetime], which returns [dt] *)
| VNaT                        (* pandas' [NaT]: it has [to_pydatetime], and
                                 [NaT.to_pydatetime().date()] is [NaT] *)
| VDate (d : date)            (* a [date] that is not a [datetime] *)
| VDatetime (dt : datetime)   (* a [datetime] without [to_pydatetime] *)
| VStr (s : string)           (* a [str] *)
| VOther (text : string).     (* any other object; [text] is its [str()] *)

(** What [_parse_end_of_support] returns when it is not [None]: a [date],
    which may be a [datetime] since [datetime] is a subclass of [date], or
    [NaT]. *)
Inductive dateobj : Type :=
| DDate (d : date)
| DDatetime (dt : datetime)
| DNaT.

(** The values that [_parse_end_of_support] hands back as something other
    than a plain [date]: a [datetime] without [to_pydatetime], and [NaT]. *)
Definition datetime_like (value : pyvalue) : bool :=
  match value with
  | VDatetime _ | VNaT => true
  | _ => false
  end.

Inductive highlight : Type := HNone | HRed | HYellow.



Section classify.
(** [datetime.strptime(s, fmt)]; [None] stands for its [ValueError]. *)
Variable strptime : string → string → option datetime.

(** The [for fmt in (...)] loop: the first format that parses. *)
Fixpoint try_formats (s : string) (fmts : list string) : option dateobj :=
  match fmts with
  | [] => None
  | fmt :: fmts' =>
      match strptime s fmt with
      | Some dt => Some (DDate (dt_date dt))
      | None => try_formats s fmts'
      end
  end.

Definition parse_text (text : string) : option dateobj :=
  let s := strip text in
  if decide (s = EmptyString) then None
  else try_formats s ["%b %d, %Y"; "%B %d, %Y"; "%Y-%m-%d"].

Definition _parse_end_of_support (value : pyvalue) : option dateobj :=
  match value with
  | VTimestamp dt => Some (DDate (dt_date dt))
  | VNaT => Some DNaT
  | VDate d => Some (DDate d)
  | VDatetime dt => Some (DDatetime dt)   (* [isinstance(value, date)] holds *)
  | VStr s => parse_text s
  | VOther text => parse_text text
  end.

(** [(eos_date - today).days] with [today] a [date]: a [datetime] minus a
    [date] is a [TypeError], and so is [NaT] minus a [date]. *)
Definition days_until (eos_date : dateobj) (today : date) : result Z :=
  match eos_date with
  | DDate d => Ok (toordinal d - toordinal today)%Z
  | DDatetime _ =>
      Raise (TypeError "unsupported operand type(s) for -: 'datetime.datetime' and 'datetime.date'")
  | DNaT =>
      Raise (TypeError "unsupported operand type(s) for -: 'NaTType' and 'datetime.date'")
  end.

(** The highlight that [generate_pdf] picks for a row from its
    "End-of-Support Date" value. *)
Definition row_highlight (today : date) (eos_raw : pyvalue) : result highlight :=
  match _parse_end_of_support eos_raw with
  | None => Ok HNone
  | Some eos_date =>
      bind (days_until eos_date today) (λ days_left,
        Ok (if (days_left <? 0)%Z then HRed
            else if (days_left <=? 365)%Z then HYellow
            else HNone))
  end.

End classify.

End Classifier.

(** ** Report Renderer (table export) *)

Module CsvExport.
Import PyStr PySort Matcher.

(** [df is None or df.empty] *)
Definition is_empty_report (df : option DataFrame) : bool :=
  match df with
  | None => true
  | Some df => df_empty df
  end.

(** [sorted(reports, key=lambda r: r["name"].lower())] *)
Definition sort_reports (reports : list org_report) : list org_report :=
  isort (λ a b, String.leb (lower (name a)) (lower (name b))) reports.

(** The set [all_columns] after the collecting loop. *)
Definition all_columns (reports_sorted : list org_report) : gset string :=
  foldl (λ acc item,
           match report item with
           | Some df => if df_empty df then acc else acc ∪ list_to_set (columns df)
           | None => acc
           end) ∅ reports_sorted.

(** [base_cols]; [list(all_columns)] lists the set in some order. *)
Definition base_cols (all_columns : gset string) : list string :=
  let base_cols := elements all_columns in
  let base_cols :=
    if decide ("Total Units" ∈ base_cols) then base_cols
    else base_cols ++ ["Total Units"] in
  filter (λ c, c ≠ "Organization" ∧ c ≠ "Note") base_cols.

Definition csv_columns (all_columns : gset string) : list string :=
  "Organization" :: base_cols all_columns ++ ["Note"].

(** The placeholder row of an organization without EoL devices. *)
Definition placeholder_row (cols : list string) (org_name : string) : row :=
  <["Note" := CStr "No EoL devices found"]>
    (<["Total Units" := CNum 0]>
       (<["Organization" := CStr org_name]>
          (list_to_map (map (λ col, (col, CStr EmptyString)) cols)))).

(** [tmp.reindex(columns=columns, fill_value="")] on one row of [tmp]. *)
Definition reindex (tmp_columns cols : list string) (r : row) : row :=
  list_to_map
    (map (λ col, (col, if decide (col ∈ tmp_columns) then getitem r col
                       else CStr EmptyString)) cols).

(** The rows an organization with a non-empty report adds to [all_rows].
    [tmp.insert(0, "Organization", ...)] raises when the column exists. *)
Definition report_rows (cols : list string) (org_name : string)
    (df : DataFrame) : result (list row) :=
  if decide ("Organization" ∈ columns df)
  then Raise (ValueError "cannot insert Organization, already exists")
  else
    let tmp_columns := "Organization" :: columns df in
    let tmp_rows := map (insert "Organization" (CStr org_name)) (rows df) in
    let tmp :=
      if decide ("Note" ∈ tmp_columns) then (tmp_columns, tmp_rows)
      else (tmp_columns ++ ["Note"],
            map (insert "Note" (CStr EmptyString)) tmp_rows) in
    Ok (map (reindex tmp.1 cols) tmp.2).

(** The body of the row-building loop for one organization. *)
Definition item_rows (cols : list string) (item : org_report)
  : result (list row) :=
  match report item with
  | Some df =>
      if df_empty df then Ok [placeholder_row cols (name item)]
      else report_rows cols (name item) df
  | None => Ok [placeholder_row cols (name item)]
  end.

(** What one organization adds to the export: for an empty report a
    single row with its label, zero units, a non-empty note and blank data
    cells; otherwise one row for each row of its report, with the label, a
    blank note and the report's cells. *)
Definition contribution (cols : list string) (item : org_report)
    (chunk : list row) : Prop :=
  if is_empty_report (report item) then
    ∃ r note,
      chunk = [r] ∧
      r !! "Organization" = Some (CStr (name item)) ∧
      r !! "Total Units" = Some (CNum 0) ∧
      r !! "Note" = Some (CStr note) ∧ note ≠ EmptyString ∧
      ∀ col, col ∈ cols → col ∉ ["Organization"; "Total Units"; "Note"] →
             r !! col = Some (CStr EmptyString)
  else
    ∃ df,
      report item = Some df ∧
      Forall2 (λ r r',
          r' !! "Organization" = Some (CStr (name item)) ∧
          r' !! "Note" = Some (CStr EmptyString) ∧
          ∀ col, col ∈ columns df →
                 col ≠ "Total Units" ∨ (∃ n, getitem r col = CNum n) →
                 r' !! col = Some (getitem r col))
        (rows df) chunk.

Section export.
Variable sort_values : sort_spec → list row → list row.
(** [pd.to_numeric(..., errors="coerce")] on one cell; [None] is [NaN]. *)
Variable to_numeric : cell → option Z.

(** [pd.to_numeric(combined["Total Units"], errors="coerce").fillna(0)] *)
Definition numeric_units (r : row) : row :=
  <["Total Units" := CNum (default 0%Z (to_numeric (getitem r "Total Units")))]> r.

(** [generate_csv]: the header and the rows written to the file. *)
Definition generate_csv (reports : list org_report)
  : result (list string * list row) :=
  let reports_sorted := sort_reports reports in
  let cols := csv_columns (all_columns reports_sorted) in
  bind (mapM (item_rows cols) reports_sorted) (λ chunks,
    let all_rows := concat chunks in
    match all_rows with
    | [] => Ok (cols, [])
    | _ =>
        if decide ("Total Units" ∈ cols)
        then Ok (cols,
                 sort_values [("Organization", true); ("Total Units", false)]
                   (map numeric_units all_rows))
        else Ok (cols, sort_values [("Organization", true)] all_rows)
    end).

End export.

End CsvExport.

(** ** Sample data *)

Module Samples.
Import Builder Matcher Classifier.

(** A page whose table has a header row, a row without links and a row
    with one link. *)
Definition two_row_markup : html_table :=
  [ [];
    [ []; [] ];
    [ []; [mkAnchor (Some "https://example.test/eos-ms120")] ] ].

(** A page with a header row and one linked cell in each data row. *)
Definition regular_markup : html_table :=
  [ [];
    [ []; [mkAnchor (Some "https://example.test/eos-mx68")] ];
    [ [mkAnchor None; mkAnchor (Some "https://example.test/eos-ms120")]; [] ] ].

Definition two_row_frame : DataFrame :=
  mkDataFrame ["Product"; "End-of-Support Date"]
    [ {[ "Product" := CStr "MX68-HW"; "End-of-Support Date" := CStr "Jun 1, 2024" ]};
      {[ "Product" := CStr "MS120-8, MS120-8FP";
         "End-of-Support Date" := CStr "Jan 1, 2027" ]} ].

(** A one-row vendor table with a two-SKU Product cell. *)
Definition ms120_row : row :=
  {[ "Product" := CStr "MS120-8, MS120-8FP";
     "End-of-Support Date" := CStr "Jan 1, 2027" ]}.

(** The inventory of the matcher example. *)
Definition mx68_inventory : list device :=
  [ mkDevice "MX68" (Some "N1"); mkDevice "MX68" None; mkDevice "mx68" (Some "N2") ].

Definition mx68_catalog : DataFrame :=
  mkDataFrame ["Product"; "ProductKey"]
    [ {[ "Product" := CStr "MX68-HW"; "ProductKey" := CStr "MX68" ]} ].

(** One organization with two matched rows and one without devices. *)
Definition sample_reports : list org_report :=
  [ mkReport "Branch - 2"
      (Some (mkDataFrame ["Product"; "ProductKey"; "Total Units"]
         [ {[ "Product" := CStr "MX68-HW"; "ProductKey" := CStr "MX68";
              "Total Units" := CNum 3 ]};
           {[ "Product" := CStr "MR18"; "ProductKey" := CStr "MR18";
              "Total Units" := CNum 1 ]} ]));
    mkReport "acme - 1" (Some empty_frame) ].

(** A [to_numeric] that reads numbers and coerces everything else. *)
Definition numbers_only (c : cell) : option Z :=
  match c with
  | CNum n => Some n
  | _ => None
  end.

(** A reference date and a [strptime] that accepts nothing. *)
Definition new_year_2025 : date := mkDate 2025 1 1.
Definition no_format : string → string → option datetime := λ _ _, None.

End Samples.

(** ** Leading tokens of a label *)

Module Tokens.
Import PyStr.

(** A token: a text without whitespace, without comma and without "-HW". *)
Definition is_token (t : string) : bool :=
  all_chars (λ c, negb (isspace c) && negb (bool_decide (c = ","%char))) t &&
  negb (contains "-HW" t).

End Tokens.

(** ** SKU labels of a vendor row *)

Module Labels.
Import PyStr PyRepr Builder.

(** The list [parts] of the expansion loop: the comma-separated pieces of
    the Product cell, stripped, the blank ones left out. *)
Definition sku_labels (r : row) : list string :=
  filter (λ p, p ≠ EmptyString)
    (map strip (split "," (py_str (getitem r "Product")))).

(** The rows of the catalog, from the frame with the links attached:
    expansion, keys, the filter on empty keys, and the joined links. *)
Definition catalog_rows (eol_df : DataFrame) : list row :=
  map join_upgrade_path
    (filter has_product_key (map with_product_key (expanded_rows eol_df))).

(** The catalog row made from the vendor row [r0] for its label [p], with
    the link list [links] attached to [r0]. *)
Definition catalog_row (r0 : row) (links : list string) (p : string) : row :=
  join_upgrade_path
    (with_product_key
       (<["Product" := CStr p]> (<["Upgrade Path" := CLinks links]> r0))).

End Labels.

(** ** Report Renderer (document): the cells and fills of a table *)

Module PdfLayout.
Import PyStr PyRepr Classifier.

(** [pdf_cols]: the data columns with their display labels. *)
Definition pdf_cols : list (string * string) :=
  [ ("Product", "Product"); ("Announcement", "Announcement");
    ("End-of-Sale Date", "End-of-Sale");
    ("End-of-Support Date", "End-of-Support");
    ("ProductKey", "ProductKey"); ("Upgrade Path", "Upgrade Path");
    ("Total Units", "Units") ].

(** [col_width_weights.get(c, 10)] *)
Definition col_width_weight (c : string) : Z :=
  if decide (c = "Product") then 16
  else if decide (c = "Announcement") then 20
  else if decide (c = "End-of-Sale Date") then 18
  else if decide (c = "End-of-Support Date") then 24
  else if decide (c = "ProductKey") then 12
  else if decide (c = "Upgrade Path") then 18
  else if decide (c = "Total Units") then 8
  else 10.

(** [[col for col, _ in pdf_cols if col in df.columns]] *)
Definition available_cols (df : DataFrame) : list string :=
  filter (λ col, col ∈ columns df) (map fst pdf_cols).

(** [sum(col_width_weights.get(c, 10) for c in available_cols)] *)
Definition total_weight (available : list string) : Z :=
  foldr (λ c acc, (col_width_weight c + acc)%Z) 0%Z available.

(** The list [urls] of the "Upgrade Path" cell of a row. *)
Definition upgrade_urls (r : row) : list string :=
  filter (λ u, u ≠ EmptyString)
    (map strip (split ";" (py_str (getitem r "Upgrade Path")))).

(** What [pdf.cell] is given for a cell: its text and its link. *)
Inductive pdf_cell : Type := PdfCell (text : string) (link : option string).

(** The "Upgrade Path" cell of a row: the bracketed
    [row.get("Product", "Link")] linked to [urls[0]], or an empty cell. *)
Definition upgrade_path_cell (r : row) : pdf_cell :=
  match upgrade_urls r with
  | [] => PdfCell EmptyString None
  | u :: _ =>
      PdfCell ("[" +:+ py_str (default (CStr "Link") (r !! "Product")) +:+ "]")
        (Some u)
  end.

(** A URL that the text of the "Upgrade Path" column gives back: not
    empty, without ";" and without whitespace around it. *)
Definition clean_url (u : string) : bool :=
  negb (bool_decide (u = EmptyString)) && lacks ";" u &&
  bool_decide (strip u = u).

(** The fill colours, as [set_fill_color] gets them. *)
Definition rgb : Type := (Z * Z * Z)%type.

Definition fill_color (h : highlight) (fill_toggle : bool) : rgb :=
  match h with
  | HRed => (255, 204, 204)%Z
  | HYellow => (255, 255, 204)%Z
  | HNone => if fill_toggle then (222, 220, 220)%Z else (255, 255, 255)%Z
  end.

Section fills.
Variable strptime : string → string → option datetime.

(** The fills of the body rows, from the "End-of-Support Date" values of
    the rows in order; [fill_toggle] is flipped after every row. *)
Fixpoint body_fills (today : date) (fill_toggle : bool)
    (eos_values : list pyvalue) : result (list rgb) :=
  match eos_values with
  | [] => Ok []
  | eos_raw :: rest =>
      bind (row_highlight strptime today eos_raw) (λ h,
        bind (body_fills today (negb fill_toggle) rest) (λ fills,
          Ok (fill_color h fill_toggle :: fills)))
  end.

End fills.

End PdfLayout.

(** ** Report Renderer (table): what the reports add *)

Module CsvShape.
Import PyStr Matcher.

(** The rows one organization adds to the table. *)
Definition rows_of (item : org_report) : nat :=
  match report item with
  | Some df => if df_empty df then 1 else length (rows df)
  | None => 1
  end.

(** A report that [tmp.insert(0, "Organization", ...)] refuses. *)
Definition has_organization_column (item : org_report) : Prop :=
  ∃ df, report item = Some df ∧ df_empty df = false ∧
        "Organization" ∈ columns df.

End CsvShape.

(** ** Organization selection and inventories *)

Module Cli.
Import PyStr.

(** An organization as the dashboard returns it: the two fields read. *)
Record org : Type := mkOrg { org_name : string; org_id : string }.

#[global] Instance org_eq_dec : EqDecision org.
Proof. solve_decision. Defined.

#[global] Instance org_inhabited : Inhabited org :=
  populate (mkOrg EmptyString EmptyString).

(** How a call ends: it returns, or it raises [SystemExit(msg)]. *)
Inductive outcome (A : Type) : Type :=
| Return (a : A)
| SystemExit (msg : string).
Arguments Return {A} a.
Arguments SystemExit {A} msg.

(** An ASCII digit, and a text in which one occurs; [int(x)] raises on a
    text without a digit. *)
Definition isdigit (c : ascii) : bool :=
  let n := nat_of_ascii c in (48 <=? n)%nat && (n <=? 57)%nat.

Definition has_digit (s : string) : bool :=
  negb (all_chars (λ c, negb (isdigit c)) s).

Section choose.
(** [int(x)] on a string, [None] for its [ValueError], and the text of an
    integer in an f-string. *)
Variable int : string → option Z.
Variable str : Z → string.

(** The lines printed for [enumerate(orgs, start=1)]. *)
Definition menu (orgs : list org) : list string :=
  imap (λ i o, str (Z.of_nat i + 1) +:+ " - " +:+ org_name o) orgs.

(** [[int(x) - 1 for x in choice.split(",")]]; [None] when an [int(x)]
    raises. *)
Fixpoint indices_of (pieces : list string) : option (list Z) :=
  match pieces with
  | [] => Some []
  | x :: rest =>
      match int x with
      | Some n =>
          match indices_of rest with
          | Some indices => Some ((n - 1)%Z :: indices)
          | None => None
          end
      | None => None
      end
  end.

(** The selection loop; [selected] is the list built so far. *)
Fixpoint select (orgs : list org) (indices : list Z) (selected : list org)
  : outcome (list org) :=
  match indices with
  | [] => Return selected
  | idx :: rest =>
      if (idx <? 0)%Z || (Z.of_nat (length orgs) <=? idx)%Z
      then SystemExit ("Org index " +:+ str (idx + 1) +:+ " is out of range.")
      else select orgs rest (selected ++ [orgs !!! Z.to_nat idx])
  end.

(** [choose_orgs_interactively], as a function of the line that [input]
    returned. *)
Definition choose_orgs_interactively (orgs : list org) (typed : string)
  : outcome (list org) :=
  let choice := strip typed in
  if decide (choice = EmptyString)
  then SystemExit "No organizations selected; exiting."
  else if decide (lower choice = "all") then Return orgs
  else match indices_of (split "," choice) with
       | None => SystemExit ("Invalid input for org selection: " +:+ choice)
       | Some indices => select orgs indices []
       end.

End choose.

End Cli.

Module Inventory.
Import PyStr Matcher Cli.

(** [d[k] = v] on a dictionary, which keeps its keys in insertion order:
    the list of its items. *)
Fixpoint dict_set {V : Type} (k : string) (v : V) (d : list (string * V))
  : list (string * V) :=
  match d with
  | [] => [(k, v)]
  | (k', v') :: d' =>
      if decide (k' = k) then (k, v) :: d' else (k', v') :: dict_set k v d'
  end.

(** [f"{org_name} - {org_id}"] *)
Definition label_of (o : org) : string := org_name o +:+ " - " +:+ org_id o.

Section fetch.
(** [dashboard.organizations.getOrganizationInventoryDevices(org_id)]:
    the devices, or the exception the call raised. *)
Context {E : Type}.
Variable getOrganizationInventoryDevices : string → list device + E.

(** The loop of [fetch_inventories] from the dictionary built so far. *)
Fixpoint fetch_loop (orgs : list org) (inventories : list (string * list device))
  : list (string * list device) + E :=
  match orgs with
  | [] => inl inventories
  | o :: rest =>
      match getOrganizationInventoryDevices (org_id o) with
      | inl devices =>
          fetch_loop rest (dict_set (label_of o) devices inventories)
      | inr e => inr e
      end
  end.

Definition fetch_inventories (orgs : list org)
  : list (string * list device) + E :=
  fetch_loop orgs [].

End fetch.

End Inventory.

Module CliSamples.
Import PyStr Matcher Cli Inventory.

Definition three_orgs : list org :=
  [ mkOrg "Acme" "101"; mkOrg "Bolt" "102"; mkOrg "Core" "103" ].

(** An [int] and a [str] for the numbers of a short menu. *)
Definition small_int (x : string) : option Z :=
  if decide (x = "1") then Some 1%Z
  else if decide (x = "2") then Some 2%Z
  else if decide (x = "3") then Some 3%Z
  else None.

Definition small_str (n : Z) : string :=
  NilZero.string_of_int (Z.to_int n).

(** A dashboard with one device in every organization. *)
Definition one_device_each (org_id : string) : list device + string :=
  inl [mkDevice "MX68" (Some org_id)].

End CliSamples.

(** ** The default sort of the library on a small frame

    [sort_values] is called without [kind], so pandas sorts the column
    with numpy's [quicksort] kind.  On a processor with AVX2 or AVX-512
    numpy sorts the 64-bit keys of a short array in vector registers, by a
    bitonic network that moves every key together with its index.  An
    array of at most four keys takes one register: of four lanes with
    AVX2, of eight lanes with AVX-512. *)

Module VectorSort.
Import PySort.

(** A lane of the register: a key with the index it came with.  [None] is
    the padding of a partial load, the largest value of the key type. *)
Definition lane : Type := option (Z * nat).

Definition lane_le (a b : lane) : bool :=
  match a, b with
  | _, None => true
  | None, Some _ => false
  | Some (x, _), Some (y, _) => (x <=? y)%Z
  end.

(** [cmp_merge] on one lane: the lane ends with the smaller key of its
    own and its partner's, or with the larger one where the mask is set,
    and it keeps its index when that key equals the key it had. *)
Definition cmp_merge (upper : bool) (own partner : lane) : lane :=
  if upper then (if lane_le partner own then own else partner)
  else (if lane_le own partner then own else partner).

(** One stage of the network: every lane is merged with the lane that
    [partner] names for it. *)
Definition stage (partner : list nat) (mask : list bool) (v : list lane)
  : list lane :=
  imap (λ i own,
          cmp_merge (default false (mask !! i)) own
            (default None (v !! default i (partner !! i)))) v.

(** The network on four lanes: neighbours, the register against its
    reverse, neighbours. *)
Definition sort_lanes (v : list lane) : list lane :=
  stage [1; 0; 3; 2] [false; true; false; true]
    (stage [3; 2; 1; 0] [false; false; true; true]
       (stage [1; 0; 3; 2] [false; true; false; true] v)).

(** The network on eight lanes: the three stages above in both halves,
    then the register against its reverse, lanes two apart, neighbours. *)
Definition sort_lanes_wide (v : list lane) : list lane :=
  let neighbours := [1; 0; 3; 2; 5; 4; 7; 6] in
  let odd_lanes := [false; true; false; true; false; true; false; true] in
  let upper_pairs := [false; false; true; true; false; false; true; true] in
  stage neighbours odd_lanes
    (stage [2; 3; 0; 1; 6; 7; 4; 5] upper_pairs
       (stage [7; 6; 5; 4; 3; 2; 1; 0]
          [false; false; false; false; true; true; true; true]
          (stage neighbours odd_lanes
             (stage [3; 2; 1; 0; 7; 6; 5; 4] upper_pairs
                (stage neighbours odd_lanes v))))).

(** [argsort] of keys that fit one register of [lanes] lanes: the keys
    are loaded with the indices 0, 1, 2, ..., the free lanes are padded,
    and the indices of the first lanes are stored back. *)
Definition argsort_in (lanes : nat) (network : list lane → list lane)
    (keys : list Z) : list nat :=
  let v := imap (λ i k, Some (k, i)) keys ++
           replicate (lanes - length keys) (None : lane) in
  omap (λ l : lane, snd <$> l) (take (length keys) (network v)).

Definition argsort_register (keys : list Z) : list nat :=
  argsort_in 4 sort_lanes keys.

Definition argsort_register_wide (keys : list Z) : list nat :=
  argsort_in 8 sort_lanes_wide keys.

Section quicksort.
(** Whether the registers are the wide ones.  What numpy does with more
    than four keys (several registers and their merges, partitions) and
    the other sorts of [sort_values] are not part of the embedding. *)
Variable wide : bool.
Variable argsort_long : list Z → list nat.
Variable sort_other : sort_spec → list row → list row.

(** [keys.argsort(kind="quicksort")] *)
Definition argsort (keys : list Z) : list nat :=
  if decide (length keys ≤ 4) then
    if wide then argsort_register_wide keys else argsort_register keys
  else argsort_long keys.

(** pandas' [nargsort] with [ascending=False] on keys none of which is
    missing: the reversed keys are sorted in ascending order, and the
    indexer is reversed. *)
Definition nargsort_descending (keys : list Z) : list nat :=
  let non_nans := reverse keys in
  let non_nan_idx := reverse (seq 0 (length keys)) in
  reverse (omap (λ i, non_nan_idx !! i) (argsort non_nans)).

(** [sort_values(by=["Total Units"], ascending=False)] on the rows of a
    frame whose units are numbers: the rows taken by the indexer. *)
Definition sort_values_quicksort (by_ : sort_spec) (frame_rows : list row)
  : list row :=
  if decide (by_ = [("Total Units", false)]) then
    omap (λ i, frame_rows !! i)
      (nargsort_descending (map total_units frame_rows))
  else sort_other by_ frame_rows.

End quicksort.

End VectorSort.

Module SortSamples.
Import Matcher.

(** Four catalog entries; the inventory has one unit of each of the first
    two and two units of each of the last two. *)
Definition four_catalog : DataFrame :=
  mkDataFrame ["Product"; "ProductKey"]
    [ {[ "Product" := CStr "MR18"; "ProductKey" := CStr "MR18" ]};
      {[ "Product" := CStr "MX68-HW"; "ProductKey" := CStr "MX68" ]};
      {[ "Product" := CStr "MS220-8"; "ProductKey" := CStr "MS220-8" ]};
      {[ "Product" := CStr "Z3-HW"; "ProductKey" := CStr "Z3" ]} ].

Definition four_inventory : list device :=
  [ mkDevice "MR18" (Some "N1"); mkDevice "MX68" (Some "N1");
    mkDevice "MS220-8" (Some "N1"); mkDevice "MS220-8" (Some "N2");
    mkDevice "Z3" (Some "N1"); mkDevice "Z3" (Some "N2") ].

End SortSamples.

(** ** Report Renderer (table): reports with notes of their own *)

Module CsvNotes.
Import PyStr Matcher CsvExport.

(** What one organization adds to the export, as the code has it.  It is
    [contribution], except for the note of an organization with matches:
    the note is blank when the report has no "Note" column, and it is the
    note of the report's row when the report has one
    ([if "Note" not in tmp.columns]). *)
Definition contribution_with_notes (cols : list string) (item : org_report)
    (chunk : list row) : Prop :=
  if is_empty_report (report item) then
    ∃ r note,
      chunk = [r] ∧
      r !! "Organization" = Some (CStr (name item)) ∧
      r !! "Total Units" = Some (CNum 0) ∧
      r !! "Note" = Some (CStr note) ∧ note ≠ EmptyString ∧
      ∀ col, col ∈ cols → col ∉ ["Organization"; "Total Units"; "Note"] →
             r !! col = Some (CStr EmptyString)
  else
    ∃ df,
      report item = Some df ∧
      Forall2 (λ r r',
          r' !! "Organization" = Some (CStr (name item)) ∧
          r' !! "Note" =
            Some (if decide ("Note" ∈ columns df) then getitem r "Note"
                  else CStr EmptyString) ∧
          ∀ col, col ∈ columns df →
                 col ≠ "Total Units" ∨ (∃ n, getitem r col = CNum n) →
                 r' !! col = Some (getitem r col))
        (rows df) chunk.

(** An organization whose report carries a note of the vendor. *)
Definition noted_report : org_report :=
  mkReport "Acme - 1"
    (Some (mkDataFrame ["Product"; "ProductKey"; "Note"; "Total Units"]
       [ {[ "Product" := CStr "MX68-HW"; "ProductKey" := CStr "MX68";
            "Note" := CStr "vendor remark"; "Total Units" := CNum 2 ]} ])).

Definition noted_reports : list org_report :=
  [ noted_report; mkReport "Bolt - 2" (Some empty_frame) ].

End CsvNotes.

(** * Properties of the embedding *)

(** ** String primitives *)

Module PyStrFacts.
Import PyStr Normalizer.

Lemma split_go_nonempty sep k s : split_go sep k s ≠ [].
Proof.
  revert k. induction s as [|c s IH]; intros k; cbn [split_go]; [done|].
  destruct k as [|k]; [|apply IH].
  destruct (String.prefix sep (String c s)); [done|].
  destruct (split_go sep 0 s); done.
Qed.

Lemma split_nonempty sep s : split sep s ≠ [].
Proof. apply split_go_nonempty. Qed.

(** [s.split(sep)[0]] is the text before the first occurrence of [sep]. *)
Lemma item0_split sep s : item0 (split sep s) = before_first sep s.
Proof.
  unfold split. induction s as [|c s IH]; [done|].
  cbn [split_go before_first].
  destruct (String.prefix sep (String c s)); [done|].
  destruct (split_go sep 0 s) as [|p ps] eqn:E.
  - by apply split_go_nonempty in E.
  - simpl in *. by rewrite IH.
Qed.

Lemma before_first_absent sep s :
  contains sep s = false → before_first sep s = s.
Proof.
  induction s as [|c s IH]; [done|].
  cbn [contains before_first]. intros [H1 H2]%orb_false_iff.
  rewrite H1. by rewrite IH.
Qed.

(** The guarded truncation of the source is the unguarded one. *)
Lemma guarded_truncation sep s :
  (if contains sep s then item0 (split sep s) else s) = before_first sep s.
Proof.
  destruct (contains sep s) eqn:E.
  - apply item0_split.
  - symmetry. by apply before_first_absent.
Qed.

Lemma prefix_trans a b c :
  String.prefix a b = true → String.prefix b c = true → String.prefix a c = true.
Proof.
  revert b c. induction a as [|x a IH]; intros [|y b] [|z c]; simpl; try done.
  destruct (ascii_dec x y) as [->|]; [|done].
  destruct (ascii_dec y z) as [->|]; [|done].
  destruct (ascii_dec z z); [|done]. apply IH.
Qed.

Lemma prefix_before_first sep s : String.prefix (before_first sep s) s = true.
Proof.
  induction s as [|c s IH]; [done|].
  cbn [before_first]. destruct (String.prefix sep (String c s)); [done|].
  simpl. by destruct (ascii_dec c c).
Qed.

(** The text before the first occurrence holds no occurrence. *)
Lemma before_first_free sep s :
  sep ≠ EmptyString → contains sep (before_first sep s) = false.
Proof.
  intros Hsep. induction s as [|c s IH].
  - simpl. destruct sep; [done|]. done.
  - cbn [before_first]. destruct (String.prefix sep (String c s)) eqn:E.
    + simpl. destruct sep; [done|]. done.
    + cbn [contains]. rewrite IH, orb_false_r.
      destruct (String.prefix sep (String c (before_first sep s))) eqn:E'; [|done].
      rewrite <- E. symmetry. eapply prefix_trans; [exact E'|].
      simpl. destruct (ascii_dec c c); [|done]. apply prefix_before_first.
Qed.

Lemma length_before_first sep s :
  String.length (before_first sep s) ≤ String.length s.
Proof.
  induction s as [|c s IH]; [done|].
  cbn [before_first]. destruct (String.prefix sep (String c s)); simpl; lia.
Qed.

Lemma before_first_shorter sep s :
  sep ≠ EmptyString → contains sep s = true →
  String.length (before_first sep s) < String.length s.
Proof.
  intros Hsep. induction s as [|c s IH].
  - simpl. by destruct sep.
  - cbn [contains before_first].
    destruct (String.prefix sep (String c s)); simpl; [lia|].
    intros H. apply IH in H. lia.
Qed.

(** *** Characters *)

Lemma islower_upper_char c : islower (upper_char c) = false.
Proof. by destruct c as [[] [] [] [] [] [] [] []]. Qed.

Lemma isspace_upper_char c : isspace (upper_char c) = isspace c.
Proof. by destruct c as [[] [] [] [] [] [] [] []]. Qed.

Lemma upper_char_fixed c : islower c = false → upper_char c = c.
Proof. unfold upper_char. by intros ->. Qed.

(** Only letters are changed, and only into upper-case letters. *)
Lemma upper_char_changed c : upper_char c ≠ c → isupper (upper_char c) = true.
Proof. destruct c as [[] [] [] [] [] [] [] []]; vm_compute; done. Qed.

(** *** [all_chars] along the string functions *)

Lemma all_chars_before_first p sep s :
  all_chars p s = true → all_chars p (before_first sep s) = true.
Proof.
  induction s as [|c s IH]; [done|].
  cbn [before_first all_chars]. intros [H1 H2]%andb_true_iff.
  destruct (String.prefix sep (String c s)); [done|].
  cbn [all_chars]. by rewrite H1, IH.
Qed.

Lemma all_chars_lstrip p s :
  all_chars p s = true → all_chars p (lstrip s) = true.
Proof.
  induction s as [|c s IH]; [done|].
  cbn [lstrip all_chars]. intros H.
  destruct (isspace c); [|done]. apply andb_true_iff in H as [_ H]. auto.
Qed.

Lemma all_chars_rstrip p s :
  all_chars p s = true → all_chars p (rstrip s) = true.
Proof.
  induction s as [|c s IH]; [done|].
  cbn [rstrip all_chars]. intros [H1 H2]%andb_true_iff.
  specialize (IH H2). destruct (rstrip s) as [|d r].
  - destruct (isspace c); [done|]. cbn [all_chars]. by rewrite H1.
  - cbn [all_chars] in *. by rewrite H1, IH.
Qed.

Lemma all_chars_strip p s :
  all_chars p s = true → all_chars p (strip s) = true.
Proof. intros H. by apply all_chars_rstrip, all_chars_lstrip. Qed.

Lemma all_chars_impl (p q : ascii → bool) s :
  (∀ c, p c = true → q c = true) →
  all_chars p s = true → all_chars q s = true.
Proof.
  intros Hpq. induction s as [|c s IH]; [done|].
  cbn [all_chars]. intros [H1 H2]%andb_true_iff.
  by rewrite (Hpq _ H1), IH.
Qed.

Lemma before_first_lacks c s :
  lacks c (before_first (String c EmptyString) s) = true.
Proof.
  unfold lacks. induction s as [|x s IH]; [done|].
  cbn [before_first String.prefix].
  destruct (ascii_dec c x) as [->|Hne].
  - by destruct s.
  - cbn [all_chars]. rewrite IH, andb_true_r.
    apply negb_true_iff, bool_decide_eq_false. congruence.
Qed.

Lemma lacks_before_first_same c s :
  lacks c s = true → before_first (String c EmptyString) s = s.
Proof.
  unfold lacks. induction s as [|x s IH]; [done|].
  cbn [all_chars before_first String.prefix].
  intros [H1%negb_true_iff%bool_decide_eq_false H2]%andb_true_iff.
  destruct (ascii_dec c x) as [->|Hne]; [done|]. by rewrite IH.
Qed.

Lemma lacks_upper c s :
  isupper c = false → lacks c s = true → lacks c (upper s) = true.
Proof.
  unfold lacks. intros Hc. induction s as [|x s IH]; [done|].
  cbn [upper all_chars]. intros [H1 H2]%andb_true_iff.
  rewrite IH, andb_true_r by done.
  apply negb_true_iff, bool_decide_eq_false. intros Heq.
  apply negb_true_iff, bool_decide_eq_false in H1.
  destruct (decide (upper_char x = x)) as [Hfix|Hch]; [congruence|].
  apply upper_char_changed in Hch. congruence.
Qed.

Lemma upper_no_lower s : all_chars (λ c, negb (islower c)) (upper s) = true.
Proof.
  induction s as [|c s IH]; [done|].
  cbn [upper all_chars]. by rewrite islower_upper_char, IH.
Qed.

Lemma upper_fixed s :
  all_chars (λ c, negb (islower c)) s = true → upper s = s.
Proof.
  induction s as [|c s IH]; [done|].
  cbn [upper all_chars]. intros [H1%negb_true_iff H2]%andb_true_iff.
  by rewrite upper_char_fixed, IH.
Qed.

Lemma upper_length s : String.length (upper s) = String.length s.
Proof. induction s; simpl; congruence. Qed.

(** *** Stripping *)

Lemma lstrip_clean s : starts_clean (lstrip s).
Proof.
  induction s as [|c s IH]; [done|].
  cbn [lstrip]. by destruct (isspace c) eqn:E.
Qed.

Lemma lstrip_fixed s : starts_clean s → lstrip s = s.
Proof. destruct s as [|c s]; [done|]. simpl. by intros ->. Qed.

Lemma rstrip_clean s : starts_clean s → starts_clean (rstrip s).
Proof.
  destruct s as [|c s]; [done|]. cbn [rstrip starts_clean]. intros Hc.
  destruct (rstrip s); [by rewrite Hc|done].
Qed.

Lemma strip_clean s : starts_clean (strip s).
Proof. apply rstrip_clean, lstrip_clean. Qed.

Lemma rstrip_idemp s : rstrip (rstrip s) = rstrip s.
Proof.
  induction s as [|c s IH]; [done|].
  cbn [rstrip]. destruct (rstrip s) as [|d r] eqn:E.
  - destruct (isspace c) eqn:Hc; [done|]. simpl. by rewrite Hc.
  - cbn [rstrip]. cbn [rstrip] in IH. by rewrite IH.
Qed.

Lemma length_rstrip s : String.length (rstrip s) ≤ String.length s.
Proof.
  induction s as [|c s IH]; [done|].
  cbn [rstrip]. destruct (rstrip s) as [|d r].
  - destruct (isspace c); simpl; lia.
  - simpl in *. lia.
Qed.

Lemma rstrip_full_length s :
  String.length (rstrip s) = String.length s → rstrip s = s.
Proof.
  induction s as [|c s IH]; [done|].
  cbn [rstrip]. destruct (rstrip s) as [|d r].
  - destruct (isspace c); simpl; [done|].
    intros [= H]. by destruct s.
  - simpl. intros [= H]. f_equal. apply IH. simpl. done.
Qed.

Lemma rstrip_no_space s :
  all_chars (λ c, negb (isspace c)) s = true → rstrip s = s.
Proof.
  induction s as [|c s IH]; [done|].
  cbn [all_chars rstrip]. intros [H1%negb_true_iff H2]%andb_true_iff.
  rewrite IH by done. destruct s; [by rewrite H1|done].
Qed.

Lemma strip_fixed s : starts_clean s → rstrip s = s → strip s = s.
Proof. intros H1 H2. unfold strip. by rewrite lstrip_fixed. Qed.

Lemma before_first_clean sep s :
  starts_clean s → starts_clean (before_first sep s).
Proof.
  destruct s as [|c s]; [done|]. cbn [before_first].
  by destruct (String.prefix sep (String c s)).
Qed.

Lemma upper_clean s : starts_clean s → starts_clean (upper s).
Proof.
  destruct s as [|c s]; [done|]. simpl. by rewrite isspace_upper_char.
Qed.

End PyStrFacts.

(** ** Key Normalizer *)

Module NormalizerFacts.
Import PyStr Normalizer PyStrFacts.

Lemma normalize_str x :
  normalize_product_to_key (CStr x) = normalize_retrimmed x.
Proof.
  unfold normalize_product_to_key, normalize_retrimmed. cbv zeta.
  rewrite guarded_truncation. by rewrite !item0_split.
Qed.

(** The characters of a key all come from the input, up to case. *)
Lemma normalize_keeps p x :
  all_chars p x = true →
  all_chars p (before_first "-HW"
                 (before_first " " (strip (before_first "," (strip x))))) = true.
Proof.
  intros H.
  by apply all_chars_before_first, all_chars_before_first, all_chars_strip,
    all_chars_before_first, all_chars_strip.
Qed.

Lemma normalize_lacks_comma v : lacks "," (normalize_product_to_key v) = true.
Proof.
  destruct v as [x| | |]; try done. rewrite normalize_str.
  apply lacks_upper; [done|]. unfold lacks.
  apply all_chars_before_first, all_chars_before_first, all_chars_strip.
  apply before_first_lacks.
Qed.

Lemma normalize_lacks_space v : lacks " " (normalize_product_to_key v) = true.
Proof.
  destruct v as [x| | |]; try done. rewrite normalize_str.
  apply lacks_upper; [done|]. unfold lacks.
  apply all_chars_before_first. apply before_first_lacks.
Qed.

Lemma normalize_clean v : starts_clean (normalize_product_to_key v).
Proof.
  destruct v as [x| | |]; try done. rewrite normalize_str.
  apply upper_clean, before_first_clean, before_first_clean, strip_clean.
Qed.

Lemma normalize_no_lower v :
  all_chars (λ c, negb (islower c)) (normalize_product_to_key v) = true.
Proof.
  destruct v as [x| | |]; try done. rewrite normalize_str. apply upper_no_lower.
Qed.

(** Normalising a key again only strips trailing whitespace and cuts at
    "-HW". *)
Lemma normalize_key_again v :
  normalize_product_to_key (CStr (normalize_product_to_key v)) =
  before_first "-HW" (rstrip (normalize_product_to_key v)).
Proof.
  set (k := normalize_product_to_key v).
  assert (Hcomma : lacks "," k = true) by apply normalize_lacks_comma.
  assert (Hspace : lacks " " k = true) by apply normalize_lacks_space.
  assert (Hclean : starts_clean k) by apply normalize_clean.
  assert (Hlow : all_chars (λ c, negb (islower c)) k = true)
    by apply normalize_no_lower.
  rewrite normalize_str. unfold normalize_retrimmed, strip.
  rewrite (lstrip_fixed k) by done.
  rewrite (lacks_before_first_same "," (rstrip k))
    by (by apply all_chars_rstrip).
  rewrite (lstrip_fixed (rstrip k)) by (by apply rstrip_clean).
  rewrite rstrip_idemp.
  rewrite (lacks_before_first_same " " (rstrip k))
    by (by apply all_chars_rstrip).
  apply upper_fixed. by apply all_chars_before_first, all_chars_rstrip.
Qed.

(** Inputs in upper case whose only whitespace is the space. *)
Lemma normalize_plain_key x :
  plain x = true →
  contains "-HW" (normalize_product_to_key (CStr x)) = false ∧
  rstrip (normalize_product_to_key (CStr x)) = normalize_product_to_key (CStr x).
Proof.
  unfold plain. intros Hx.
  assert (Hlow : all_chars (λ c, negb (islower c)) x = true).
  { revert Hx. apply all_chars_impl. by intros c [? _]%andb_true_iff. }
  pose proof (normalize_lacks_space (CStr x)) as Hsp.
  rewrite normalize_str in *. unfold normalize_retrimmed in *.
  rewrite upper_fixed in * by (by apply normalize_keeps).
  split; [by apply before_first_free|].
  apply rstrip_no_space.
  apply (normalize_keeps _ x) in Hx. unfold lacks in Hsp.
  revert Hx Hsp.
  generalize (before_first "-HW"
    (before_first " " (strip (before_first "," (strip x))))).
  induction s as [|c s IH]; [done|]. cbn [all_chars].
  intros [[_ H1]%andb_true_iff H2]%andb_true_iff
         [H3%negb_true_iff%bool_decide_eq_false H4]%andb_true_iff.
  rewrite IH, andb_true_r by done.
  apply orb_true_iff in H1 as [H1|H1%bool_decide_eq_true]; done.
Qed.

(** C3 (amended): for every input the key is the upper case of the first
    space-separated token of the text before the first comma of the trimmed
    input, that text being trimmed again, cut at "-HW" if present; inputs
    that are empty or all whitespace, and inputs that are no strings, give
    the empty key; "MX68-HW", "" and "mx68 cloud managed" give "MX68", ""
    and "MX68". *)
Theorem normalize_as_described :
  (∀ x, normalize_product_to_key (CStr x) = normalize_retrimmed x) ∧
  (∀ x, strip x = EmptyString →
        normalize_product_to_key (CStr x) = EmptyString) ∧
  normalize_product_to_key CNaN = EmptyString ∧
  (∀ n, normalize_product_to_key (CNum n) = EmptyString) ∧
  (∀ l, normalize_product_to_key (CLinks l) = EmptyString) ∧
  normalize_product_to_key (CStr "MX68-HW") = "MX68" ∧
  normalize_product_to_key (CStr "") = "" ∧
  normalize_product_to_key (CStr "mx68 cloud managed") = "MX68".
Proof.
  split; [exact normalize_str|].
  split; [|by repeat split].
  intros x Hx. rewrite normalize_str. unfold normalize_retrimmed.
  by rewrite Hx.
Qed.

(** C3, witness: a string of blanks, the second part of the theorem. *)
Lemma normalize_as_described_witness :
  strip "  " = EmptyString ∧ normalize_product_to_key (CStr "  ") = EmptyString.
Proof.
  split; [reflexivity|].
  apply (proj1 (proj2 normalize_as_described)). reflexivity.
Defined.

(** C3, counterexample: with a TAB before the comma the code gives "A",
    where the description without the second trim gives "A" followed by the
    TAB. *)
Lemma normalize_described_differs :
  normalize_product_to_key (CStr (String "a" (String TAB ",b"))) ≠
  normalize_described (String "a" (String TAB ",b")).
Proof. vm_compute. discriminate. Qed.

(** C7 (amended): normalising a key again returns it exactly when the key
    holds no "-HW" and has no trailing whitespace; this is so for every
    input without lower-case letters whose only whitespace is the space. *)
Theorem normalize_idempotent_iff :
  (∀ x,
    normalize_product_to_key (CStr (normalize_product_to_key (CStr x))) =
      normalize_product_to_key (CStr x)
    ↔ contains "-HW" (normalize_product_to_key (CStr x)) = false ∧
      rstrip (normalize_product_to_key (CStr x)) =
        normalize_product_to_key (CStr x)) ∧
  (∀ x, plain x = true →
    normalize_product_to_key (CStr (normalize_product_to_key (CStr x))) =
      normalize_product_to_key (CStr x)).
Proof.
  assert (Hiff : ∀ k,
    before_first "-HW" (rstrip k) = k ↔
    contains "-HW" k = false ∧ rstrip k = k).
  { intros k. split.
    - intros Heq.
      assert (Hr : rstrip k = k).
      { apply rstrip_full_length.
        pose proof (length_rstrip k).
        pose proof (length_before_first "-HW" (rstrip k)) as Hl.
        rewrite Heq in Hl. lia. }
      split; [|done]. rewrite Hr in Heq.
      destruct (contains "-HW" k) eqn:E; [|done].
      apply before_first_shorter in E; [|done]. rewrite Heq in E. lia.
    - intros [Hc Hr]. rewrite Hr. by apply before_first_absent. }
  split.
  - intros x. rewrite normalize_key_again. apply Hiff.
  - intros x Hx. rewrite normalize_key_again. apply Hiff.
    by apply normalize_plain_key.
Qed.

(** C7, witness: the second part at a two-SKU upper-case label. *)
Lemma normalize_idempotent_witness :
  plain "MX68-HW, MX68CW-HW" = true ∧
  normalize_product_to_key
    (CStr (normalize_product_to_key (CStr "MX68-HW, MX68CW-HW"))) =
  normalize_product_to_key (CStr "MX68-HW, MX68CW-HW").
Proof.
  split; [reflexivity|].
  apply (proj2 normalize_idempotent_iff). reflexivity.
Defined.

(** C7, counterexample: "mx68-hw" is normalised to "MX68-HW", which is
    normalised to "MX68". *)
Lemma normalize_not_idempotent :
  normalize_product_to_key (CStr (normalize_product_to_key (CStr "mx68-hw"))) ≠
  normalize_product_to_key (CStr "mx68-hw").
Proof. vm_compute. discriminate. Qed.

(** C10 (amended): a key holds no lower-case ASCII letter, no comma and no
    space, and does not start with whitespace. *)
Theorem normalized_key_shape (v : cell) :
  all_chars (λ c, negb (islower c)) (normalize_product_to_key v) = true ∧
  lacks "," (normalize_product_to_key v) = true ∧
  lacks " " (normalize_product_to_key v) = true ∧
  lstrip (normalize_product_to_key v) = normalize_product_to_key v.
Proof.
  split; [apply normalize_no_lower|].
  split; [apply normalize_lacks_comma|].
  split; [apply normalize_lacks_space|].
  apply lstrip_fixed, normalize_clean.
Qed.

(** C10, counterexample: the key of "a", TAB, " b" ends with the TAB, so it
    is not its own trim. *)
Lemma normalized_key_trailing_tab :
  strip (normalize_product_to_key (CStr (String "a" (String TAB " b")))) ≠
  normalize_product_to_key (CStr (String "a" (String TAB " b"))).
Proof. vm_compute. discriminate. Qed.

End NormalizerFacts.

(** ** EoL Table Builder *)

Module BuilderFacts.
Import PyStr PyRepr Normalizer Builder Samples.

Lemma map_fmap {A B : Type} (f : A → B) (l : list A) : map f l = f <$> l.
Proof. reflexivity. Qed.

(** The inner loop keeps the link lists of the cells that have links. *)
Lemma linked_cells_of_row (row_tds : tr) :
  flat_map (λ cell_anchors,
      match sublinks_of cell_anchors with
      | [] => []
      | sublinks => [sublinks]
      end) row_tds =
  filter (λ l, l ≠ []) (map sublinks_of row_tds).
Proof.
  induction row_tds as [|cell_anchors row_tds IH]; [done|].
  cbn [flat_map map]. rewrite filter_cons, IH.
  destruct (sublinks_of cell_anchors); [by rewrite decide_False by auto|].
  by rewrite decide_True.
Qed.

(** The scraping loop keeps one list per cell that has links, whatever
    row the cell is in. *)
Lemma scrape_links_cells table :
  scrape_links table = filter (λ l, l ≠ []) (sublinks_of <$> concat table).
Proof.
  unfold scrape_links. induction table as [|row_tds table IH]; [done|].
  cbn [flat_map concat]. rewrite fmap_app, filter_app, <- IH. f_equal.
  apply linked_cells_of_row.
Qed.

Lemma length_padded_links n links : length (padded_links n links) = n.
Proof.
  unfold padded_links. case_decide; [done|].
  rewrite length_app, length_replicate, length_take. lia.
Qed.

Lemma lookup_padded_links n links i :
  i < n → padded_links n links !! i = Some (default [] (links !! i)).
Proof.
  intros Hi. unfold padded_links. case_decide as Hlen.
  - destruct (lookup_lt_is_Some_2 links i) as [l Hl]; [lia|]. by rewrite Hl.
  - destruct (decide (i < length links)) as [Hlt|Hge].
    + rewrite lookup_app_l by (rewrite length_take; lia).
      rewrite lookup_take_lt by done.
      destruct (lookup_lt_is_Some_2 links i) as [l Hl]; [lia|]. by rewrite Hl.
    + rewrite lookup_app_r by (rewrite length_take; lia).
      rewrite (lookup_ge_None_2 links i) by lia. simpl.
      apply lookup_replicate_2. rewrite !length_take. lia.
Qed.

Lemma attach_links_rows links eol_df i :
  rows (attach_links links eol_df) !! i =
  (λ r, <["Upgrade Path" := CLinks (default [] (links !! i))]> r)
    <$> rows eol_df !! i.
Proof.
  unfold attach_links. cbn [rows]. rewrite lookup_zip_with.
  destruct (rows eol_df !! i) as [r|] eqn:Hr; [|done]. simpl.
  apply lookup_lt_Some in Hr. by rewrite lookup_padded_links.
Qed.

Lemma concat_no_links (ls : list (list string)) :
  filter (λ l, l ≠ []) ls = [] → concat ls = [].
Proof.
  induction ls as [|x ls IH]; [done|]. rewrite filter_cons.
  destruct (decide (x ≠ [])) as [Hx|Hx]; [done|].
  intros H. cbn [concat]. rewrite IH by done.
  destruct x; [done|]. by destruct Hx.
Qed.

Lemma concat_one_linked (ls : list (list string)) l :
  filter (λ l, l ≠ []) ls = [l] → concat ls = l.
Proof.
  induction ls as [|x ls IH]; [done|]. rewrite filter_cons.
  destruct (decide (x ≠ [])) as [Hx|Hx].
  - intros [= -> Hrest]. cbn [concat].
    by rewrite concat_no_links, app_nil_r.
  - intros H. cbn [concat]. rewrite IH by done.
    destruct x; [done|]. by destruct Hx.
Qed.

(** X2: on a page where every data row has links in exactly one cell, the
    scraped list is the list of the data rows' link targets, row by row. *)
Theorem regular_page_links_per_row (table : html_table) :
  Forall regular_row table →
  scrape_links table = row_links_described (filter (λ r, r ≠ []) table).
Proof.
  unfold scrape_links, row_links_described.
  induction 1 as [|row_tds table Hrow Htable IH]; [done|].
  cbn [flat_map].
  rewrite IH, (filter_cons (λ r : list td, r ≠ []) row_tds table),
    linked_cells_of_row.
  destruct Hrow as [->|Hone].
  - by rewrite decide_False by auto.
  - rewrite decide_True by (intros ->; done).
    destruct (filter (λ l, l ≠ []) (map sublinks_of row_tds))
      as [|l [|l' ls]] eqn:Hf; try done.
    cbn [map app]. f_equal.
    rewrite flat_map_concat_map. symmetry. by apply concat_one_linked.
Qed.

(** X2, witness: the sample page with one linked cell per data row. *)
Lemma regular_page_witness :
  Forall regular_row regular_markup ∧
  scrape_links regular_markup =
    [ ["https://example.test/eos-mx68"]; ["https://example.test/eos-ms120"] ].
Proof.
  assert (Hreg : Forall regular_row regular_markup).
  { unfold regular_markup.
    repeat (apply Forall_cons; split; [(by left) || (right; reflexivity)|]).
    apply Forall_nil_2. }
  split; [exact Hreg|].
  rewrite (regular_page_links_per_row regular_markup Hreg). reflexivity.
Defined.

(** C6 (amended): the scraped list holds one link list for every table
    cell that has at least one non-empty hyperlink target, in document
    order (not one per table row); it is paired with the parsed rows by
    position, and row [i] always gets a list: the [i]-th scraped one, or
    the empty list when there is none, the surplus being dropped. *)
Theorem links_aligned_by_linked_cell (table : html_table) (eol_df : DataFrame) :
  scrape_links table = filter (λ l, l ≠ []) (sublinks_of <$> concat table) ∧
  length (rows (attach_links (scrape_links table) eol_df)) =
    length (rows eol_df) ∧
  ∀ i, rows (attach_links (scrape_links table) eol_df) !! i =
       (λ r, <["Upgrade Path" :=
                 CLinks (default [] (scrape_links table !! i))]> r)
         <$> rows eol_df !! i.
Proof.
  split; [apply scrape_links_cells|]. split; [|apply attach_links_rows].
  unfold attach_links. cbn [rows].
  rewrite length_zip_with, length_padded_links. lia.
Qed.

(** C6, counterexample: in a table whose first data row has no link and
    whose second has one, the scraped list is neither the per-row list nor
    that list without the header row; the only link goes to the first
    parsed row. *)
Lemma links_not_per_row :
  scrape_links two_row_markup ≠ row_links_described two_row_markup ∧
  scrape_links two_row_markup ≠ tail (row_links_described two_row_markup) ∧
  (λ r, getitem r "Upgrade Path") <$>
      rows (attach_links (scrape_links two_row_markup) two_row_frame) =
    [CLinks ["https://example.test/eos-ms120"]; CLinks []].
Proof. vm_compute. repeat split; discriminate. Qed.

Lemma expand_two_parts (r : row) :
  expand_row (<["Product" := CStr "MS120-8, MS120-8FP"]> r) =
  [ <["Product" := CStr "MS120-8"]> r; <["Product" := CStr "MS120-8FP"]> r ].
Proof.
  unfold expand_row, getitem. rewrite lookup_insert_eq. cbn [default py_str].
  replace (filter (λ p, p ≠ EmptyString)
             (map strip (split "," "MS120-8, MS120-8FP")))
    with ["MS120-8"; "MS120-8FP"] by (vm_compute; reflexivity).
  cbn [map]. by rewrite !insert_insert_eq.
Qed.

(** C5 (amended): a row whose Product cell is "MS120-8, MS120-8FP"
    expands into exactly two rows, one per SKU label, every other field
    unchanged; their product keys are "MS120-8" and "MS120-8FP". *)
Theorem expand_two_skus (r : row) :
  expand_row (<["Product" := CStr "MS120-8, MS120-8FP"]> r) =
    [ <["Product" := CStr "MS120-8"]> r; <["Product" := CStr "MS120-8FP"]> r ] ∧
  (∀ e col, e ∈ expand_row (<["Product" := CStr "MS120-8, MS120-8FP"]> r) →
            col ≠ "Product" → e !! col = r !! col) ∧
  (λ e, getitem (with_product_key e) "ProductKey") <$>
      expand_row (<["Product" := CStr "MS120-8, MS120-8FP"]> r) =
    [CStr "MS120-8"; CStr "MS120-8FP"].
Proof.
  rewrite expand_two_parts. split; [done|]. split.
  - intros e col He Hcol.
    apply elem_of_cons in He as [->|He];
      [|apply list_elem_of_singleton in He as ->];
      by rewrite lookup_insert_ne.
  - cbn [fmap list_fmap]. unfold with_product_key, getitem.
    rewrite !lookup_insert_eq. cbn [default]. by vm_compute.
Qed.

(** C5, witness: the theorem at the sample row, whose end-of-support
    date is carried into both rows. *)
Lemma expand_two_skus_witness :
  "End-of-Support Date" ≠ "Product" ∧
  ∀ e, e ∈ expand_row (<["Product" := CStr "MS120-8, MS120-8FP"]> ms120_row) →
       e !! "End-of-Support Date" = Some (CStr "Jan 1, 2027").
Proof.
  split; [discriminate|]. intros e He.
  rewrite (proj1 (proj2 (expand_two_skus ms120_row)) e "End-of-Support Date" He);
    [reflexivity | discriminate].
Defined.

(** C5, counterexample: the two expanded rows do not both get the key
    "MS120". *)
Lemma expand_keys_not_ms120 :
  (λ e, getitem (with_product_key e) "ProductKey") <$> expand_row ms120_row ≠
  [CStr "MS120"; CStr "MS120"].
Proof. vm_compute. discriminate. Qed.

Lemma product_key_of_keyed (e : row) :
  getitem (with_product_key e) "ProductKey" =
  CStr (normalize_product_to_key (getitem e "Product")).
Proof. unfold with_product_key, getitem at 1. by rewrite lookup_insert_eq. Qed.

Lemma product_key_joined (r : row) :
  join_upgrade_path r !! "ProductKey" = r !! "ProductKey".
Proof. unfold join_upgrade_path. by rewrite lookup_insert_ne. Qed.

(** The keys that survive the filter are the non-empty keys of the
    expanded rows, in order. *)
Lemma keys_of_keyed (expanded : list row) :
  (λ r, getitem r "ProductKey") <$>
    filter has_product_key (map with_product_key expanded) =
  filter (λ k, k ≠ CStr EmptyString)
    ((λ e, CStr (normalize_product_to_key (getitem e "Product"))) <$> expanded).
Proof.
  induction expanded as [|e expanded IH]; [done|].
  assert (Hiff : has_product_key (with_product_key e) ↔
                 CStr (normalize_product_to_key (getitem e "Product")) ≠
                 CStr EmptyString).
  { unfold has_product_key. by rewrite product_key_of_keyed. }
  cbn [map fmap list_fmap]. rewrite !filter_cons.
  repeat case_decide; try tauto.
  cbn [fmap list_fmap]. rewrite product_key_of_keyed. f_equal. exact IH.
Qed.

Lemma keys_of_joined (l : list row) :
  (λ r, getitem r "ProductKey") <$> map join_upgrade_path l =
  (λ r, getitem r "ProductKey") <$> l.
Proof.
  induction l as [|r l IH]; [done|].
  cbn [map fmap list_fmap]. f_equal; [|exact IH].
  unfold getitem. by rewrite product_key_joined.
Qed.

(** C8: every entry of a returned catalog has a non-empty product key, and
    the catalog is not empty; its keys are those of the expanded rows with
    the empty ones dropped. *)
Theorem catalog_keys_nonempty dfs table catalog :
  fetch_eol_table dfs table = Ok catalog →
  rows catalog ≠ [] ∧
  Forall (λ r, ∃ k, r !! "ProductKey" = Some (CStr k) ∧ k ≠ EmptyString)
    (rows catalog) ∧
  ∃ eol_df rest t,
    dfs = eol_df :: rest ∧ table = Some t ∧
    (λ r, getitem r "ProductKey") <$> rows catalog =
    filter (λ k, k ≠ CStr EmptyString)
      ((λ e, CStr (normalize_product_to_key (getitem e "Product"))) <$>
         expanded_rows (attach_links (scrape_links t) eol_df)).
Proof.
  unfold fetch_eol_table. destruct dfs as [|eol_df rest]; [done|].
  case_decide; [|done]. destruct table as [t|]; [|done].
  destruct (expanded_rows (attach_links (scrape_links t) eol_df))
    as [|e0 expanded'] eqn:Hexp; [done|].
  set (expanded := e0 :: expanded') in *.
  set (keyed := filter has_product_key (map with_product_key expanded)).
  set (joined := if decide _ then map join_upgrade_path keyed else keyed).
  assert (Hkeys : (λ r, getitem r "ProductKey") <$> joined =
                   (λ r, getitem r "ProductKey") <$> keyed).
  { unfold joined. case_decide; [apply keys_of_joined|done]. }
  destruct joined as [|j0 joined'] eqn:Hj; [done|].
  intros [= <-]. cbn [rows]. split; [done|]. split.
  - assert (Hall : Forall (λ c, ∃ k, c = CStr k ∧ k ≠ EmptyString)
                     ((λ r, getitem r "ProductKey") <$> j0 :: joined')).
    { rewrite Hkeys. unfold keyed. rewrite keys_of_keyed.
      apply Forall_forall. intros c [Hc Hin]%list_elem_of_filter.
      apply list_elem_of_fmap in Hin as [e [-> _]]. eexists. split; [done|].
      congruence. }
    rewrite Forall_fmap in Hall. eapply Forall_impl; [exact Hall|].
    intros r [k [Hk Hne]]. exists k. split; [|done].
    unfold getitem in Hk. simpl in Hk.
    destruct (r !! "ProductKey") as [c|]; simpl in Hk; [by subst|done].
  - exists eol_df, rest, t. split; [done|]. split; [done|].
    rewrite Hkeys, Hexp. apply keys_of_keyed.
Qed.

(** C8, witness: the sample page, whose catalog has three entries. *)
Lemma catalog_keys_nonempty_witness :
  ∃ catalog,
    fetch_eol_table [two_row_frame] (Some two_row_markup) = Ok catalog ∧
    (λ r, getitem r "ProductKey") <$> rows catalog =
      [CStr "MX68"; CStr "MS120-8"; CStr "MS120-8FP"] ∧
    Forall (λ r, ∃ k, r !! "ProductKey" = Some (CStr k) ∧ k ≠ EmptyString)
      (rows catalog).
Proof.
  eexists. split; [vm_compute; reflexivity|]. split; [vm_compute; reflexivity|].
  refine (proj1 (proj2 (catalog_keys_nonempty
            [two_row_frame] (Some two_row_markup) _ _))).
  vm_compute. reflexivity.
Defined.

End BuilderFacts.

(** ** Sorting *)

Module PySortFacts.
Import PySort.

Section isort.
Context {A : Type} (before : A → A → bool) (R : relation A).
Hypothesis before_true : ∀ x y, before x y = true → R x y.
Hypothesis before_false : ∀ x y, before x y = false → R y x.

Lemma insert_by_perm x l : insert_by before x l ≡ₚ x :: l.
Proof.
  induction l as [|y l IH]; [done|].
  cbn [insert_by]. destruct (before x y); [done|].
  rewrite IH. apply Permutation_swap.
Qed.

Lemma isort_perm l : isort before l ≡ₚ l.
Proof.
  induction l as [|x l IH]; [done|].
  cbn [isort foldr]. rewrite insert_by_perm. by constructor.
Qed.

Lemma insert_by_hd x y l :
  R y x → HdRel R y l → HdRel R y (insert_by before x l).
Proof.
  intros Hyx Hl. destruct l as [|z l]; cbn [insert_by]; [by constructor|].
  destruct (before x z); constructor; [done|]. by inversion Hl.
Qed.

Lemma insert_by_sorted x l : Sorted R l → Sorted R (insert_by before x l).
Proof.
  induction 1 as [|y l Hl IH Hhd]; cbn [insert_by]; [by repeat constructor|].
  destruct (before x y) eqn:E.
  - constructor; [by constructor|]. constructor. by apply before_true.
  - constructor; [done|]. apply insert_by_hd; [|done]. by apply before_false.
Qed.

Lemma isort_sorted l : Sorted R (isort before l).
Proof.
  induction l as [|x l IH]; [constructor|].
  cbn [isort foldr]. by apply insert_by_sorted.
Qed.

End isort.

Lemma keeping_ties_contract :
  sort_values_contract (λ _, sort_units_keeping_ties).
Proof.
  split; [intros _ l; apply isort_perm|]. intros l _.
  apply isort_sorted; intros r1 r2; unfold units_desc; lia.
Qed.

End PySortFacts.

(** ** Inventory Matcher *)

Module MatcherFacts.
Import PyStr PySort Matcher VectorSort Samples SortSamples PySortFacts.

Lemma value_counts_lookup keys k :
  value_counts keys !! k =
  match length (filter (λ x, x = k) keys) with
  | 0 => None
  | n => Some n
  end.
Proof.
  induction keys as [|x keys IH]; [done|].
  cbn [value_counts foldr]. fold (value_counts keys). rewrite filter_cons.
  destruct (decide (x = k)) as [->|Hne].
  - rewrite lookup_insert_eq, IH. cbn [length].
    by destruct (length (filter (λ x, x = k) keys)).
  - by rewrite lookup_insert_ne.
Qed.

Lemma count_model_keys devices k :
  length (filter (λ x, x = k) (map ModelKey (filter assigned devices))) =
  assigned_units devices k.
Proof.
  unfold assigned_units. induction devices as [|d devices IH]; [done|].
  rewrite !filter_cons.
  destruct (decide (assigned d)) as [Ha|Hna].
  - cbn [map]. rewrite filter_cons.
    destruct (decide (ModelKey d = k)) as [Hk|Hnk].
    + rewrite decide_True by done. cbn [length]. by rewrite IH.
    + rewrite decide_False by tauto. done.
  - rewrite decide_False by tauto. done.
Qed.

(** The frequency count of a key is present exactly when some assigned
    device has it as its upper-cased model, and is then their number. *)
Lemma counts_present devices k n :
  value_counts (map ModelKey (filter assigned devices)) !! k = Some n ↔
  n = assigned_units devices k ∧ 0 < n.
Proof.
  rewrite value_counts_lookup, count_model_keys.
  destruct (assigned_units devices k); split; try done; try lia.
  - intros [= <-]. lia.
  - by intros [-> _].
Qed.

Lemma elem_of_matched_rows eol_df inv r :
  r ∈ matched_rows eol_df inv ↔
  ∃ e k n, e ∈ rows eol_df ∧ getitem e "ProductKey" = CStr k ∧
           value_counts (map ModelKey inv) !! k = Some n ∧
           r = <["Total Units" := CNum (Z.of_nat n)]> e.
Proof.
  unfold matched_rows. rewrite list_elem_of_filter.
  change (map (with_total_units ?c) ?l) with (with_total_units c <$> l).
  rewrite list_elem_of_fmap. split.
  - intros [Hu [e [-> He]]]. unfold has_units, with_total_units, getitem in Hu.
    rewrite lookup_insert_eq in Hu. cbn [default] in Hu.
    unfold with_total_units. unfold units_cell in *.
    destruct (getitem e "ProductKey") as [k| | |] eqn:Hk; try done.
    destruct (value_counts (map ModelKey inv) !! k) as [n|] eqn:Hn; [|done].
    by exists e, k, n.
  - intros (e & k & n & He & Hk & Hn & ->). split.
    + unfold has_units, getitem. by rewrite lookup_insert_eq.
    + exists e. split; [|done]. unfold with_total_units, units_cell.
      by rewrite Hk, Hn.
Qed.

Lemma matched_rows_numeric eol_df inv :
  Forall (λ r, ∃ n, r !! "Total Units" = Some (CNum n)) (matched_rows eol_df inv).
Proof.
  apply Forall_forall. intros r (e & k & n & _ & _ & _ & ->)%elem_of_matched_rows.
  eexists. apply lookup_insert_eq.
Qed.

Lemma matched_rows_none eol_df : matched_rows eol_df [] = [].
Proof.
  destruct (matched_rows eol_df []) as [|r l] eqn:E; [done|].
  assert (Hr : r ∈ matched_rows eol_df []) by (rewrite E; left).
  apply elem_of_matched_rows in Hr as (e & k & n & _ & _ & Hn & _).
  unfold value_counts in Hn. cbn [map foldr] in Hn.
  by rewrite lookup_empty in Hn.
Qed.

Section report.
Variable sort_values : sort_spec → list row → list row.
Hypothesis sort_values_perm : ∀ by_ l, sort_values by_ l ≡ₚ l.

(** The rows of a report are the matched rows, rearranged. *)
Lemma build_eol_report_perm eol_df devices df :
  build_eol_report sort_values eol_df devices = Ok df →
  rows df ≡ₚ matched_rows eol_df (filter assigned devices).
Proof.
  unfold build_eol_report. destruct devices as [|d devices'].
  { intros [= <-]. by rewrite filter_nil, matched_rows_none. }
  destruct (filter assigned (d :: devices')) as [|a inv] eqn:Hinv.
  { intros [= <-]. by rewrite matched_rows_none. }
  case_decide; [|done]. intros [= <-]. cbn [rows].
  by destruct (matched_rows eol_df (a :: inv)).
Qed.

(** They are in descending order of units when the sort puts them so. *)
Lemma build_eol_report_sorted eol_df devices df :
  (∀ l, Forall (λ r, ∃ n, r !! "Total Units" = Some (CNum n)) l →
        Sorted units_desc (sort_values [("Total Units", false)] l)) →
  build_eol_report sort_values eol_df devices = Ok df →
  Sorted units_desc (rows df).
Proof.
  intros Hsorted. unfold build_eol_report.
  destruct devices as [|d devices']; [by intros [= <-]|].
  destruct (filter assigned (d :: devices')) as [|a inv]; [by intros [= <-]|].
  case_decide; [|done]. intros [= <-]. cbn [rows].
  destruct (matched_rows eol_df (a :: inv)) as [|r l] eqn:Hm; [done|].
  apply Hsorted. rewrite <- Hm. apply matched_rows_numeric.
Qed.

Lemma build_eol_report_ok eol_df devices :
  "ProductKey" ∈ columns eol_df →
  ∃ df, build_eol_report sort_values eol_df devices = Ok df.
Proof.
  intros Hcol. unfold build_eol_report.
  destruct devices as [|d devices']; [by eexists|].
  destruct (filter assigned (d :: devices')); [by eexists|].
  rewrite decide_True by done. by eexists.
Qed.

End report.



(** C4 (amended): the rows of a report are the matched catalog rows in
    descending order of total units; the order of rows with equal units is
    the one the library's default sort gives them. *)
Theorem report_sorted_by_units
    (sort_values : sort_spec → list row → list row) eol_df devices df :
  sort_values_contract sort_values →
  build_eol_report sort_values eol_df devices = Ok df →
  Sorted units_desc (rows df) ∧
  rows df ≡ₚ matched_rows eol_df (filter assigned devices).
Proof.
  intros [Hperm Hsorted] Hdf. split.
  - by apply (build_eol_report_sorted sort_values eol_df devices).
  - by apply (build_eol_report_perm sort_values).
Qed.

(** C4, witness: the catalog of four entries with one, one, two and two
    units, sorted by a sort that meets the contract. *)
Lemma report_sorted_witness :
  sort_values_contract (λ _, sort_units_keeping_ties) ∧
  ∃ df, build_eol_report (λ _, sort_units_keeping_ties)
          four_catalog four_inventory = Ok df ∧
        total_units <$> rows df = [2; 2; 1; 1]%Z ∧
        Sorted units_desc (rows df) ∧
        rows df ≡ₚ matched_rows four_catalog (filter assigned four_inventory).
Proof.
  split; [exact keeping_ties_contract|].
  eexists. split; [vm_compute; reflexivity|].
  split; [vm_compute; reflexivity|].
  apply (report_sorted_by_units (λ _, sort_units_keeping_ties)
           four_catalog four_inventory);
    [exact keeping_ties_contract | vm_compute; reflexivity].
Defined.

(** The networks leave two equal keys where they are, and they reverse
    the four keys 2, 2, 1, 1, which [nargsort] hands to them for the units
    1, 1, 2, 2. *)
Example argsort_two_equal :
  argsort_register [1; 1]%Z = [0; 1] ∧
  argsort_register_wide [1; 1]%Z = [0; 1].
Proof. by split. Qed.

Example argsort_four_keys :
  argsort_register [2; 2; 1; 1]%Z = [3; 2; 1; 0] ∧
  argsort_register_wide [2; 2; 1; 1]%Z = [3; 2; 1; 0].
Proof. by split. Qed.

(** The report of the four-entry catalog as the default sort gives it,
    with registers of either width and whatever the library does with
    longer frames: the two entries with two units and the two entries
    with one unit both come in the reverse of their catalog order. *)
Lemma four_rows_report wide argsort_long sort_other :
  ∃ df,
    build_eol_report (sort_values_quicksort wide argsort_long sort_other)
      four_catalog four_inventory = Ok df ∧
    (λ r, (getitem r "Product", getitem r "Total Units")) <$> rows df =
    [ (CStr "Z3-HW", CNum 2); (CStr "MS220-8", CNum 2);
      (CStr "MX68-HW", CNum 1); (CStr "MR18", CNum 1) ].
Proof. destruct wide; eexists; split; vm_compute; reflexivity. Qed.

(** C4, counterexample: in the report of the four-entry catalog the
    entries with equal units are not in catalog order: MS220-8 stands
    before Z3 in the catalog and after it in the report, and so do MR18
    and MX68. *)
Lemma ties_not_in_catalog_order :
  ¬ (∃ wide argsort_long sort_other,
       ∀ df,
         build_eol_report (sort_values_quicksort wide argsort_long sort_other)
           four_catalog four_inventory = Ok df →
         ties_in_catalog_order four_catalog four_inventory (rows df)).
Proof.
  intros (wide & argsort_long & sort_other & Hall).
  destruct wide; specialize (Hall _ eq_refl 2%Z);
    apply (f_equal (fmap (λ r, getitem r "Product"))) in Hall;
    vm_compute in Hall; discriminate.
Qed.

End MatcherFacts.

(** ** Risk Classifier *)

Module ClassifierFacts.
Import Classifier Samples.

(** C2: a plain [datetime] passes the [isinstance(value, date)] test and
    is returned as it is, so the subtraction of [today] raises
    [TypeError] whatever the date is; the claim asks for EXPIRED, AT_RISK
    or NORMAL there. *)
Theorem datetime_value_raises
    (strptime : string → string → option datetime) (today : date)
    (dt : datetime) :
  _parse_end_of_support strptime (VDatetime dt) = Some (DDatetime dt) ∧
  row_highlight strptime today (VDatetime dt) =
    Raise (TypeError "unsupported operand type(s) for -: 'datetime.datetime' and 'datetime.date'").
Proof. by split. Qed.

(** A text gives a plain date or nothing. *)
Lemma parse_text_plain (strptime : string → string → option datetime) text :
  match parse_text strptime text with
  | Some (DDate _) | None => True
  | _ => False
  end.
Proof.
  unfold parse_text. case_decide; [done|].
  generalize ["%b %d, %Y"; "%B %d, %Y"; "%Y-%m-%d"].
  induction l as [|fmt l IH]; cbn; [done|]. by destruct (strptime _ fmt).
Qed.

(** The values that come back as a plain date or as nothing. *)
Lemma parse_plain (strptime : string → string → option datetime) value :
  datetime_like value = false →
  match _parse_end_of_support strptime value with
  | Some (DDate _) | None => True
  | _ => False
  end.
Proof.
  destruct value as [ts| |d|dt|s|text]; cbn; try done; intros _;
    apply parse_text_plain.
Qed.



End ClassifierFacts.

(** ** Report Renderer (table export) *)

Module CsvExportFacts.
Import PyStr PySort Matcher CsvExport Samples PySortFacts.

Lemma mapM_Ok {A B : Type} (f : A → result B) l ys :
  mapM f l = Ok ys → Forall2 (λ x y, f x = Ok y) l ys.
Proof.
  revert ys. induction l as [|x l IH]; intros ys; cbn [mapM].
  - intros [= <-]. constructor.
  - destruct (f x) as [y|] eqn:Hy; cbn [bind]; [|done].
    destruct (mapM f l) as [ys'|]; cbn [bind]; [|done].
    intros [= <-]. constructor; [done|]. by apply IH.
Qed.

(** A dictionary built over a column list has an entry for each of them. *)
Lemma lookup_columns_map (f : string → cell) (cols : list string) col :
  col ∈ cols →
  (list_to_map (map (λ c, (c, f c)) cols) : row) !! col = Some (f col).
Proof.
  induction cols as [|c cols IH]; [by intros ?%elem_of_nil|].
  cbn [map list_to_map foldr]. change (foldr _ ∅ ?l) with (list_to_map l : row).
  destruct (decide (c = col)) as [->|Hne].
  - by rewrite lookup_insert_eq.
  - intros [->|Hin]%elem_of_cons; [done|]. rewrite lookup_insert_ne by done.
    by apply IH.
Qed.

Lemma organization_in_columns all : "Organization" ∈ csv_columns all.
Proof. left. Qed.

Lemma note_in_columns all : "Note" ∈ csv_columns all.
Proof. unfold csv_columns. right. apply elem_of_app. right. left. Qed.

Lemma total_units_in_columns all : "Total Units" ∈ csv_columns all.
Proof.
  unfold csv_columns, base_cols. right. apply elem_of_app. left.
  apply list_elem_of_filter. split; [by split|].
  case_decide; [done|]. apply elem_of_app. right. left.
Qed.

(** The placeholder row: blank cells, zero units and the note. *)
Lemma placeholder_row_cells cols org_name :
  "Organization" ∈ cols →
  placeholder_row cols org_name !! "Organization" = Some (CStr org_name) ∧
  placeholder_row cols org_name !! "Total Units" = Some (CNum 0) ∧
  placeholder_row cols org_name !! "Note" = Some (CStr "No EoL devices found") ∧
  ∀ col, col ∈ cols → col ∉ ["Organization"; "Total Units"; "Note"] →
         placeholder_row cols org_name !! col = Some (CStr EmptyString).
Proof.
  intros Horg. unfold placeholder_row. repeat split.
  - rewrite !lookup_insert_ne by done. by rewrite lookup_insert_eq.
  - rewrite lookup_insert_ne by done. by rewrite lookup_insert_eq.
  - by rewrite lookup_insert_eq.
  - intros col Hcol Hnot.
    rewrite !lookup_insert_ne by (intros <-; apply Hnot; set_solver).
    by apply (lookup_columns_map (λ _, CStr EmptyString)).
Qed.

Lemma all_columns_acc (reports : list org_report) (acc : gset string) col :
  col ∈ acc ∨
  (∃ item df, item ∈ reports ∧ report item = Some df ∧
              df_empty df = false ∧ col ∈ columns df) →
  col ∈ foldl (λ acc item,
           match report item with
           | Some df => if df_empty df then acc else acc ∪ list_to_set (columns df)
           | None => acc
           end) acc reports.
Proof.
  revert acc. induction reports as [|item reports IH]; intros acc.
  - intros [?|(? & ? & []%elem_of_nil & _)]. done.
  - cbn [foldl]. intros [Hacc|(it & df & Hit & Hrep & Hne & Hcol)]; apply IH.
    + left. destruct (report item) as [df|]; [|done].
      destruct (df_empty df); [done|]. set_solver.
    + apply elem_of_cons in Hit as [->|Hit].
      * left. rewrite Hrep, Hne. apply elem_of_union. right.
        by apply elem_of_list_to_set.
      * right. by exists it, df.
Qed.

Lemma report_column_in_csv reports item df col :
  item ∈ reports → report item = Some df → df_empty df = false →
  col ∈ columns df → col ≠ "Organization" → col ≠ "Note" →
  col ∈ csv_columns (all_columns reports).
Proof.
  intros Hit Hrep Hne Hcol Ho Hn. unfold csv_columns, base_cols.
  right. apply elem_of_app. left. apply list_elem_of_filter. split; [done|].
  assert (col ∈ elements (all_columns reports)).
  { apply elem_of_elements. apply all_columns_acc. right. by exists item, df. }
  case_decide; [done|]. apply elem_of_app. by left.
Qed.

Section numeric.
Variable to_numeric : cell → option Z.
Hypothesis to_numeric_number : ∀ n, to_numeric (CNum n) = Some n.

Lemma numeric_units_other (r : row) col :
  col ≠ "Total Units" → numeric_units to_numeric r !! col = r !! col.
Proof. intros Hne. unfold numeric_units. by rewrite lookup_insert_ne. Qed.

Lemma numeric_units_number (r : row) n :
  r !! "Total Units" = Some (CNum n) →
  numeric_units to_numeric r !! "Total Units" = Some (CNum n).
Proof.
  intros Hr. unfold numeric_units, getitem.
  rewrite lookup_insert_eq, Hr. simpl. by rewrite to_numeric_number.
Qed.

End numeric.

Lemma Forall2_elem {A B : Type} (R P : A → B → Prop) l k :
  Forall2 R l k → (∀ x y, x ∈ l → R x y → P x y) → Forall2 P l k.
Proof.
  induction 1 as [|x y l k Hxy Hlk IH]; intros Himp; constructor.
  - apply Himp; [left|done].
  - apply IH. intros x' y' Hin. apply Himp. by right.
Qed.

End CsvExportFacts.

(** ** The key of a label is its leading token *)

Module TokenFacts.
Import PyStr Normalizer Tokens PyStrFacts NormalizerFacts.

Lemma append_cons c a b : String c a +:+ b = String c (a +:+ b).
Proof. reflexivity. Qed.

Lemma append_nil_l b : EmptyString +:+ b = b.
Proof. reflexivity. Qed.

Lemma append_nil_r a : a +:+ EmptyString = a.
Proof. induction a as [|c a IH]; [done|]. by rewrite append_cons, IH. Qed.

Lemma append_assoc a b c : (a +:+ b) +:+ c = a +:+ (b +:+ c).
Proof. induction a as [|x a IH]; [done|]. by rewrite !append_cons, IH. Qed.

Lemma rstrip_cons_clean c s :
  isspace c = false → rstrip (String c s) = String c (rstrip s).
Proof. intros Hc. cbn [rstrip]. rewrite Hc. by destruct (rstrip s). Qed.

Lemma rstrip_app_clean a b :
  all_chars (λ c, negb (isspace c)) a = true →
  rstrip (a +:+ b) = a +:+ rstrip b.
Proof.
  induction a as [|c a IH]; [done|]. cbn [all_chars].
  intros [Hc%negb_true_iff Ha]%andb_true_iff.
  by rewrite !append_cons, rstrip_cons_clean, IH.
Qed.

Lemma lstrip_app_clean a b :
  a ≠ EmptyString → all_chars (λ c, negb (isspace c)) a = true →
  lstrip (a +:+ b) = a +:+ b.
Proof.
  destruct a as [|c a]; [done|]. cbn [all_chars].
  intros _ [Hc%negb_true_iff _]%andb_true_iff.
  rewrite append_cons. cbn [lstrip]. by rewrite Hc.
Qed.

Lemma strip_app_clean a b :
  a ≠ EmptyString → all_chars (λ c, negb (isspace c)) a = true →
  strip (a +:+ b) = a +:+ rstrip b.
Proof.
  intros Hne Ha. unfold strip.
  by rewrite lstrip_app_clean, rstrip_app_clean.
Qed.

Lemma before_first_app_lacks c a b :
  lacks c a = true →
  before_first (String c EmptyString) (a +:+ b) =
  a +:+ before_first (String c EmptyString) b.
Proof.
  unfold lacks. induction a as [|x a IH]; [done|]. cbn [all_chars].
  intros [Hx%negb_true_iff%bool_decide_eq_false Ha]%andb_true_iff.
  rewrite !append_cons. cbn [before_first String.prefix].
  destruct (ascii_dec c x) as [->|_]; [done|]. by rewrite IH.
Qed.

Lemma before_first_here sep r : before_first sep (sep +:+ r) = EmptyString.
Proof.
  destruct sep as [|c sep]; [by destruct r|].
  rewrite append_cons. cbn [before_first].
  assert (H : String.prefix (String c sep) (String c (sep +:+ r)) = true).
  { simpl. destruct (ascii_dec c c); [|done].
    clear. induction sep as [|x sep IH]; [by destruct r|].
    rewrite append_cons. simpl. by destruct (ascii_dec x x). }
  by rewrite H.
Qed.

(** "-HW" placed after a text that has none starts the first occurrence. *)
Lemma before_first_hw t r :
  contains "-HW" t = false → before_first "-HW" (t +:+ "-HW" +:+ r) = t.
Proof.
  induction t as [|c t IH]; [intros _; apply (before_first_here "-HW")|].
  cbn [contains]. intros [Hp Ht]%orb_false_iff.
  rewrite append_cons. cbn [before_first].
  assert (Hq : String.prefix "-HW" (String c (t +:+ "-HW" +:+ r)) = false).
  { destruct t as [|h [|w t]].
    - rewrite append_nil_l.
      change ("-HW" +:+ r) with (String "-" ("HW" +:+ r)). simpl.
      destruct (ascii_dec "-" c); [|done]. by destruct (ascii_dec "H" "-").
    - rewrite append_cons, append_nil_l.
      change ("-HW" +:+ r) with (String "-" ("HW" +:+ r)). simpl.
      destruct (ascii_dec "-" c); [|done].
      destruct (ascii_dec "H" h); [|done]. by destruct (ascii_dec "W" "-").
    - rewrite !append_cons. cbn [String.prefix] in Hp |- *.
      destruct (ascii_dec "-" c); [|done].
      destruct (ascii_dec "H" h); [|done].
      destruct (ascii_dec "W" w); [|done]. by destruct t. }
  by rewrite Hq, IH.
Qed.

Lemma all_chars_app p a b :
  all_chars p (a +:+ b) = all_chars p a && all_chars p b.
Proof.
  induction a as [|c a IH]; [done|].
  rewrite append_cons. cbn [all_chars]. by rewrite IH, andb_assoc.
Qed.

Lemma rstrip_space_head s :
  rstrip (String " " s) = EmptyString ∨ ∃ z, rstrip (String " " s) = String " " z.
Proof. cbn [rstrip]. destruct (rstrip s); [by left|right; by eexists]. Qed.

Lemma before_comma_space_head s :
  before_first "," (String " " s) = String " " (before_first "," s).
Proof. reflexivity. Qed.

Lemma token_parts t :
  is_token t = true →
  all_chars (λ c, negb (isspace c)) t = true ∧
  lacks "," t = true ∧ lacks " " t = true ∧ contains "-HW" t = false.
Proof.
  unfold is_token, lacks. intros [Hall Hhw%negb_true_iff]%andb_true_iff.
  split_and!; [| | |done]; revert Hall; apply all_chars_impl;
    intros c [Hs Hc]%andb_true_iff; [done|done|].
  apply negb_true_iff, bool_decide_eq_false. intros ->. done.
Qed.

(** The last three steps of the normalizer on a token. *)
Lemma normalize_tail_token t :
  is_token t = true →
  upper (before_first "-HW" (before_first " " (strip t))) = upper t.
Proof.
  intros (Hns & _ & Hsp & Hhw)%token_parts.
  assert (Hstrip : strip t = t).
  { apply strip_fixed; [|by apply rstrip_no_space].
    destruct t as [|c t]; [done|]. cbn [all_chars] in Hns.
    by apply andb_true_iff in Hns as [?%negb_true_iff _]. }
  by rewrite Hstrip, lacks_before_first_same, before_first_absent.
Qed.

(** X3: the key of a label is its leading token in upper case, whatever
    follows the first "-HW", the first comma or the first space. *)
Theorem key_is_leading_token (t r : string) :
  is_token t = true →
  normalize_product_to_key (CStr t) = upper t ∧
  normalize_product_to_key (CStr (t +:+ "-HW" +:+ r)) = upper t ∧
  normalize_product_to_key (CStr (t +:+ "," +:+ r)) = upper t ∧
  (t ≠ EmptyString →
   normalize_product_to_key (CStr (t +:+ " " +:+ r)) = upper t).
Proof.
  intros Htok. pose proof (token_parts t Htok) as (Hns & Hco & Hsp & Hhw).
  pose proof (normalize_tail_token t Htok) as Htail.
  rewrite !normalize_str. unfold normalize_retrimmed. split_and!.
  - assert (Hstrip : strip t = t).
    { apply strip_fixed; [|by apply rstrip_no_space].
      destruct t as [|c t]; [done|]. cbn [all_chars] in Hns.
      by apply andb_true_iff in Hns as [?%negb_true_iff _]. }
    by rewrite Hstrip, (lacks_before_first_same "," t).
  - rewrite <- append_assoc.
    assert (Ha : all_chars (λ c, negb (isspace c)) (t +:+ "-HW") = true)
      by (by rewrite all_chars_app, Hns).
    assert (Hne : t +:+ "-HW" ≠ EmptyString) by (by destruct t).
    assert (Hac : lacks "," (t +:+ "-HW") = true)
      by (unfold lacks in *; by rewrite all_chars_app, Hco).
    assert (Has : lacks " " (t +:+ "-HW") = true)
      by (unfold lacks in *; by rewrite all_chars_app, Hsp).
    rewrite strip_app_clean, before_first_app_lacks by done.
    rewrite strip_app_clean, before_first_app_lacks by done.
    by rewrite append_assoc, before_first_hw.
  - rewrite <- append_assoc.
    assert (Ha : all_chars (λ c, negb (isspace c)) (t +:+ ",") = true)
      by (by rewrite all_chars_app, Hns).
    assert (Hne : t +:+ "," ≠ EmptyString) by (by destruct t).
    rewrite strip_app_clean by done.
    rewrite append_assoc, before_first_app_lacks by done.
    rewrite (before_first_here "," (rstrip r)), append_nil_r. exact Htail.
  - intros Hne. rewrite strip_app_clean by done.
    change (" " +:+ r) with (String " " r).
    rewrite before_first_app_lacks by done.
    assert (Hcut : ∀ z, z = EmptyString ∨ (∃ z', z = String " " z') →
              before_first " " (strip (t +:+ z)) = t).
    { intros z Hz. rewrite strip_app_clean by done.
      rewrite before_first_app_lacks by done.
      destruct Hz as [->|[z' ->]].
      - by rewrite append_nil_r.
      - destruct (rstrip_space_head z') as [->|[z'' ->]];
          [by rewrite append_nil_r|].
        change (String " " z'') with (" " +:+ z'').
        by rewrite (before_first_here " " z''), append_nil_r. }
    rewrite Hcut; [by rewrite before_first_absent|].
    destruct (rstrip_space_head r) as [->|[z ->]]; [by left|].
    right. by eexists.
Qed.

(** X3, witness: the label of the MX68 hardware bundle. *)
Lemma key_is_leading_token_witness :
  is_token "mx68" = true ∧
  normalize_product_to_key (CStr ("mx68" +:+ "-HW" +:+ " (bundle), MX68W")) =
    upper "mx68".
Proof.
  split; [reflexivity|].
  apply (proj1 (proj2 (key_is_leading_token "mx68" " (bundle), MX68W" eq_refl))).
Defined.

End TokenFacts.

(** ** Expansion of multi-SKU rows *)

Module ExpansionFacts.
Import PyStr PyRepr Normalizer Builder Labels Samples.
Import PyStrFacts NormalizerFacts BuilderFacts TokenFacts.

Lemma expand_row_labels (r : row) :
  expand_row r =
  match sku_labels r with
  | [] => [r]
  | parts => map (λ part, <["Product" := CStr part]> r) parts
  end.
Proof.
  unfold expand_row, sku_labels. cbv zeta.
  by destruct (filter _ (map strip _)).
Qed.

(** [s.split(",")] one character further. *)
Lemma split_char_cons c x s :
  split (String c EmptyString) (String x s) =
  if decide (c = x) then EmptyString :: split (String c EmptyString) s
  else match split (String c EmptyString) s with
       | p :: ps => String x p :: ps
       | [] => [String x EmptyString]
       end.
Proof.
  unfold split. cbn [split_go String.prefix String.length Nat.sub].
  destruct (ascii_dec c x) as [->|Hne].
  - rewrite decide_True by done. by destruct s.
  - by rewrite decide_False.
Qed.

Lemma split_pieces_lack c s :
  Forall (λ p, lacks c p = true) (split (String c EmptyString) s).
Proof.
  induction s as [|x s IH]; [by repeat constructor|].
  rewrite split_char_cons. case_decide as Hc; [by constructor|].
  destruct (split (String c EmptyString) s) as [|p ps].
  - repeat constructor. unfold lacks. cbn [all_chars].
    by rewrite bool_decide_eq_false_2 by congruence.
  - inversion IH as [|? ? Hp Hps]; subst. constructor; [|done].
    unfold lacks in *. cbn [all_chars].
    by rewrite bool_decide_eq_false_2 by congruence.
Qed.

Lemma strip_idemp s : strip (strip s) = strip s.
Proof.
  apply strip_fixed; [apply strip_clean|]. unfold strip. apply rstrip_idemp.
Qed.

(** A label is one SKU: not blank, trimmed, without comma. *)
Lemma sku_label_shape (r : row) p :
  p ∈ sku_labels r → p ≠ EmptyString ∧ strip p = p ∧ lacks "," p = true.
Proof.
  unfold sku_labels. intros [Hne Hin]%list_elem_of_filter.
  change (map strip ?l) with (strip <$> l) in Hin.
  apply list_elem_of_fmap in Hin as [q [-> Hq]]. split_and!; [done| |].
  - apply strip_idemp.
  - apply all_chars_strip.
    pose proof (split_pieces_lack "," (py_str (getitem r "Product"))) as Hall.
    rewrite Forall_forall in Hall. by apply Hall.
Qed.

Lemma strip_cons_blank x p :
  strip (String x p) = EmptyString → isspace x = true ∧ strip p = EmptyString.
Proof.
  unfold strip. cbn [lstrip]. destruct (isspace x) eqn:Hx; [done|].
  by rewrite rstrip_cons_clean.
Qed.

Lemma strip_all_space s :
  all_chars isspace s = true → strip s = EmptyString.
Proof.
  unfold strip. induction s as [|c s IH]; [done|]. cbn [all_chars lstrip].
  intros [-> Hs]%andb_true_iff. by apply IH.
Qed.

(** When every comma-separated piece is blank, the text is made of
    whitespace and commas. *)
Lemma blank_pieces_chars s :
  Forall (λ p, strip p = EmptyString) (split "," s) →
  all_chars (λ c, isspace c || bool_decide (c = ","%char)) s = true.
Proof.
  induction s as [|x s IH]; [done|]. rewrite split_char_cons.
  cbn [all_chars]. case_decide as Hc.
  - subst x. intros [_ Hs]%Forall_cons. by rewrite IH.
  - destruct (split "," s) as [|p ps] eqn:Hsplit;
      [by apply split_nonempty in Hsplit|].
    intros [[Hx Hp]%strip_cons_blank Hps]%Forall_cons.
    rewrite Hx. apply IH. by constructor.
Qed.

(** A row that the expansion keeps as it is has the empty key. *)
Lemma blank_labels_key (r : row) :
  sku_labels r = [] →
  normalize_product_to_key (getitem r "Product") = EmptyString.
Proof.
  unfold sku_labels. destruct (getitem r "Product") as [s| | |]; try done.
  cbn [PyRepr.py_str]. intros Hnil. rewrite normalize_str.
  unfold normalize_retrimmed.
  assert (Hall : Forall (λ p, strip p = EmptyString) (split "," s)).
  { apply Forall_forall. intros p Hp.
    destruct (decide (strip p = EmptyString)) as [|Hne]; [done|].
    assert (Hin : strip p ∈ filter (λ p, p ≠ EmptyString) (map strip (split "," s))).
    { apply list_elem_of_filter. split; [done|].
      change (map strip ?l) with (strip <$> l). by apply list_elem_of_fmap_2. }
    rewrite Hnil in Hin. by apply elem_of_nil in Hin. }
  apply blank_pieces_chars in Hall.
  assert (Hblank : strip (before_first "," (strip s)) = EmptyString).
  { apply strip_all_space.
    pose proof (before_first_lacks "," (strip s)) as Hlack.
    apply (all_chars_strip _ s), (all_chars_before_first _ ",") in Hall.
    revert Hall Hlack. unfold lacks.
    generalize (before_first "," (strip s)).
    induction s0 as [|c z IH]; [done|]. cbn [all_chars].
    intros [Hc Hz]%andb_true_iff
           [Hn%negb_true_iff%bool_decide_eq_false Hl]%andb_true_iff.
    rewrite IH, andb_true_r by done.
    apply orb_true_iff in Hc as [?|?%bool_decide_eq_true]; done. }
  by rewrite Hblank.
Qed.

(** X4: the expansion of a row is never empty; its rows differ from the
    row in the Product cell only; there is one of them for each label (one
    for a row without labels), and then its Product is that label: not
    blank, trimmed and without comma. *)
Theorem expand_row_keeps_fields (r : row) :
  expand_row r ≠ [] ∧
  length (expand_row r) = Nat.max 1 (length (sku_labels r)) ∧
  (∀ e col, e ∈ expand_row r → col ≠ "Product" → e !! col = r !! col) ∧
  (sku_labels r ≠ [] →
   ∀ e, e ∈ expand_row r →
        ∃ p, e !! "Product" = Some (CStr p) ∧ p ∈ sku_labels r ∧
             p ≠ EmptyString ∧ strip p = p ∧ lacks "," p = true).
Proof.
  rewrite expand_row_labels.
  pose proof (sku_label_shape r) as Hshape.
  destruct (sku_labels r) as [|p ps].
  - split_and!; [done..| |done]. by intros e col ->%list_elem_of_singleton _.
  - split_and!; [done|by cbn [map length]; rewrite length_map| |].
    + intros e col He Hcol. change (map ?f ?l) with (f <$> l) in He.
      apply list_elem_of_fmap in He as [q [-> _]]. by rewrite lookup_insert_ne.
    + intros _ e He. change (map ?f ?l) with (f <$> l) in He.
      apply list_elem_of_fmap in He as [q [-> Hq]]. exists q.
      rewrite lookup_insert_eq. split; [done|]. split; [done|]. by apply Hshape.
Qed.

(** X4, witness: the two labels of the sample row. *)
Lemma expand_row_keeps_fields_witness :
  sku_labels ms120_row ≠ [] ∧
  ∀ e, e ∈ expand_row ms120_row →
       ∃ p, e !! "Product" = Some (CStr p) ∧ p ∈ sku_labels ms120_row ∧
            p ≠ EmptyString ∧ strip p = p ∧ lacks "," p = true.
Proof.
  assert (Hne : sku_labels ms120_row ≠ []) by (vm_compute; discriminate).
  split; [exact Hne|].
  exact (proj2 (proj2 (proj2 (expand_row_keeps_fields ms120_row))) Hne).
Defined.

End ExpansionFacts.

(** ** The catalog that [fetch_eol_table] returns *)

Module CatalogFacts.
Import PyStr PyRepr Normalizer Builder Labels Samples.
Import PyStrFacts NormalizerFacts BuilderFacts TokenFacts ExpansionFacts.

Lemma elem_of_add_column c x cols :
  c ∈ add_column x cols ↔ c = x ∨ c ∈ cols.
Proof.
  unfold add_column. case_decide as Hx.
  - split; [by right|]. by intros [->|?].
  - rewrite elem_of_app, list_elem_of_singleton. tauto.
Qed.

Lemma sku_labels_attached (r0 : row) links :
  sku_labels (<["Upgrade Path" := CLinks links]> r0) = sku_labels r0.
Proof. unfold sku_labels, getitem. by rewrite lookup_insert_ne. Qed.

Lemma elem_of_attached links eol_df r1 :
  r1 ∈ rows (attach_links links eol_df) ↔
  ∃ i r0, rows eol_df !! i = Some r0 ∧
          r1 = <["Upgrade Path" := CLinks (default [] (links !! i))]> r0.
Proof.
  rewrite list_elem_of_lookup. split.
  - intros [i Hi]. rewrite attach_links_rows in Hi.
    destruct (rows eol_df !! i) as [r0|] eqn:Hr0; [|done].
    injection Hi as <-. by exists i, r0.
  - intros (i & r0 & Hr0 & ->). exists i. by rewrite attach_links_rows, Hr0.
Qed.

Lemma expanded_rows_nil eol_df : expanded_rows eol_df = [] ↔ rows eol_df = [].
Proof.
  unfold expanded_rows. destruct (rows eol_df) as [|r l]; [done|].
  cbn [flat_map]. split; [|done]. intros [H _]%app_eq_nil.
  by destruct (proj1 (expand_row_keeps_fields r)).
Qed.

Lemma attached_rows_nil links eol_df :
  rows (attach_links links eol_df) = [] ↔ rows eol_df = [].
Proof.
  rewrite <- !length_zero_iff_nil. unfold attach_links. cbn [rows].
  rewrite length_zip_with, length_padded_links. lia.
Qed.

Lemma elem_of_catalog_rows_raw eol_df row :
  row ∈ catalog_rows eol_df ↔
  ∃ r1 e, r1 ∈ rows eol_df ∧ e ∈ expand_row r1 ∧
          has_product_key (with_product_key e) ∧
          row = join_upgrade_path (with_product_key e).
Proof.
  unfold catalog_rows, expanded_rows.
  change (map join_upgrade_path ?l) with (join_upgrade_path <$> l).
  change (map with_product_key ?l) with (with_product_key <$> l).
  rewrite list_elem_of_fmap. split.
  - intros (k & -> & [Hkey Hk]%list_elem_of_filter).
    apply list_elem_of_fmap in Hk as (e & -> & He).
    apply list_elem_of_In, in_flat_map in He as (r1 & Hr1 & He).
    exists r1, e. by rewrite !list_elem_of_In.
  - intros (r1 & e & Hr1 & He & Hkey & ->). eexists. split; [done|].
    apply list_elem_of_filter. split; [done|]. apply list_elem_of_fmap_2.
    apply list_elem_of_In, in_flat_map. exists r1. by rewrite <- !list_elem_of_In.
Qed.

(** The rows of the catalog are the rows made for the labels whose key is
    not empty. *)
Lemma elem_of_catalog_rows links eol_df row :
  row ∈ catalog_rows (attach_links links eol_df) ↔
  ∃ i r0 p, rows eol_df !! i = Some r0 ∧ p ∈ sku_labels r0 ∧
            normalize_product_to_key (CStr p) ≠ EmptyString ∧
            row = catalog_row r0 (default [] (links !! i)) p.
Proof.
  rewrite elem_of_catalog_rows_raw. unfold catalog_row. split.
  - intros (r1 & e & (i & r0 & Hr0 & ->)%elem_of_attached & He & Hkey & ->).
    unfold has_product_key in Hkey. rewrite product_key_of_keyed in Hkey.
    rewrite expand_row_labels, sku_labels_attached in He.
    destruct (sku_labels r0) as [|q qs] eqn:Hlab.
    + apply list_elem_of_singleton in He as ->. destruct Hkey. f_equal.
      apply blank_labels_key. by rewrite sku_labels_attached.
    + change (map ?f ?l) with (f <$> l) in He.
      apply list_elem_of_fmap in He as [p [-> Hp]].
      exists i, r0, p. split_and!; [done|by rewrite Hlab| |done].
      intros Hk. apply Hkey. unfold getitem. rewrite lookup_insert_eq.
      change (CStr (normalize_product_to_key (CStr p)) = CStr EmptyString).
      by rewrite Hk.
  - intros (i & r0 & p & Hr0 & Hp & Hkey & ->).
    eexists _, _. split; [apply elem_of_attached; by exists i, r0|].
    split_and!; [|  |done].
    + rewrite expand_row_labels, sku_labels_attached.
      destruct (sku_labels r0) as [|q qs] eqn:Hlab; [by apply elem_of_nil in Hp|].
      change (map ?f ?l) with (f <$> l).
      by apply (list_elem_of_fmap_2 (λ part, <["Product" := CStr part]> _)).
    + unfold has_product_key. rewrite product_key_of_keyed.
      unfold getitem. rewrite lookup_insert_eq.
      change (CStr (normalize_product_to_key (CStr p)) ≠ CStr EmptyString).
      congruence.
Qed.

(** The cells of a catalog row. *)
Lemma catalog_row_cells (r0 : row) links p :
  catalog_row r0 links p !! "Product" = Some (CStr p) ∧
  catalog_row r0 links p !! "ProductKey" =
    Some (CStr (normalize_product_to_key (CStr p))) ∧
  catalog_row r0 links p !! "Upgrade Path" = Some (CStr (join "; " links)) ∧
  ∀ col, col ∉ ["Product"; "ProductKey"; "Upgrade Path"] →
         catalog_row r0 links p !! col = r0 !! col.
Proof.
  unfold catalog_row, join_upgrade_path, with_product_key, getitem.
  split_and!.
  - rewrite !lookup_insert_ne by done. by rewrite lookup_insert_eq.
  - rewrite lookup_insert_ne by done. rewrite !lookup_insert_eq. done.
  - rewrite lookup_insert_eq, lookup_insert_ne by done.
    rewrite lookup_insert_ne by done. by rewrite lookup_insert_eq.
  - intros col Hcol.
    rewrite !lookup_insert_ne by (intros <-; apply Hcol; set_solver). done.
Qed.

(** [fetch_eol_table] once the table and its Product column are found. *)
Lemma fetch_eol_table_found eol_df rest t :
  "Product" ∈ columns eol_df →
  fetch_eol_table (eol_df :: rest) (Some t) =
  if decide (rows eol_df = []) then Raise (KeyError "Product")
  else match catalog_rows (attach_links (scrape_links t) eol_df) with
       | [] => Raise (RuntimeError "All EoL rows collapsed after normalization; parser likely broken.")
       | rs => Ok (mkDataFrame
                     (add_column "ProductKey"
                        (add_column "Upgrade Path" (columns eol_df))) rs)
       end.
Proof.
  intros Hcol. unfold fetch_eol_table. rewrite decide_True by done. cbv zeta.
  unfold catalog_rows.
  destruct (expanded_rows (attach_links (scrape_links t) eol_df))
    as [|e0 es] eqn:Hexp.
  { apply expanded_rows_nil, attached_rows_nil in Hexp.
    by rewrite (decide_True (P := rows eol_df = [])). }
  rewrite (decide_False (P := rows eol_df = [])).
  2:{ intros Hnil.
      apply (proj2 (attached_rows_nil (scrape_links t) eol_df)) in Hnil.
      apply (proj2 (expanded_rows_nil _)) in Hnil. by rewrite Hexp in Hnil. }
  rewrite (decide_True (P := "Upgrade Path" ∈ _)).
  2:{ apply elem_of_add_column. right. apply elem_of_add_column. by left. }
  by destruct (map join_upgrade_path _).
Qed.

(** X5: how [fetch_eol_table] ends.  No frame, no Product column and no
    table element are a [RuntimeError], tested in this order; a table
    without rows is a [KeyError]; rows whose labels all have the empty key
    are a [RuntimeError]; and a catalog is returned exactly when some row
    has a label with a non-empty key. *)
Theorem fetch_eol_table_outcome eol_df rest table t :
  fetch_eol_table [] table =
    Raise (RuntimeError "No tables found on EoL page; layout may have changed.") ∧
  ("Product" ∉ columns eol_df →
   fetch_eol_table (eol_df :: rest) table =
     Raise (RuntimeError "EoL table has no 'Product' column; parser needs updating.")) ∧
  ("Product" ∈ columns eol_df →
   fetch_eol_table (eol_df :: rest) None =
     Raise (RuntimeError "Could not find table element on EoL page; layout may have changed.")) ∧
  ("Product" ∈ columns eol_df → rows eol_df = [] →
   fetch_eol_table (eol_df :: rest) (Some t) = Raise (KeyError "Product")) ∧
  ("Product" ∈ columns eol_df → rows eol_df ≠ [] →
   (∀ r p, r ∈ rows eol_df → p ∈ sku_labels r →
           normalize_product_to_key (CStr p) = EmptyString) →
   fetch_eol_table (eol_df :: rest) (Some t) =
     Raise (RuntimeError "All EoL rows collapsed after normalization; parser likely broken.")) ∧
  ("Product" ∈ columns eol_df →
   (∃ catalog, fetch_eol_table (eol_df :: rest) (Some t) = Ok catalog) ↔
   ∃ r p, r ∈ rows eol_df ∧ p ∈ sku_labels r ∧
          normalize_product_to_key (CStr p) ≠ EmptyString).
Proof.
  split_and!; [done| | | | |].
  - intros Hcol. unfold fetch_eol_table. by rewrite decide_False.
  - intros Hcol. unfold fetch_eol_table. by rewrite decide_True.
  - intros Hcol Hrows. rewrite fetch_eol_table_found by done.
    by rewrite decide_True.
  - intros Hcol Hrows Hall. rewrite fetch_eol_table_found by done.
    rewrite decide_False by done.
    destruct (catalog_rows _) as [|row rs] eqn:Hcat; [done|].
    assert (Hrow : row ∈ catalog_rows (attach_links (scrape_links t) eol_df))
      by (rewrite Hcat; left).
    apply elem_of_catalog_rows in Hrow as (i & r0 & p & Hr0 & Hp & Hkey & _).
    destruct Hkey. apply (Hall r0); [|done]. by apply list_elem_of_lookup_2 in Hr0.
  - intros Hcol. rewrite fetch_eol_table_found by done. split.
    + intros [catalog Hok]. case_decide as Hrows; [done|].
      destruct (catalog_rows _) as [|row rs] eqn:Hcat; [done|].
      assert (Hrow : row ∈ catalog_rows (attach_links (scrape_links t) eol_df))
        by (rewrite Hcat; left).
      apply elem_of_catalog_rows in Hrow as (i & r0 & p & Hr0 & Hp & Hkey & _).
      exists r0, p. split_and!; [|done..]. by apply list_elem_of_lookup_2 in Hr0.
    + intros (r & p & Hr & Hp & Hkey).
      apply list_elem_of_lookup in Hr as [i Hi].
      rewrite decide_False by (intros Hnil; by rewrite Hnil in Hi).
      assert (Hrow : catalog_row r (default [] (scrape_links t !! i)) p
                       ∈ catalog_rows (attach_links (scrape_links t) eol_df)).
      { apply elem_of_catalog_rows. by exists i, r, p. }
      destruct (catalog_rows _) as [|row rs]; [by apply elem_of_nil in Hrow|].
      by eexists.
Qed.

(** X5, witness: the sample page gives a catalog; its first row has the
    label "MX68-HW", whose key is not empty. *)
Lemma fetch_eol_table_outcome_witness :
  "Product" ∈ columns two_row_frame ∧
  ∃ catalog,
    fetch_eol_table [two_row_frame] (Some two_row_markup) = Ok catalog.
Proof.
  assert (Hcol : "Product" ∈ columns two_row_frame) by left.
  split; [exact Hcol|].
  apply (proj2 (proj2 (proj2 (proj2 (proj2 (proj2
           (fetch_eol_table_outcome two_row_frame [] None two_row_markup))))) Hcol)).
  eexists _, "MX68-HW". split_and!.
  - left.
  - vm_compute. left.
  - vm_compute. discriminate.
Defined.

(** X6: every row of a returned catalog is a vendor row with one of its
    labels: its Product is that label (one SKU, trimmed, without comma),
    its ProductKey is the key of the label, its Upgrade Path is the text of
    the links attached to the vendor row, joined by "; ", and every other
    cell is the vendor row's.  The columns are the vendor's with
    "Upgrade Path" and "ProductKey". *)
Theorem catalog_rows_single_sku dfs table catalog :
  fetch_eol_table dfs table = Ok catalog →
  ∃ eol_df rest t,
    dfs = eol_df :: rest ∧ table = Some t ∧
    columns catalog =
      add_column "ProductKey" (add_column "Upgrade Path" (columns eol_df)) ∧
    Forall (λ row,
        ∃ i r0 p,
          rows eol_df !! i = Some r0 ∧ p ∈ sku_labels r0 ∧
          p ≠ EmptyString ∧ strip p = p ∧ lacks "," p = true ∧
          row !! "Product" = Some (CStr p) ∧
          row !! "ProductKey" =
            Some (CStr (normalize_product_to_key (CStr p))) ∧
          row !! "Upgrade Path" =
            Some (CStr (join "; " (default [] (scrape_links t !! i)))) ∧
          ∀ col, col ∉ ["Product"; "ProductKey"; "Upgrade Path"] →
                 row !! col = r0 !! col)
      (rows catalog).
Proof.
  destruct dfs as [|eol_df rest]; [done|].
  destruct (decide ("Product" ∈ columns eol_df)) as [Hcol|Hcol].
  2:{ unfold fetch_eol_table. by rewrite decide_False. }
  destruct table as [t|]; [|unfold fetch_eol_table; by rewrite decide_True].
  rewrite fetch_eol_table_found by done. case_decide; [done|].
  destruct (catalog_rows _) as [|row0 rs] eqn:Hcat; [done|].
  intros [= <-]. exists eol_df, rest, t. split_and!; [done..|].
  cbn [rows]. rewrite <- Hcat. apply Forall_forall. intros row Hrow.
  apply elem_of_catalog_rows in Hrow as (i & r0 & p & Hr0 & Hp & Hkey & ->).
  destruct (sku_label_shape r0 p Hp) as (Hne & Hstrip & Hlack).
  destruct (catalog_row_cells r0 (default [] (scrape_links t !! i)) p)
    as (H1 & H2 & H3 & H4).
  by exists i, r0, p.
Qed.

(** X6, witness: the catalog of the sample page. *)
Lemma catalog_rows_single_sku_witness :
  ∃ catalog,
    fetch_eol_table [two_row_frame] (Some two_row_markup) = Ok catalog ∧
    columns catalog =
      ["Product"; "End-of-Support Date"; "Upgrade Path"; "ProductKey"] ∧
    (λ r, getitem r "Product") <$> rows catalog =
      [CStr "MX68-HW"; CStr "MS120-8"; CStr "MS120-8FP"].
Proof.
  destruct (fetch_eol_table [two_row_frame] (Some two_row_markup))
    as [catalog|] eqn:Hf; [|by vm_compute in Hf].
  exists catalog. split; [done|].
  destruct (catalog_rows_single_sku _ _ _ Hf)
    as (eol_df & rest & t & Hdfs & Ht & Hcols & _).
  injection Hdfs as <- <-. split; [rewrite Hcols; reflexivity|].
  vm_compute in Hf. injection Hf as <-. vm_compute. reflexivity.
Defined.

End CatalogFacts.

(** ** Report Renderer (document) *)

Module PdfLayoutFacts.
Import PyStr PyRepr Normalizer Builder Labels Classifier PdfLayout Samples.
Import PyStrFacts NormalizerFacts BuilderFacts TokenFacts ExpansionFacts.
Import CatalogFacts ClassifierFacts.

Lemma split_lacks c a :
  lacks c a = true → split (String c EmptyString) a = [a].
Proof.
  unfold lacks. induction a as [|x a IH]; [done|]. cbn [all_chars].
  intros [Hx%negb_true_iff%bool_decide_eq_false Ha]%andb_true_iff.
  rewrite split_char_cons, decide_False by congruence. by rewrite IH.
Qed.

Lemma split_app_sep c a R :
  lacks c a = true →
  split (String c EmptyString) (a +:+ String c R) =
  a :: split (String c EmptyString) R.
Proof.
  unfold lacks. induction a as [|x a IH].
  - intros _. rewrite append_nil_l, split_char_cons. by rewrite decide_True.
  - cbn [all_chars].
    intros [Hx%negb_true_iff%bool_decide_eq_false Ha]%andb_true_iff.
    rewrite append_cons, split_char_cons, decide_False by congruence.
    by rewrite IH.
Qed.

Lemma lstrip_app_space w x :
  all_chars isspace w = true → lstrip (w +:+ x) = lstrip x.
Proof.
  induction w as [|c w IH]; [done|]. cbn [all_chars].
  intros [Hc Hw]%andb_true_iff. rewrite append_cons. cbn [lstrip].
  rewrite Hc. by apply IH.
Qed.

Lemma clean_url_parts u :
  clean_url u = true → u ≠ EmptyString ∧ lacks ";" u = true ∧ strip u = u.
Proof.
  unfold clean_url.
  intros [[Hne%negb_true_iff%bool_decide_eq_false Hl]%andb_true_iff
          Hs%bool_decide_eq_true]%andb_true_iff. done.
Qed.

(** Splitting the joined text at ";" and trimming gives the URLs back. *)
Lemma split_join_urls w u urls :
  all_chars isspace w = true →
  Forall (λ u, clean_url u = true) (u :: urls) →
  map strip (split ";" (w +:+ join "; " (u :: urls))) = u :: urls.
Proof.
  revert w u. induction urls as [|v urls IH]; intros w u Hw Hall.
  - apply Forall_cons in Hall as [(Hne & Hl & Hs)%clean_url_parts _].
    cbn [join]. rewrite split_lacks.
    + cbn [map]. f_equal. unfold strip. rewrite lstrip_app_space by done.
      exact Hs.
    + unfold lacks in *. rewrite all_chars_app, Hl, andb_true_r.
      revert Hw. apply all_chars_impl. intros c Hc.
      apply negb_true_iff, bool_decide_eq_false. by intros ->.
  - apply Forall_cons in Hall as [(Hne & Hl & Hs)%clean_url_parts Hrest].
    change (join "; " (u :: v :: urls))
      with (u +:+ String ";" (" " +:+ join "; " (v :: urls))).
    rewrite <- append_assoc, split_app_sep.
    + cbn [map]. f_equal; [|by apply IH].
      unfold strip. rewrite lstrip_app_space by done. exact Hs.
    + unfold lacks in *. rewrite all_chars_app, Hl, andb_true_r.
      revert Hw. apply all_chars_impl. intros c Hc.
      apply negb_true_iff, bool_decide_eq_false. by intros ->.
Qed.

(** X7: the document reads back the links that the builder joined: for a
    row whose "Upgrade Path" is the "; "-joined text of clean URLs, the
    list [urls] is the list of those URLs, and the cell links to the
    first of them (an empty cell when there is none). *)
Theorem upgrade_urls_round_trip (r : row) (links : list string) :
  Forall (λ u, clean_url u = true) links →
  r !! "Upgrade Path" = Some (CStr (join "; " links)) →
  upgrade_urls r = links ∧
  match upgrade_path_cell r with
  | PdfCell _ link => link = head links
  end.
Proof.
  intros Hall Hr.
  assert (Hurls : upgrade_urls r = links).
  { unfold upgrade_urls, getitem. rewrite Hr. cbn [default from_option id py_str].
    destruct links as [|u urls]; [done|].
    change (join "; " (u :: urls)) with (EmptyString +:+ join "; " (u :: urls)).
    rewrite split_join_urls by done.
    clear Hr. induction Hall as [|x l Hx Hl IH]; [done|].
    rewrite filter_cons, decide_True, IH; [done|].
    by apply clean_url_parts in Hx as [? _]. }
  split; [done|]. unfold upgrade_path_cell. rewrite Hurls. by destruct links.
Qed.

(** X7, witness: two announcement URLs. *)
Lemma upgrade_urls_round_trip_witness :
  Forall (λ u, clean_url u = true)
    ["https://example.test/eos-mx68"; "https://example.test/eos-ms120"] ∧
  upgrade_urls
    ({[ "Upgrade Path" :=
          CStr "https://example.test/eos-mx68; https://example.test/eos-ms120" ]}
       : row) =
  ["https://example.test/eos-mx68"; "https://example.test/eos-ms120"].
Proof.
  assert (Hall : Forall (λ u, clean_url u = true)
            ["https://example.test/eos-mx68"; "https://example.test/eos-ms120"])
    by (repeat constructor).
  split; [exact Hall|].
  apply (upgrade_urls_round_trip _ _ Hall). reflexivity.
Defined.

End PdfLayoutFacts.

(** ** Report Renderer (document): stripes and column weights *)

Module StripeFacts.
Import PyStr PyRepr Classifier PdfLayout Samples.
Import ClassifierFacts.

Section stripes.
Variable strptime : string → string → option datetime.

Lemma row_highlight_ok today value :
  datetime_like value = false →
  ∃ h, row_highlight strptime today value = Ok h.
Proof.
  intros Hlike. pose proof (parse_plain strptime value Hlike) as Hplain.
  unfold row_highlight.
  destruct (_parse_end_of_support strptime value) as [[d|dt|]|]; cbn;
    try done; by eexists.
Qed.

Lemma row_highlight_raises today value :
  datetime_like value = true →
  ∃ msg, row_highlight strptime today value = Raise (TypeError msg).
Proof. destruct value; try done; intros _; by eexists. Qed.

Lemma body_fills_index today b values fills :
  body_fills strptime today b values = Ok fills →
  length fills = length values ∧
  ∀ i v, values !! i = Some v →
    ∃ h, row_highlight strptime today v = Ok h ∧
         fills !! i = Some (fill_color h (xorb b (Nat.odd i))).
Proof.
  revert b fills. induction values as [|v0 values IH]; intros b fills.
  { intros [= <-]. split; [done|]. intros i v Hi. by rewrite lookup_nil in Hi. }
  cbn [body_fills].
  destruct (row_highlight strptime today v0) as [h0|e] eqn:Hh0; [|done].
  cbn [bind].
  destruct (body_fills strptime today (negb b) values) as [fills'|e] eqn:Hrest;
    [|done].
  cbn [bind]. intros [= <-]. destruct (IH _ _ Hrest) as [Hlen Hix].
  split; [cbn [length]; by rewrite Hlen|].
  intros [|i] v Hi.
  - injection Hi as <-. exists h0. split; [done|]. cbn. by rewrite xorb_false_r.
  - cbn in Hi. destruct (Hix i v Hi) as (h & Hh & Hf). exists h. split; [done|].
    rewrite lookup_cons. rewrite Hf. do 2 f_equal.
    rewrite Nat.odd_succ, <- Nat.negb_odd. by destruct b, (Nat.odd i).
Qed.

Lemma body_fills_ok today b values :
  Forall (λ v, datetime_like v = false) values →
  ∃ fills, body_fills strptime today b values = Ok fills.
Proof.
  intros Hall. revert b. induction Hall as [|v values Hv _ IH]; intros b.
  { by eexists. }
  cbn [body_fills]. destruct (row_highlight_ok today v Hv) as [h ->].
  destruct (IH (negb b)) as [fills ->]. by eexists.
Qed.

Lemma body_fills_raises today b values :
  Exists (λ v, datetime_like v = true) values →
  ∃ msg, body_fills strptime today b values = Raise (TypeError msg).
Proof.
  intros Hex. revert b. induction Hex as [v values Hv|v values _ IH]; intros b.
  - cbn [body_fills].
    destruct (row_highlight_raises today v Hv) as [msg ->]. by eexists.
  - cbn [body_fills]. destruct (datetime_like v) eqn:Hv.
    + destruct (row_highlight_raises today v Hv) as [msg ->]. by eexists.
    + destruct (row_highlight_ok today v Hv) as [h ->]. cbn [bind].
      destruct (IH (negb b)) as [msg ->]. by eexists.
Qed.

(** X8: the stripes of a table.  When no "End-of-Support Date" value of
    the table is a plain datetime object or [NaT], every body row gets a
    fill: red or yellow by its date, otherwise white on the rows at even
    positions and grey on the rows at odd positions, counted from the
    first row of the table.  A highlighted row takes its place in the
    count: the stripe of a row depends on its position only, not on the
    rows before it.  When some value is a plain datetime object or [NaT],
    the table is not finished: the subtraction raises [TypeError]. *)
Theorem body_fills_stripes today (values : list pyvalue) :
  (Forall (λ v, datetime_like v = false) values →
   ∃ fills,
     body_fills strptime today false values = Ok fills ∧
     length fills = length values ∧
     ∀ i v, values !! i = Some v →
       ∃ h, row_highlight strptime today v = Ok h ∧
            fills !! i =
            Some match h with
                 | HRed => (255, 204, 204)%Z
                 | HYellow => (255, 255, 204)%Z
                 | HNone => if Nat.odd i then (222, 220, 220)%Z
                            else (255, 255, 255)%Z
                 end) ∧
  (Exists (λ v, datetime_like v = true) values →
   ∃ msg, body_fills strptime today false values = Raise (TypeError msg)).
Proof.
  split; [|apply body_fills_raises].
  intros Hall. destruct (body_fills_ok today false values Hall) as [fills Hf].
  exists fills. split; [done|].
  destruct (body_fills_index _ _ _ _ Hf) as [Hlen Hix]. split; [done|].
  intros i v Hi. destruct (Hix i v Hi) as (h & Hh & Hfi).
  exists h. split; [done|]. destruct h; exact Hfi.
Qed.

End stripes.

(** X8, witness: an expired row between two rows without a date; the
    third row is white as the first. *)
Lemma body_fills_stripes_witness :
  Forall (λ v, datetime_like v = false)
    [VStr "soon"; VDate (mkDate 2024 6 1); VStr "later"] ∧
  body_fills no_format new_year_2025 false
    [VStr "soon"; VDate (mkDate 2024 6 1); VStr "later"] =
  Ok [(255, 255, 255)%Z; (255, 204, 204)%Z; (255, 255, 255)%Z].
Proof.
  assert (Hall : Forall (λ v, datetime_like v = false)
            [VStr "soon"; VDate (mkDate 2024 6 1); VStr "later"])
    by (repeat constructor).
  split; [exact Hall|].
  destruct (proj1 (body_fills_stripes no_format new_year_2025 _) Hall)
    as (fills & Hf & _).
  rewrite Hf. vm_compute in Hf. by injection Hf as <-.
Defined.

End StripeFacts.

(** ** Inventory Matcher: the reports of all organizations *)

Module ReportsFacts.
Import PyStr PySort Matcher Samples PySortFacts MatcherFacts.

Lemma build_eol_report_eq sort_values eol_df devices :
  build_eol_report sort_values eol_df devices =
  match filter assigned devices with
  | [] => Ok empty_frame
  | inv_assigned =>
      if decide ("ProductKey" ∈ columns eol_df) then
        Ok (mkDataFrame (add_column "Total Units" (columns eol_df))
              match matched_rows eol_df inv_assigned with
              | [] => []
              | final_eol => sort_values [("Total Units", false)] final_eol
              end)
      else Raise (KeyError "ProductKey")
  end.
Proof.
  unfold build_eol_report. destruct devices as [|d devices]; [done|].
  destruct (filter assigned (d :: devices)); [done|].
  case_decide; [|done]. by destruct (matched_rows _ _).
Qed.

Lemma value_counts_perm keys keys' :
  keys ≡ₚ keys' → value_counts keys = value_counts keys'.
Proof.
  intros Hp. apply map_eq. intros k. rewrite !value_counts_lookup.
  by rewrite Hp.
Qed.

Lemma assigned_units_pos devices k :
  0 < assigned_units devices k ↔
  ∃ d, d ∈ devices ∧ assigned d ∧ ModelKey d = k.
Proof.
  unfold assigned_units. split.
  - intros Hpos.
    destruct (filter (λ d, assigned d ∧ ModelKey d = k) devices)
      as [|d l] eqn:Hf; [cbn in Hpos; lia|].
    assert (Hd : d ∈ filter (λ d, assigned d ∧ ModelKey d = k) devices)
      by (rewrite Hf; left).
    apply list_elem_of_filter in Hd as [[Ha Hk] Hd]. by exists d.
  - intros (d & Hd & Ha & Hk).
    assert (Hin : d ∈ filter (λ d, assigned d ∧ ModelKey d = k) devices)
      by (by apply list_elem_of_filter).
    destruct (filter _ devices); [by apply elem_of_nil in Hin|cbn; lia].
Qed.

(** The matched rows are none exactly when no catalog key is the
    upper-cased model of an assigned device. *)
Lemma matched_rows_nil eol_df devices :
  matched_rows eol_df (filter assigned devices) = [] ↔
  ∀ d e, d ∈ devices → assigned d → e ∈ rows eol_df →
         getitem e "ProductKey" ≠ CStr (ModelKey d).
Proof.
  split.
  - intros Hnil d e Hd Ha He Hk.
    assert (Hin : <["Total Units" :=
                      CNum (Z.of_nat (assigned_units devices (ModelKey d)))]> e
                  ∈ matched_rows eol_df (filter assigned devices)).
    { apply elem_of_matched_rows. exists e, (ModelKey d), (assigned_units devices (ModelKey d)).
      split_and!; try done. apply counts_present. split; [done|].
      apply assigned_units_pos. by exists d. }
    rewrite Hnil in Hin. by apply elem_of_nil in Hin.
  - intros Hno.
    destruct (matched_rows eol_df (filter assigned devices)) as [|r l] eqn:Hm;
      [done|].
    assert (Hr : r ∈ matched_rows eol_df (filter assigned devices))
      by (rewrite Hm; left).
    apply elem_of_matched_rows in Hr as (e & k & n & He & Hk & Hn & _).
    apply counts_present in Hn as [-> Hpos].
    apply assigned_units_pos in Hpos as (d & Hd & Ha & <-).
    by destruct (Hno d e).
Qed.

Section reports.
Variable sort_values : sort_spec → list row → list row.
Hypothesis sort_values_perm : ∀ by_ l, sort_values by_ l ≡ₚ l.

Lemma report_rows_nil eol_df devices df :
  build_eol_report sort_values eol_df devices = Ok df →
  rows df = [] ↔
  ∀ d e, d ∈ devices → assigned d → e ∈ rows eol_df →
         getitem e "ProductKey" ≠ CStr (ModelKey d).
Proof.
  intros Hdf. rewrite <- matched_rows_nil.
  pose proof (build_eol_report_perm _ sort_values_perm _ _ _ Hdf) as Hp.
  split; intros Hnil.
  - rewrite Hnil in Hp. by apply Permutation_nil_l in Hp.
  - rewrite Hnil in Hp. by apply Permutation_nil_r in Hp.
Qed.

Lemma build_eol_reports_ok eol_df inventories :
  "ProductKey" ∈ columns eol_df →
  ∃ reports,
    build_eol_reports sort_values eol_df inventories = Ok reports ∧
    Forall2 (λ item r, ∃ df, r = mkReport item.1 (Some df) ∧
                build_eol_report sort_values eol_df item.2 = Ok df)
      inventories reports.
Proof.
  intros Hcol. induction inventories as [|[label devices] inventories IH].
  { exists []. by split. }
  destruct IH as (reports & Hr & Hall).
  destruct (build_eol_report_ok sort_values eol_df devices Hcol) as [df Hdf].
  exists (mkReport label (Some df) :: reports). split.
  - unfold build_eol_reports in *. cbn [mapM snd fst]. rewrite Hdf. cbn [bind].
    by rewrite Hr.
  - constructor; [by exists df|done].
Qed.

Lemma build_eol_reports_raises eol_df inventories label devices d :
  "ProductKey" ∉ columns eol_df →
  (label, devices) ∈ inventories → d ∈ devices → assigned d →
  build_eol_reports sort_values eol_df inventories = Raise (KeyError "ProductKey").
Proof.
  intros Hcol Hin Hd Ha. unfold build_eol_reports.
  induction inventories as [|[label' devices'] inventories IH].
  { by apply elem_of_nil in Hin. }
  cbn [mapM snd fst]. rewrite build_eol_report_eq.
  destruct (filter assigned devices') as [|a inv] eqn:Hf.
  - cbn [bind]. apply elem_of_cons in Hin as [[= <- <-]|Hin].
    + assert (Hd' : d ∈ filter assigned devices) by (by apply list_elem_of_filter).
      rewrite Hf in Hd'. by apply elem_of_nil in Hd'.
    + by rewrite (IH Hin).
  - by rewrite decide_False.
Qed.

End reports.

(** X9: the reports of a run.  On a catalog with a "ProductKey" column
    every organization of the inventories gets a report, in the order of
    the inventories and under its label, also when it has no device; the
    report has no row exactly when no assigned device of the organization
    has a model that is, upper-cased, a key of the catalog.  On a frame
    without that column the first organization with an assigned device
    ends the run with a KeyError. *)
Theorem build_eol_reports_all_orgs
    (sort_values : sort_spec → list row → list row) eol_df
    (inventories : list (string * list device)) :
  (∀ by_ l, sort_values by_ l ≡ₚ l) →
  ("ProductKey" ∈ columns eol_df →
   ∃ reports,
     build_eol_reports sort_values eol_df inventories = Ok reports ∧
     map name reports = map fst inventories ∧
     ∀ i label devices,
       inventories !! i = Some (label, devices) →
       ∃ df, reports !! i = Some (mkReport label (Some df)) ∧
             (rows df = [] ↔
              ∀ d e, d ∈ devices → assigned d → e ∈ rows eol_df →
                     getitem e "ProductKey" ≠ CStr (ModelKey d))) ∧
  ("ProductKey" ∉ columns eol_df →
   (∃ label devices d,
      (label, devices) ∈ inventories ∧ d ∈ devices ∧ assigned d) →
   build_eol_reports sort_values eol_df inventories =
   Raise (KeyError "ProductKey")).
Proof.
  intros Hperm. split.
  - intros Hcol.
    destruct (build_eol_reports_ok sort_values eol_df inventories Hcol)
      as (reports & Hr & Hall).
    exists reports. split; [done|]. split.
    + clear Hr. induction Hall as [|item r inv reps (df & -> & _) _ IH]; [done|].
      cbn [map name]. by rewrite IH.
    + intros i label devices Hi.
      destruct (Forall2_lookup_l _ _ _ _ _ Hall Hi) as (r & Hri & df & -> & Hdf).
      exists df. split; [done|].
      by apply (report_rows_nil sort_values Hperm eol_df devices).
  - intros Hcol (label & devices & d & Hin & Hd & Ha).
    by apply (build_eol_reports_raises sort_values eol_df inventories
                label devices d).
Qed.

(** X9, witness: two organizations, the second without devices. *)
Lemma build_eol_reports_all_orgs_witness :
  (∀ (by_ : sort_spec) l, sort_units_keeping_ties l ≡ₚ l) ∧
  "ProductKey" ∈ columns mx68_catalog ∧
  ∃ reports,
    build_eol_reports (λ _, sort_units_keeping_ties) mx68_catalog
      [("Acme - 1", mx68_inventory); ("Bolt - 2", [])] = Ok reports ∧
    map name reports = ["Acme - 1"; "Bolt - 2"].
Proof.
  assert (Hperm : ∀ (by_ : sort_spec) l, sort_units_keeping_ties l ≡ₚ l)
    by (intros _ l; apply isort_perm).
  assert (Hcol : "ProductKey" ∈ columns mx68_catalog)
    by (vm_compute; right; left).
  split; [exact Hperm|]. split; [exact Hcol|].
  destruct (proj1 (build_eol_reports_all_orgs (λ _, sort_units_keeping_ties)
                     mx68_catalog
                     [("Acme - 1", mx68_inventory); ("Bolt - 2", [])] Hperm)
              Hcol) as (reports & Hr & Hnames & _).
  by exists reports.
Defined.

(** X10: a report depends on the inventory through the upper-cased models
    of its assigned devices only, taken as a multiset: unassigned
    devices, the order of the devices and the letter case of the models
    change nothing, neither in the rows nor in the outcome. *)
Theorem report_depends_on_assigned_models
    (sort_values : sort_spec → list row → list row) eol_df
    (devices devices' : list device) :
  map ModelKey (filter assigned devices) ≡ₚ
  map ModelKey (filter assigned devices') →
  build_eol_report sort_values eol_df devices =
  build_eol_report sort_values eol_df devices'.
Proof.
  intros Hp. rewrite !build_eol_report_eq.
  assert (Hm : matched_rows eol_df (filter assigned devices) =
               matched_rows eol_df (filter assigned devices')).
  { unfold matched_rows. cbv zeta. by rewrite (value_counts_perm _ _ Hp). }
  pose proof (Permutation_length Hp) as Hlen. rewrite !length_map in Hlen.
  destruct (filter assigned devices) as [|a inv],
           (filter assigned devices') as [|a' inv']; try done.
  by rewrite Hm.
Qed.

(** X10, witness: the sample inventory against two assigned devices
    with other spellings of the model, in a frame without devices in
    stock. *)
Lemma report_depends_on_assigned_models_witness :
  build_eol_report (λ _, sort_units_keeping_ties) mx68_catalog mx68_inventory =
  build_eol_report (λ _, sort_units_keeping_ties) mx68_catalog
    [mkDevice "Mx68" (Some "N7"); mkDevice "mX68" (Some "N1")].
Proof.
  apply (report_depends_on_assigned_models (λ _, sort_units_keeping_ties)).
  vm_compute. reflexivity.
Defined.

End ReportsFacts.

(** ** From the catalog to the table of the document *)

Module DisplayFacts.
Import PyStr PyRepr PySort Builder Labels Matcher PdfLayout Samples.
Import PySortFacts MatcherFacts CatalogFacts.

Lemma fetch_eol_table_columns dfs table catalog :
  fetch_eol_table dfs table = Ok catalog →
  "Product" ∈ columns catalog ∧ "ProductKey" ∈ columns catalog ∧
  "Upgrade Path" ∈ columns catalog.
Proof.
  destruct dfs as [|eol_df rest]; [done|].
  destruct (decide ("Product" ∈ columns eol_df)) as [Hc|Hc].
  2:{ unfold fetch_eol_table. by rewrite decide_False. }
  destruct table as [t|].
  2:{ unfold fetch_eol_table. by rewrite decide_True. }
  rewrite (fetch_eol_table_found _ _ _ Hc). case_decide; [done|].
  destruct (catalog_rows _); [done|]. intros [= <-]. cbn [columns].
  rewrite !elem_of_add_column. tauto.
Qed.

(** The columns of the table of a frame that has the four columns every
    report of a run has. *)
Lemma available_cols_weight df :
  "Product" ∈ columns df → "ProductKey" ∈ columns df →
  "Upgrade Path" ∈ columns df → "Total Units" ∈ columns df →
  sublist ["Product"; "ProductKey"; "Upgrade Path"; "Total Units"]
    (available_cols df) ∧
  (54 ≤ total_weight (available_cols df) ≤ 116)%Z.
Proof.
  intros H1 H2 H3 H4. unfold available_cols, pdf_cols. cbn [map fst].
  rewrite !filter_cons, filter_nil.
  rewrite (decide_True (P := "Product" ∈ columns df)) by done.
  rewrite (decide_True (P := "ProductKey" ∈ columns df)) by done.
  rewrite (decide_True (P := "Upgrade Path" ∈ columns df)) by done.
  rewrite (decide_True (P := "Total Units" ∈ columns df)) by done.
  destruct (decide ("Announcement" ∈ columns df)),
           (decide ("End-of-Sale Date" ∈ columns df)),
           (decide ("End-of-Support Date" ∈ columns df));
    (split; [repeat first [apply sublist_skip | apply sublist_cons
                          | apply sublist_nil]
            | by vm_compute]).
Qed.

(** X11: every report of a run can be shown.  For a catalog that the
    builder returned, the report of any inventory is built without error,
    and it is the empty frame or a frame whose table has the columns
    Product, ProductKey, Upgrade Path and Units, in this order among the
    columns shown; the weights of the columns shown add up to a number
    between 54 and 116, so that the widths are defined. *)
Theorem run_report_is_displayable
    (sort_values : sort_spec → list row → list row)
    dfs table catalog (devices : list device) :
  fetch_eol_table dfs table = Ok catalog →
  ∃ df,
    build_eol_report sort_values catalog devices = Ok df ∧
    (df = empty_frame ∨
     columns df = add_column "Total Units" (columns catalog) ∧
     sublist ["Product"; "ProductKey"; "Upgrade Path"; "Total Units"]
       (available_cols df) ∧
     (54 ≤ total_weight (available_cols df) ≤ 116)%Z).
Proof.
  intros (Hp & Hk & Hu)%fetch_eol_table_columns.
  destruct (build_eol_report_ok sort_values catalog devices Hk) as [df Hdf].
  exists df. split; [done|].
  unfold build_eol_report in Hdf.
  destruct devices as [|d devices]; [left; congruence|].
  destruct (filter assigned (d :: devices)); [left; congruence|].
  rewrite decide_True in Hdf by done. injection Hdf as <-. right.
  split; [done|].
  apply available_cols_weight; cbn [columns]; apply elem_of_add_column; auto.
Qed.

(** X11, witness: the catalog of the two-row page and the sample
    inventory. *)
Lemma run_report_is_displayable_witness :
  ∃ catalog df,
    fetch_eol_table [two_row_frame] (Some two_row_markup) = Ok catalog ∧
    build_eol_report (λ _, sort_units_keeping_ties) catalog mx68_inventory =
      Ok df ∧
    available_cols df =
      ["Product"; "End-of-Support Date"; "ProductKey"; "Upgrade Path";
       "Total Units"].
Proof.
  destruct (fetch_eol_table [two_row_frame] (Some two_row_markup))
    as [catalog|] eqn:Hf; [|by vm_compute in Hf].
  destruct (run_report_is_displayable (λ _, sort_units_keeping_ties)
              _ _ _ mx68_inventory Hf) as (df & Hdf & _).
  exists catalog, df. split; [done|]. split; [done|].
  vm_compute in Hf. injection Hf as <-.
  vm_compute in Hdf. injection Hdf as <-. vm_compute. reflexivity.
Defined.

End DisplayFacts.

(** ** Report Renderer (table): header, rows and outcome *)

Module CsvShapeFacts.
Import PyStr PySort Matcher CsvExport CsvShape Samples.
Import PySortFacts MatcherFacts CsvExportFacts.

Lemma all_columns_acc_inv (reports : list org_report) (acc : gset string) col :
  col ∈ foldl (λ acc item,
           match report item with
           | Some df => if df_empty df then acc else acc ∪ list_to_set (columns df)
           | None => acc
           end) acc reports →
  col ∈ acc ∨
  (∃ item df, item ∈ reports ∧ report item = Some df ∧
              df_empty df = false ∧ col ∈ columns df).
Proof.
  revert acc. induction reports as [|item reports IH]; intros acc; [by left|].
  cbn [foldl]. intros [Hacc|(item' & df & Hin & Hr & He & Hc)]%IH.
  - destruct (report item) as [df|] eqn:Hr; [|by left].
    destruct (df_empty df) eqn:He; [by left|].
    apply elem_of_union in Hacc as [?|Hc%elem_of_list_to_set]; [by left|].
    right. exists item, df. split_and!; try done. left.
  - right. exists item', df. split_and!; try done. by right.
Qed.

(** The columns collected from the reports. *)
Lemma elem_of_all_columns reports col :
  col ∈ all_columns reports ↔
  ∃ item df, item ∈ reports ∧ report item = Some df ∧
             df_empty df = false ∧ col ∈ columns df.
Proof.
  split.
  - intros [Hacc|?]%all_columns_acc_inv; [|done]. by apply elem_of_empty in Hacc.
  - intros H. apply all_columns_acc. by right.
Qed.

Lemma elem_of_base_cols all c :
  c ∈ base_cols all ↔
  (c ∈ all ∨ c = "Total Units") ∧ c ≠ "Organization" ∧ c ≠ "Note".
Proof.
  unfold base_cols. cbv zeta. rewrite list_elem_of_filter.
  case_decide as Ht.
  - rewrite elem_of_elements. apply elem_of_elements in Ht.
    split; [tauto|]. intros [[?| ->] ?]; tauto.
  - rewrite elem_of_app, elem_of_elements, list_elem_of_singleton. tauto.
Qed.

Lemma NoDup_base_cols all : NoDup (base_cols all).
Proof.
  unfold base_cols. cbv zeta. apply NoDup_filter. case_decide as Ht.
  - apply NoDup_elements.
  - apply NoDup_app. split_and!.
    + apply NoDup_elements.
    + intros x Hx Hx'. apply list_elem_of_singleton in Hx' as ->. done.
    + apply NoDup_singleton.
Qed.

Lemma elem_of_csv_columns all c :
  c ∈ csv_columns all ↔
  c ∈ ["Organization"; "Total Units"; "Note"] ∨ c ∈ all.
Proof.
  unfold csv_columns.
  rewrite elem_of_cons, elem_of_app, elem_of_base_cols, list_elem_of_singleton.
  rewrite !elem_of_cons, elem_of_nil.
  destruct (decide (c = "Organization")), (decide (c = "Note")); tauto.
Qed.

Lemma csv_columns_shape all :
  head (csv_columns all) = Some "Organization" ∧
  last (csv_columns all) = Some "Note" ∧ NoDup (csv_columns all).
Proof.
  unfold csv_columns. split; [done|]. split.
  - by rewrite app_comm_cons, last_snoc.
  - apply NoDup_cons. split.
    + rewrite elem_of_app, elem_of_base_cols, list_elem_of_singleton.
      intros [(_ & H & _)|H]; done.
    + apply NoDup_app. split_and!.
      * apply NoDup_base_cols.
      * intros x (_ & _ & H)%elem_of_base_cols ->%list_elem_of_singleton. done.
      * apply NoDup_singleton.
Qed.

Lemma dom_columns_map (f : string → cell) (cols : list string) :
  dom (list_to_map (map (λ c, (c, f c)) cols) : row) =@{gset string}
  list_to_set cols.
Proof.
  induction cols as [|c cols IH]; [apply dom_empty_L|].
  cbn [map list_to_map list_to_set foldr]. by rewrite dom_insert_L, IH.
Qed.

Lemma union_known_column (c : string) (cols : list string) :
  c ∈ cols → {[ c ]} ∪ list_to_set cols =@{gset string} list_to_set cols.
Proof.
  intros Hc. apply subseteq_union_1_L, singleton_subseteq_l.
  by apply elem_of_list_to_set.
Qed.

Lemma item_rows_dom cols item chunk :
  "Organization" ∈ cols → "Total Units" ∈ cols → "Note" ∈ cols →
  item_rows cols item = Ok chunk →
  Forall (λ r : row, dom r =@{gset string} list_to_set cols) chunk.
Proof.
  intros Ho Ht Hn.
  assert (Hph : dom (placeholder_row cols (name item)) =@{gset string}
                list_to_set cols).
  { unfold placeholder_row. rewrite !dom_insert_L, dom_columns_map.
    by rewrite !union_known_column. }
  unfold item_rows. destruct (report item) as [df|].
  2:{ intros [= <-]. by constructor. }
  destruct (df_empty df).
  { intros [= <-]. by constructor. }
  unfold report_rows. case_decide; [done|]. cbv zeta. intros [= <-].
  apply Forall_forall. intros r Hr.
  change (map ?f ?l) with (f <$> l) in Hr.
  apply list_elem_of_fmap in Hr as (r0 & -> & _). apply dom_columns_map.
Qed.

Lemma mapM_Forall {A B : Type} (f : A → result B) (P : B → Prop) l ys :
  mapM f l = Ok ys → (∀ x y, f x = Ok y → P y) → Forall P ys.
Proof.
  intros HM Hf. apply mapM_Ok in HM.
  induction HM as [|x y l ys Hxy _ IH]; constructor; eauto.
Qed.

Section shape.
Variable sort_values : sort_spec → list row → list row.
Variable to_numeric : cell → option Z.
Hypothesis sort_values_perm : ∀ by_ l, sort_values by_ l ≡ₚ l.

(** What [generate_csv] returns, when it returns. *)
Lemma generate_csv_inv reports cols out :
  generate_csv sort_values to_numeric reports = Ok (cols, out) →
  cols = csv_columns (all_columns (sort_reports reports)) ∧
  ∃ chunks,
    mapM (item_rows cols) (sort_reports reports) = Ok chunks ∧
    out ≡ₚ map (numeric_units to_numeric) (concat chunks).
Proof.
  unfold generate_csv. cbv zeta.
  destruct (mapM _ (sort_reports reports)) as [chunks|] eqn:HM; [|done].
  cbn [bind]. destruct (concat chunks) as [|r0 all_rows] eqn:Hcat.
  { intros [= <- <-]. split; [done|]. exists chunks. by rewrite Hcat. }
  rewrite decide_True by apply total_units_in_columns.
  intros [= <- <-]. split; [done|]. exists chunks. split; [done|].
  by rewrite sort_values_perm, Hcat.
Qed.

Lemma generate_csv_raises reports e :
  mapM (item_rows (csv_columns (all_columns (sort_reports reports))))
    (sort_reports reports) = Raise e →
  generate_csv sort_values to_numeric reports = Raise e.
Proof. intros HM. unfold generate_csv. cbv zeta. by rewrite HM. Qed.

Lemma generate_csv_returns reports chunks :
  mapM (item_rows (csv_columns (all_columns (sort_reports reports))))
    (sort_reports reports) = Ok chunks →
  ∃ cols out, generate_csv sort_values to_numeric reports = Ok (cols, out).
Proof.
  intros HM. unfold generate_csv. cbv zeta. rewrite HM. cbn [bind].
  destruct (concat chunks); [by eexists _, _|].
  rewrite decide_True by apply total_units_in_columns. by eexists _, _.
Qed.

End shape.

Lemma item_rows_outcome cols item :
  (has_organization_column item ∧
   item_rows cols item =
   Raise (ValueError "cannot insert Organization, already exists")) ∨
  (¬ has_organization_column item ∧
   ∃ chunk, item_rows cols item = Ok chunk ∧ length chunk = rows_of item).
Proof.
  unfold item_rows, rows_of, has_organization_column.
  destruct (report item) as [df|].
  2:{ right. split; [by intros (df & ? & _)|]. by eexists. }
  destruct (df_empty df) eqn:He.
  { right. split; [intros (df' & [= <-] & He' & _); congruence|]. by eexists. }
  unfold report_rows. case_decide as Ho.
  - left. split; [by exists df|done].
  - right. split; [intros (df' & [= <-] & _ & Ho'); done|].
    eexists. split; [done|]. cbv zeta. case_decide; cbn [fst snd];
      by rewrite !length_map.
Qed.

Lemma mapM_item_rows_outcome cols (items : list org_report) :
  (Exists has_organization_column items ∧
   mapM (item_rows cols) items =
   Raise (ValueError "cannot insert Organization, already exists")) ∨
  (¬ Exists has_organization_column items ∧
   ∃ chunks, mapM (item_rows cols) items = Ok chunks ∧
             length (concat chunks) = sum_list_with rows_of items).
Proof.
  induction items as [|item items IH].
  { right. split; [by intros H%Exists_nil|]. by exists []. }
  cbn [mapM].
  destruct (item_rows_outcome cols item) as [[Hh ->]|[Hh (chunk & -> & Hlen)]].
  { left. split; [by left|done]. }
  cbn [bind]. destruct IH as [[Hex ->]|[Hex (chunks & -> & Hsum)]].
  - left. split; [by right|done].
  - right. split; [by intros [?|?]%Exists_cons|].
    exists (chunk :: chunks). split; [done|].
    cbn [concat sum_list_with]. by rewrite length_app, Hlen, Hsum.
Qed.

Lemma rows_of_pos item : 0 < rows_of item.
Proof.
  unfold rows_of. destruct (report item) as [df|]; [|lia].
  destruct (df_empty df) eqn:He; [lia|]. unfold df_empty in He.
  apply orb_false_iff in He as [He%bool_decide_eq_false _].
  destruct (rows df); [done|cbn; lia].
Qed.

Lemma generate_csv_ok
    (sort_values : sort_spec → list row → list row)
    (to_numeric : cell → option Z) (reports : list org_report) :
  ¬ Exists has_organization_column reports →
  ∃ cols out, generate_csv sort_values to_numeric reports = Ok (cols, out).
Proof.
  intros Hnone.
  assert (Hsorted : sort_reports reports ≡ₚ reports) by apply isort_perm.
  destruct (mapM_item_rows_outcome
              (csv_columns (all_columns (sort_reports reports)))
              (sort_reports reports))
    as [[Hex _]|[_ (chunks & HM & _)]].
  - rewrite Hsorted in Hex. by destruct Hnone.
  - by apply (generate_csv_returns sort_values to_numeric reports chunks).
Qed.

Lemma sample_reports_insertable :
  ¬ Exists has_organization_column sample_reports.
Proof.
  intros (item & Hin & df & Hr & _ & Hcol)%Exists_exists.
  unfold sample_reports in Hin. apply elem_of_cons in Hin as [->|Hin].
  - injection Hr as <-. cbn [columns] in Hcol.
    repeat (apply elem_of_cons in Hcol as [Hcol|Hcol]; [discriminate|]).
    by apply elem_of_nil in Hcol.
  - apply list_elem_of_singleton in Hin as ->. injection Hr as <-.
    by apply elem_of_nil in Hcol.
Qed.

(** X12: the header and the rows of the table.  The header starts with
    "Organization", ends with "Note" and holds no column twice; besides
    these two and "Total Units" it holds exactly the columns of the
    non-empty reports.  Every row written has exactly the fields of the
    header, and its "Total Units" is a number. *)
Theorem csv_header_and_rows
    (sort_values : sort_spec → list row → list row)
    (to_numeric : cell → option Z) (reports : list org_report)
    (cols : list string) (out : list row) :
  (∀ by_ l, sort_values by_ l ≡ₚ l) →
  generate_csv sort_values to_numeric reports = Ok (cols, out) →
  head cols = Some "Organization" ∧ last cols = Some "Note" ∧ NoDup cols ∧
  (∀ c, c ∈ cols ↔
        c ∈ ["Organization"; "Total Units"; "Note"] ∨
        ∃ item df, item ∈ reports ∧ report item = Some df ∧
                   df_empty df = false ∧ c ∈ columns df) ∧
  Forall (λ r : row,
            dom r =@{gset string} list_to_set cols ∧
            ∃ n, r !! "Total Units" = Some (CNum n)) out.
Proof.
  intros Hperm (Hcols & chunks & HM & Hout)%(generate_csv_inv _ _ Hperm).
  assert (Hsorted : sort_reports reports ≡ₚ reports) by apply isort_perm.
  destruct (csv_columns_shape (all_columns (sort_reports reports)))
    as (Hhead & Hlast & Hnd).
  rewrite <- Hcols in Hhead, Hlast, Hnd. split_and!; try done.
  - intros c. rewrite Hcols, elem_of_csv_columns, elem_of_all_columns.
    by setoid_rewrite Hsorted.
  - assert (Ho : "Organization" ∈ cols) by (subst cols; apply organization_in_columns).
    assert (Ht : "Total Units" ∈ cols) by (subst cols; apply total_units_in_columns).
    assert (Hn : "Note" ∈ cols) by (subst cols; apply note_in_columns).
    assert (Hdom : Forall (λ r : row, dom r =@{gset string} list_to_set cols)
                     (concat chunks)).
    { apply Forall_concat.
      apply (mapM_Forall _ _ _ _ HM). intros item chunk.
      by apply item_rows_dom. }
    apply Forall_forall. intros r Hr. rewrite Hout in Hr.
    change (map ?f ?l) with (f <$> l) in Hr.
    apply list_elem_of_fmap in Hr as (r0 & -> & Hr0).
    rewrite Forall_forall in Hdom. specialize (Hdom r0 Hr0).
    unfold numeric_units. split; [|eexists; apply lookup_insert_eq].
    by rewrite dom_insert_L, Hdom, union_known_column.
Qed.

(** X12, witness: the sample reports. *)
Lemma csv_header_and_rows_witness :
  ∃ cols out,
    generate_csv (λ _, sort_units_keeping_ties) numbers_only sample_reports =
      Ok (cols, out) ∧
    head cols = Some "Organization" ∧ last cols = Some "Note" ∧
    "ProductKey" ∈ cols ∧
    Forall (λ r : row, ∃ n, r !! "Total Units" = Some (CNum n)) out.
Proof.
  destruct (generate_csv_ok (λ _, sort_units_keeping_ties) numbers_only
              sample_reports sample_reports_insertable)
    as (cols & out & Hcsv).
  assert (Hperm : ∀ (by_ : sort_spec) l, sort_units_keeping_ties l ≡ₚ l)
    by (intros _ l; apply isort_perm).
  destruct (csv_header_and_rows _ _ _ _ _ Hperm Hcsv)
    as (Hhead & Hlast & _ & Hcols & Hall).
  exists cols, out. split; [exact Hcsv|]. split; [exact Hhead|].
  split; [exact Hlast|]. split.
  - apply Hcols. right. eexists _, _. unfold sample_reports.
    split; [left|]. split; [reflexivity|]. split; [reflexivity|].
    right. left.
  - eapply Forall_impl; [exact Hall|]. intros r [_ Hn]. exact Hn.
Defined.

(** X13: the outcome of the export.  It fails, with the ValueError of the
    column insertion, exactly when a non-empty report has a column named
    "Organization"; otherwise it writes one row for every organization
    with an empty report and as many rows as the report has for every
    other one, so that only an empty list of reports gives a table
    without rows. *)
Theorem generate_csv_outcome
    (sort_values : sort_spec → list row → list row)
    (to_numeric : cell → option Z) (reports : list org_report) :
  (∀ by_ l, sort_values by_ l ≡ₚ l) →
  (Exists has_organization_column reports ∧
   generate_csv sort_values to_numeric reports =
   Raise (ValueError "cannot insert Organization, already exists")) ∨
  (¬ Exists has_organization_column reports ∧
   ∃ cols out,
     generate_csv sort_values to_numeric reports = Ok (cols, out) ∧
     length out = sum_list_with rows_of reports ∧
     (out = [] ↔ reports = [])).
Proof.
  intros Hperm.
  assert (Hsorted : sort_reports reports ≡ₚ reports) by apply isort_perm.
  destruct (mapM_item_rows_outcome
              (csv_columns (all_columns (sort_reports reports)))
              (sort_reports reports))
    as [[Hex HM]|[Hex (chunks & HM & Hsum)]].
  - left. split; [by rewrite <- Hsorted|].
    by apply generate_csv_raises.
  - right. split; [by rewrite <- Hsorted|].
    destruct (generate_csv_returns sort_values to_numeric _ _ HM)
      as (cols & out & Hcsv).
    exists cols, out. split; [done|].
    apply (generate_csv_inv _ _ Hperm) in Hcsv as (-> & chunks' & HM' & Hout).
    rewrite HM in HM'. injection HM' as <-.
    assert (Hlen : length out = sum_list_with rows_of reports).
    { rewrite Hout, length_map, Hsum. by rewrite Hsorted. }
    split; [done|]. split.
    + intros ->. destruct reports as [|item reports']; [done|].
      cbn [length sum_list_with] in Hlen. pose proof (rows_of_pos item). lia.
    + intros ->. by destruct out.
Qed.

(** X13, witness: the sample reports give three rows. *)
Lemma generate_csv_outcome_witness :
  ∃ cols out,
    generate_csv (λ _, sort_units_keeping_ties) numbers_only sample_reports =
      Ok (cols, out) ∧
    length out = 3.
Proof.
  assert (Hperm : ∀ (by_ : sort_spec) l, sort_units_keeping_ties l ≡ₚ l)
    by (intros _ l; apply isort_perm).
  destruct (generate_csv_outcome (λ _, sort_units_keeping_ties) numbers_only
              sample_reports Hperm)
    as [[Hex _]|[_ (cols & out & Hcsv & Hlen & _)]].
  - by destruct (sample_reports_insertable Hex).
  - exists cols, out. split; [exact Hcsv|]. rewrite Hlen. reflexivity.
Defined.

End CsvShapeFacts.

(** ** Organization selection *)

Module CliFacts.
Import PyStr Cli CliSamples.
Import PyStrFacts TokenFacts ExpansionFacts PdfLayoutFacts.

Lemma split_join_pieces c (pieces : list string) :
  pieces ≠ [] → Forall (λ p, lacks c p = true) pieces →
  split (String c EmptyString) (join (String c EmptyString) pieces) = pieces.
Proof.
  intros Hne Hall. induction Hall as [|x l Hx Hl IH]; [done|].
  destruct l as [|y l]; [by apply split_lacks|].
  change (join (String c EmptyString) (x :: y :: l))
    with (x +:+ String c (join (String c EmptyString) (y :: l))).
  rewrite split_app_sep by done. by rewrite IH.
Qed.

Lemma lower_char_digit c : isdigit c = true → lower_char c = c.
Proof.
  unfold lower_char, isupper, isdigit. cbv zeta.
  intros [H1%Nat.leb_le H2%Nat.leb_le]%andb_true_iff.
  replace (65 <=? nat_of_ascii c)%nat with false; [done|].
  symmetry. apply Nat.leb_gt. lia.
Qed.

Lemma has_digit_lower s : has_digit s = true → has_digit (lower s) = true.
Proof.
  unfold has_digit. rewrite !negb_true_iff.
  induction s as [|c s IH]; [done|]. cbn [lower all_chars].
  rewrite !andb_false_iff, !negb_false_iff.
  intros [Hc|Hs]; [left|right; by apply IH].
  by rewrite lower_char_digit.
Qed.

Lemma has_digit_join sep x l :
  has_digit x = true → has_digit (join sep (x :: l)) = true.
Proof.
  unfold has_digit. rewrite !negb_true_iff. intros Hx.
  destruct l as [|y l]; [done|].
  change (join sep (x :: y :: l)) with (x +:+ sep +:+ join sep (y :: l)).
  by rewrite all_chars_app, Hx.
Qed.

Section choose.
Variable int : string → option Z.
Variable str : Z → string.

Lemma indices_of_Some pieces indices :
  indices_of int pieces = Some indices ↔
  Forall2 (λ p idx, ∃ n, int p = Some n ∧ idx = (n - 1)%Z) pieces indices.
Proof.
  revert indices. induction pieces as [|x pieces IH]; intros indices.
  { cbn. split; [by intros [= <-]; constructor|by intros ->%Forall2_nil_inv_l]. }
  cbn [indices_of]. split.
  - destruct (int x) as [n|] eqn:Hx; [|done].
    destruct (indices_of int pieces) as [rest|] eqn:Hr; [|done].
    intros [= <-]. constructor; [by exists n|by apply IH].
  - intros (idx & rest & (n & Hx & ->) & Hrest & ->)%Forall2_cons_inv_l.
    rewrite Hx. by rewrite (proj2 (IH rest) Hrest).
Qed.

Lemma indices_of_None pieces :
  indices_of int pieces = None ↔ ∃ p, p ∈ pieces ∧ int p = None.
Proof.
  induction pieces as [|x pieces IH]; cbn [indices_of].
  { split; [done|]. by intros (p & Hp%elem_of_nil & _). }
  destruct (int x) as [n|] eqn:Hx.
  - destruct (indices_of int pieces) as [rest|].
    + split; [done|]. intros (p & [->|Hp]%elem_of_cons & Hn); [congruence|].
      assert (Hnone : Some rest = None) by (apply IH; by exists p).
      discriminate.
    + split; [|done]. intros _. destruct (proj1 IH eq_refl) as (p & Hp & Hn).
      exists p. split; [by right|done].
  - split; [|done]. intros _. exists x. split; [left|done].
Qed.

(** The selection loop returns when every index is in range, and then
    adds the organization at every index, in order. *)
Lemma select_Return orgs indices selected sel :
  select str orgs indices selected = Return sel ↔
  Forall (λ idx, (0 ≤ idx < Z.of_nat (length orgs))%Z) indices ∧
  sel = selected ++ map (λ idx, orgs !!! Z.to_nat idx) indices.
Proof.
  revert selected. induction indices as [|idx indices IH]; intros selected.
  { cbn. rewrite app_nil_r. split; [by intros [= <-]|by intros [_ ->]]. }
  cbn [select map].
  destruct ((idx <? 0)%Z || (Z.of_nat (length orgs) <=? idx)%Z) eqn:Hr.
  - split; [done|]. intros [[Hidx _]%Forall_cons _].
    apply orb_true_iff in Hr as [?%Z.ltb_lt|?%Z.leb_le]; lia.
  - apply orb_false_iff in Hr as [?%Z.ltb_ge ?%Z.leb_gt].
    rewrite IH, Forall_cons, <- app_assoc. cbn [app]. intuition lia.
Qed.

(** It exits at the first index out of range. *)
Lemma select_SystemExit orgs indices selected msg :
  select str orgs indices selected = SystemExit msg →
  ∃ idx, idx ∈ indices ∧
         ¬ (0 ≤ idx < Z.of_nat (length orgs))%Z ∧
         msg = "Org index " +:+ str (idx + 1) +:+ " is out of range.".
Proof.
  revert selected. induction indices as [|idx indices IH]; intros selected;
    [done|].
  cbn [select].
  destruct ((idx <? 0)%Z || (Z.of_nat (length orgs) <=? idx)%Z) eqn:Hr.
  - intros [= <-]. exists idx. split; [left|]. split; [|done].
    apply orb_true_iff in Hr as [?%Z.ltb_lt|?%Z.leb_le]; lia.
  - intros (idx' & Hin & Hout)%IH. exists idx'. split; [by right|done].
Qed.

Lemma lookup_total_in_range (orgs : list org) idx :
  (0 ≤ idx < Z.of_nat (length orgs))%Z →
  orgs !! Z.to_nat idx = Some (orgs !!! Z.to_nat idx).
Proof.
  intros Hr. apply list_lookup_lookup_total_lt. lia.
Qed.

End choose.

(** X14: typing numbers selects the organizations shown under them.  When
    the line typed is, up to surrounding whitespace, a comma-separated
    list of texts that [int] reads as numbers between 1 and the number of
    organizations, the call returns one organization for each number, in
    the order typed and with repetitions kept: the one printed in the
    menu line that starts with that number. *)
Theorem typed_numbers_select
    (int : string → option Z) (str : Z → string)
    (orgs : list org) (typed : string) (pieces : list string) (ns : list Z) :
  (∀ x n, int x = Some n → has_digit x = true) →
  strip typed = join "," pieces →
  pieces ≠ [] →
  Forall (λ p, lacks "," p = true) pieces →
  Forall2 (λ p n, int p = Some n ∧ (1 ≤ n ≤ Z.of_nat (length orgs))%Z)
    pieces ns →
  ∃ sel,
    choose_orgs_interactively int str orgs typed = Return sel ∧
    Forall2 (λ n o,
        orgs !! Z.to_nat (n - 1) = Some o ∧
        menu str orgs !! Z.to_nat (n - 1) =
          Some (str n +:+ " - " +:+ org_name o))
      ns sel.
Proof.
  intros Hint Htyped Hne Hlack Hns.
  assert (Hdigit : has_digit (strip typed) = true).
  { rewrite Htyped. destruct Hns as [|p n ps ns' [Hp _] _]; [done|].
    apply has_digit_join. by apply (Hint p n). }
  exists (map (λ n, orgs !!! Z.to_nat (n - 1)) ns). split.
  - unfold choose_orgs_interactively. cbv zeta.
    rewrite decide_False by (intros Hs; by rewrite Hs in Hdigit).
    rewrite decide_False.
    2:{ intros Hall. apply has_digit_lower in Hdigit. by rewrite Hall in Hdigit. }
    rewrite Htyped, split_join_pieces by done.
    assert (Hidx : indices_of int pieces = Some (map (λ n, (n - 1)%Z) ns)).
    { apply indices_of_Some. clear -Hns.
      induction Hns as [|p n ps ns' [Hp _] _ IH]; [constructor|].
      cbn [map]. constructor; [by exists n|done]. }
    rewrite Hidx. apply select_Return. split.
    + clear -Hns. induction Hns as [|p n ps ns' [_ Hr] _ IH]; [constructor|].
      cbn [map]. constructor; [lia|done].
    + cbn [app]. clear. induction ns as [|n ns IH]; [done|].
      cbn [map]. by rewrite IH.
  - clear -Hns. induction Hns as [|p n ps ns' [_ Hr] _ IH]; [constructor|].
    cbn [map]. constructor; [|done].
    assert (Hlook : orgs !! Z.to_nat (n - 1) =
                    Some (orgs !!! Z.to_nat (n - 1)))
      by (apply lookup_total_in_range; lia).
    split; [done|]. unfold menu. rewrite list_lookup_imap, Hlook. cbn.
    do 3 f_equal. lia.
Qed.

(** X14, witness: typing " 3,1 " at a menu of three organizations. *)
Lemma typed_numbers_select_witness :
  ∃ sel,
    choose_orgs_interactively small_int small_str three_orgs " 3,1 " =
      Return sel ∧
    sel = [mkOrg "Core" "103"; mkOrg "Acme" "101"] ∧
    menu small_str three_orgs = ["1 - Acme"; "2 - Bolt"; "3 - Core"].
Proof.
  destruct (typed_numbers_select small_int small_str three_orgs " 3,1 "
              ["3"; "1"] [3%Z; 1%Z]) as (sel & Hsel & _).
  - intros x n. unfold small_int.
    repeat case_decide; subst; intros [= <-]; reflexivity.
  - reflexivity.
  - discriminate.
  - repeat constructor.
  - repeat constructor; cbn; lia.
  - exists sel. split; [done|]. split; [|reflexivity].
    vm_compute in Hsel. by injection Hsel as <-.
Defined.

(** X15: what the selection can be.  A blank line ends the run; the word
    "all", in any letter case and with whitespace around it, selects every
    organization.  Whatever the line, a selection that is returned holds
    only organizations of the list and is empty only when the list is; and
    a run that ends does so for a blank line, for a text that is no
    number, or for a number outside the menu, which the message names. *)
Theorem choose_orgs_outcome
    (int : string → option Z) (str : Z → string)
    (orgs : list org) (typed : string) :
  match choose_orgs_interactively int str orgs typed with
  | Return sel =>
      strip typed ≠ EmptyString ∧
      (lower (strip typed) = "all" → sel = orgs) ∧
      Forall (λ o, o ∈ orgs) sel ∧ (sel = [] → orgs = [])
  | SystemExit msg =>
      lower (strip typed) ≠ "all" ∧
      ((strip typed = EmptyString ∧
        msg = "No organizations selected; exiting.") ∨
       (strip typed ≠ EmptyString ∧
        (∃ p, p ∈ split "," (strip typed) ∧ int p = None) ∧
        msg = "Invalid input for org selection: " +:+ strip typed) ∨
       (strip typed ≠ EmptyString ∧
        ∃ p n, p ∈ split "," (strip typed) ∧ int p = Some n ∧
               ¬ (1 ≤ n ≤ Z.of_nat (length orgs))%Z ∧
               msg = "Org index " +:+ str n +:+ " is out of range."))
  end.
Proof.
  unfold choose_orgs_interactively. cbv zeta.
  destruct (decide (strip typed = EmptyString)) as [He|He].
  { split; [by rewrite He|]. by left. }
  destruct (decide (lower (strip typed) = "all")) as [Ha|Ha].
  { split_and!; try done. by apply Forall_forall. }
  destruct (indices_of int (split "," (strip typed))) as [indices|] eqn:Hidx.
  2:{ split; [done|]. right. left. split; [done|]. split; [|done].
      by apply indices_of_None. }
  apply indices_of_Some in Hidx.
  destruct (select str orgs indices []) as [sel|msg] eqn:Hsel.
  - apply select_Return in Hsel as [Hrange ->]. cbn [app].
    split_and!; try done.
    + apply Forall_forall. intros o Ho.
      change (map ?f ?l) with (f <$> l) in Ho.
      apply list_elem_of_fmap in Ho as (idx & -> & Hin).
      rewrite Forall_forall in Hrange. specialize (Hrange idx Hin).
      eapply list_elem_of_lookup_2, lookup_total_in_range. done.
    + intros Hnil. destruct indices as [|idx indices]; [|done].
      apply Forall2_nil_inv_r in Hidx. by apply split_nonempty in Hidx.
  - split; [done|]. right. right. split; [done|].
    apply select_SystemExit in Hsel as (idx & Hin & Hout & ->).
    apply list_elem_of_lookup in Hin as [i Hi].
    destruct (Forall2_lookup_r _ _ _ _ _ Hidx Hi) as (p & Hp & n & Hn & ->).
    exists p, n. split; [by eapply list_elem_of_lookup_2|]. split; [done|].
    split; [lia|]. do 2 f_equal. f_equal. lia.
Qed.

End CliFacts.

(** ** Inventories of the selected organizations *)

Module InventoryFacts.
Import PyStr Matcher Cli Inventory CliSamples.
Import PyStrFacts TokenFacts.

Section dict.
Context {V : Type}.
Implicit Types (d : list (string * V)) (k : string) (v : V).

Lemma dict_set_fresh k v d :
  k ∉ map fst d → dict_set k v d = d ++ [(k, v)].
Proof.
  induction d as [|[k' v'] d IH]; [done|]. cbn [map fst dict_set].
  rewrite not_elem_of_cons. intros [Hne Hk].
  rewrite decide_False by done. by rewrite IH.
Qed.

Lemma dict_set_keys k v d :
  map fst (dict_set k v d) =
  if decide (k ∈ map fst d) then map fst d else map fst d ++ [k].
Proof.
  induction d as [|[k' v'] d IH]; [done|]. cbn [map fst dict_set].
  destruct (decide (k' = k)) as [->|Hne].
  - cbn [map fst]. rewrite decide_True; [done|left].
  - cbn [map fst]. rewrite IH.
    destruct (decide (k ∈ map fst d)) as [Hin|Hnin].
    + rewrite decide_True; [done|by right].
    + rewrite decide_False; [done|].
      rewrite not_elem_of_cons. by split.
Qed.

Lemma dict_set_NoDup k v d :
  NoDup (map fst d) → NoDup (map fst (dict_set k v d)).
Proof.
  intros Hnd. rewrite dict_set_keys. case_decide as Hk; [done|].
  apply NoDup_app. split_and!; [done| |apply NoDup_singleton].
  intros x Hx ->%list_elem_of_singleton. done.
Qed.

Lemma elem_of_keys k v d : (k, v) ∈ d → k ∈ map fst d.
Proof.
  intros Hin. change (map fst d) with (fst <$> d).
  apply list_elem_of_fmap. by exists (k, v).
Qed.

Lemma elem_of_dict_set k v d k' v' :
  NoDup (map fst d) →
  (k', v') ∈ dict_set k v d ↔
  (k' = k ∧ v' = v) ∨ (k' ≠ k ∧ (k', v') ∈ d).
Proof.
  induction d as [|[k0 v0] d IH]; cbn [map fst dict_set].
  { intros _. rewrite list_elem_of_singleton, elem_of_nil.
    split; [intros [= -> ->]; by left|]. by intros [[-> ->]|[_ []]]. }
  intros [Hk0 Hnd]%NoDup_cons. destruct (decide (k0 = k)) as [->|Hne].
  - rewrite !elem_of_cons. split.
    + intros [[= -> ->]|Hin]; [by left|]. right. split; [|by right].
      intros ->. by apply Hk0, (elem_of_keys _ v').
    + intros [[-> ->]|[Hne [[= -> ->]|Hin]]]; [by left|done|by right].
  - rewrite !elem_of_cons, IH by done. split.
    + intros [[= -> ->]|[[-> ->]|[Hne' Hin]]].
      * right. split; [done|by left].
      * by left.
      * right. split; [done|by right].
    + intros [[-> ->]|[Hne' [[= -> ->]|Hin]]].
      * right. by left.
      * by left.
      * right. right. by split.
Qed.

End dict.

(** A label tells the name and the identifier apart when identifiers
    hold no "-". *)
Lemma label_not_shorter c n i1 i2 :
  lacks "-" i1 = true →
  " - " +:+ i1 ≠ String c n +:+ " - " +:+ i2.
Proof.
  intros Hl Heq. rewrite append_cons in Heq.
  change (" - " +:+ i1) with (String " " (String "-" (String " " i1))) in Heq.
  injection Heq as _ Heq. destruct n as [|c2 n].
  { by rewrite append_nil_l in Heq. }
  rewrite append_cons in Heq. injection Heq as _ Heq.
  destruct n as [|c3 n].
  { rewrite append_nil_l in Heq. injection Heq as Heq.
    rewrite append_nil_l in Heq. rewrite Heq in Hl. unfold lacks in Hl.
    rewrite all_chars_app in Hl. by apply andb_true_iff in Hl as [Hl _]. }
  rewrite append_cons in Heq. injection Heq as _ Heq.
  rewrite (append_nil_l i1) in Heq.
  rewrite Heq in Hl. unfold lacks in Hl. rewrite all_chars_app in Hl.
  apply andb_true_iff in Hl as [_ Hl]. done.
Qed.

Lemma label_parts n1 i1 n2 i2 :
  lacks "-" i1 = true → lacks "-" i2 = true →
  n1 +:+ " - " +:+ i1 = n2 +:+ " - " +:+ i2 → n1 = n2 ∧ i1 = i2.
Proof.
  intros H1 H2. revert n2. induction n1 as [|c n1 IH]; intros [|c' n2] Heq.
  - rewrite !append_nil_l in Heq. injection Heq as Heq.
    rewrite !append_nil_l in Heq. by subst.
  - rewrite append_nil_l in Heq. by apply label_not_shorter in Heq.
  - rewrite (append_nil_l (" - " +:+ i2)) in Heq. symmetry in Heq.
    by apply label_not_shorter in Heq.
  - rewrite !append_cons in Heq. injection Heq as -> Heq.
    by destruct (IH _ Heq) as [-> ->].
Qed.

Lemma label_of_inj o1 o2 :
  lacks "-" (org_id o1) = true → lacks "-" (org_id o2) = true →
  label_of o1 = label_of o2 → o1 = o2.
Proof.
  intros H1 H2 Heq. destruct o1 as [n1 i1], o2 as [n2 i2].
  unfold label_of in Heq. cbn in *.
  by destruct (label_parts _ _ _ _ H1 H2 Heq) as [-> ->].
Qed.

Lemma labels_NoDup orgs :
  Forall (λ o, lacks "-" (org_id o) = true) orgs → NoDup orgs →
  NoDup (map label_of orgs).
Proof.
  intros Hall Hnd. induction Hnd as [|o orgs Ho Hnd IH]; [constructor|].
  apply Forall_cons in Hall as [Hd Hall]. cbn [map]. constructor; [|by apply IH].
  change (map label_of orgs) with (label_of <$> orgs).
  intros (o' & Heq & Hin)%list_elem_of_fmap. apply Ho.
  rewrite Forall_forall in Hall.
  by rewrite (label_of_inj o o' Hd (Hall o' Hin) Heq).
Qed.

Section fetch.
Context {E : Type}.
Variable api : string → list device + E.

(** The loop adds one entry for every label, keeps the place of a label
    that is already there, and keeps the devices of the organization that
    came last under a label. *)
Lemma fetch_loop_entries orgs inv inventories :
  NoDup (map fst inv) →
  fetch_loop api orgs inv = inl inventories →
  NoDup (map fst inventories) ∧
  (∀ label, label ∈ map fst inventories ↔
            label ∈ map fst inv ∨ label ∈ map label_of orgs) ∧
  (∀ label devices, (label, devices) ∈ inventories →
     ((label, devices) ∈ inv ∧ label ∉ map label_of orgs) ∨
     ∃ before o after,
       orgs = before ++ o :: after ∧ label_of o = label ∧
       api (org_id o) = inl devices ∧ label ∉ map label_of after).
Proof.
  revert inv. induction orgs as [|o orgs IH]; intros inv Hnd.
  { cbn. intros [= <-]. split; [done|]. split.
    - intros label. rewrite elem_of_nil. tauto.
    - intros label devices Hin. left. split; [done|apply not_elem_of_nil]. }
  cbn [fetch_loop]. destruct (api (org_id o)) as [devices0|e] eqn:Hapi; [|done].
  intros Hloop.
  destruct (IH _ (dict_set_NoDup (label_of o) devices0 inv Hnd) Hloop)
    as (Hnd' & Hkeys & Hvals).
  split; [done|]. split.
  - intros label. rewrite Hkeys, dict_set_keys. cbn [map].
    rewrite elem_of_cons. case_decide as Hin.
    + split; [tauto|]. intros [?|[->|?]]; tauto.
    + rewrite elem_of_app, list_elem_of_singleton. tauto.
  - intros label devices Hin.
    destruct (Hvals label devices Hin)
      as [[Hset Hnot]|(before & o' & after & -> & Hl & Ha & Hafter)].
    + apply (elem_of_dict_set _ _ _ _ _ Hnd) in Hset as [[-> ->]|[Hne Hinv]].
      * right. exists [], o, orgs. by split_and!.
      * left. split; [done|]. cbn [map]. rewrite not_elem_of_cons. by split.
    + right. exists (o :: before), o', after. by split_and!.
Qed.

Lemma fetch_loop_fresh orgs inv inventories :
  NoDup (map fst inv ++ map label_of orgs) →
  fetch_loop api orgs inv = inl inventories →
  ∃ entries,
    inventories = inv ++ entries ∧
    Forall2 (λ o item, item.1 = label_of o ∧ api (org_id o) = inl item.2)
      orgs entries.
Proof.
  revert inv. induction orgs as [|o orgs IH]; intros inv Hnd.
  { cbn. intros [= <-]. exists []. split; [by rewrite app_nil_r|constructor]. }
  cbn [fetch_loop]. destruct (api (org_id o)) as [devices0|e] eqn:Hapi; [|done].
  cbn [map] in Hnd.
  assert (Hfresh : label_of o ∉ map fst inv).
  { apply NoDup_app in Hnd as (_ & Hdis & _). intros Hin.
    apply (Hdis _ Hin). left. }
  rewrite dict_set_fresh by done. intros Hloop.
  destruct (IH (inv ++ [(label_of o, devices0)])) as (entries & -> & Hall).
  { rewrite map_app. cbn [map fst]. rewrite <- app_assoc. done. }
  { done. }
  exists ((label_of o, devices0) :: entries). split.
  - by rewrite <- app_assoc.
  - constructor; [done|done].
Qed.

(** The calls are made in order, and the first one that raises ends the
    loop. *)
Lemma fetch_loop_outcome orgs inv :
  (Forall (λ o, ∃ devices, api (org_id o) = inl devices) orgs ∧
   ∃ inventories, fetch_loop api orgs inv = inl inventories) ∨
  (∃ before o after e,
     orgs = before ++ o :: after ∧
     Forall (λ o, ∃ devices, api (org_id o) = inl devices) before ∧
     api (org_id o) = inr e ∧ fetch_loop api orgs inv = inr e).
Proof.
  revert inv. induction orgs as [|o orgs IH]; intros inv.
  { left. split; [constructor|by eexists]. }
  cbn [fetch_loop]. destruct (api (org_id o)) as [devices0|e] eqn:Hapi.
  - destruct (IH (dict_set (label_of o) devices0 inv))
      as [[Hall Hret]|(before & o' & after & e & -> & Hb & Ho' & Hr)].
    + left. split; [|done]. constructor; [by eexists|done].
    + right. exists (o :: before), o', after, e. split_and!; try done.
      constructor; [by eexists|done].
  - right. exists [], o, orgs, e. split_and!; try done.
Qed.

End fetch.

(** X16: the inventories dictionary.  The calls to the dashboard are made
    in the order of the organizations and the first one that raises ends
    the fetch with its exception.  When all return, the dictionary has one
    entry for every label "name - id" of the organizations and no other,
    no label twice, and under a label it holds the devices of the last
    organization with that label; when the labels of the organizations
    differ, the entries are those of the organizations, in their order. *)
Theorem fetch_inventories_entries {E : Type}
    (api : string → list device + E) (orgs : list org) :
  (Forall (λ o, ∃ devices, api (org_id o) = inl devices) orgs ∧
   ∃ inventories,
     fetch_inventories api orgs = inl inventories ∧
     NoDup (map fst inventories) ∧
     (∀ label, label ∈ map fst inventories ↔ label ∈ map label_of orgs) ∧
     (∀ label devices, (label, devices) ∈ inventories →
        ∃ before o after,
          orgs = before ++ o :: after ∧ label_of o = label ∧
          api (org_id o) = inl devices ∧ label ∉ map label_of after) ∧
     (NoDup (map label_of orgs) →
      Forall2 (λ o item, item.1 = label_of o ∧ api (org_id o) = inl item.2)
        orgs inventories)) ∨
  (∃ before o after e,
     orgs = before ++ o :: after ∧
     Forall (λ o, ∃ devices, api (org_id o) = inl devices) before ∧
     api (org_id o) = inr e ∧ fetch_inventories api orgs = inr e).
Proof.
  unfold fetch_inventories.
  destruct (fetch_loop_outcome api orgs [])
    as [[Hall [inventories Hf]]|Hraise]; [left|by right].
  split; [done|]. exists inventories. split; [done|].
  destruct (fetch_loop_entries api orgs [] inventories) as (Hnd & Hkeys & Hvals);
    [constructor|done|].
  split; [done|]. split_and!.
  - intros label. rewrite Hkeys. cbn [map]. rewrite elem_of_nil. tauto.
  - intros label devices Hin.
    by destruct (Hvals label devices Hin) as [[Hnil%elem_of_nil _]|?].
  - intros Hlabels.
    destruct (fetch_loop_fresh api orgs [] inventories) as (entries & -> & Hent);
      done.
Qed.

Lemma three_orgs_NoDup : NoDup three_orgs.
Proof. apply (bool_decide_unpack (NoDup three_orgs)). by vm_compute. Qed.

(** X16, witness: the first organization selected twice. *)
Lemma fetch_inventories_entries_witness :
  ∃ inventories,
    fetch_inventories one_device_each
      [mkOrg "Acme" "101"; mkOrg "Bolt" "102"; mkOrg "Acme" "101"] =
      inl inventories ∧
    map fst inventories = ["Acme - 101"; "Bolt - 102"].
Proof.
  destruct (fetch_inventories_entries one_device_each
              [mkOrg "Acme" "101"; mkOrg "Bolt" "102"; mkOrg "Acme" "101"])
    as [(_ & inventories & Hf & _)|(before & o & after & e & _ & _ & _ & Hf)].
  - exists inventories. split; [done|].
    vm_compute in Hf. by injection Hf as <-.
  - by vm_compute in Hf.
Defined.

(** X17: one inventory for every selected organization.  Organizations
    whose identifiers hold no "-" and that differ in name or identifier
    have different labels; so for a selection without repetition the
    dictionary has exactly one entry for each of them, in the order of
    the selection, with the devices that the dashboard returned for it. *)
Theorem one_inventory_per_org {E : Type}
    (api : string → list device + E) (orgs : list org) inventories :
  Forall (λ o, lacks "-" (org_id o) = true) orgs →
  NoDup orgs →
  fetch_inventories api orgs = inl inventories →
  NoDup (map label_of orgs) ∧
  Forall2 (λ o item, item.1 = label_of o ∧ api (org_id o) = inl item.2)
    orgs inventories.
Proof.
  intros Hdash Hnd Hf.
  pose proof (labels_NoDup orgs Hdash Hnd) as Hlabels. split; [done|].
  destruct (fetch_loop_fresh api orgs [] inventories) as (entries & -> & Hent);
    done.
Qed.

(** X17, witness: the three sample organizations. *)
Lemma one_inventory_per_org_witness :
  ∃ inventories,
    fetch_inventories one_device_each three_orgs = inl inventories ∧
    map fst inventories = ["Acme - 101"; "Bolt - 102"; "Core - 103"].
Proof.
  destruct (fetch_inventories one_device_each three_orgs)
    as [inventories|e] eqn:Hf; [|by vm_compute in Hf].
  exists inventories. split; [done|].
  assert (Hdash : Forall (λ o, lacks "-" (org_id o) = true) three_orgs)
    by (repeat constructor).
  pose proof three_orgs_NoDup as Hnd.
  destruct (one_inventory_per_org one_device_each three_orgs inventories
              Hdash Hnd Hf) as [_ Hent].
  vm_compute in Hf. by injection Hf as <-.
Defined.

End InventoryFacts.

(** ** A run: from the selection to the reports *)

Module RunFacts.
Import PyStr PySort Matcher CsvExport CsvShape Cli Inventory Samples CliSamples.
Import PySortFacts MatcherFacts ReportsFacts InventoryFacts.

(** X19: the reports of a run follow the selection.  For a catalog with
    a "ProductKey" column and a selection without repetition of
    organizations whose identifiers hold no "-", a fetch that returns is
    followed by reports that are built without error: one for every
    selected organization, in the order of the selection, named by its
    label and built from the devices the dashboard returned for it. *)
Theorem run_reports_follow_selection {E : Type}
    (sort_values : sort_spec → list row → list row)
    (api : string → list device + E) catalog (orgs : list org) inventories :
  "ProductKey" ∈ columns catalog →
  Forall (λ o, lacks "-" (org_id o) = true) orgs →
  NoDup orgs →
  fetch_inventories api orgs = inl inventories →
  ∃ reports,
    build_eol_reports sort_values catalog inventories = Ok reports ∧
    Forall2 (λ o r,
        name r = label_of o ∧
        ∃ devices df,
          api (org_id o) = inl devices ∧ report r = Some df ∧
          build_eol_report sort_values catalog devices = Ok df)
      orgs reports.
Proof.
  intros Hcol Hdash Hnd Hf.
  destruct (fetch_loop_fresh api orgs [] inventories) as (entries & -> & Hent);
    [by apply labels_NoDup|done|].
  cbn [app].
  destruct (build_eol_reports_ok sort_values catalog entries Hcol)
    as (reports & Hr & Hall).
  exists reports. split; [done|]. clear Hr Hf Hnd Hdash.
  revert reports Hall.
  induction Hent as [|o [label devices] orgs' entries' [Hl Ha] _ IH];
    intros reports Hall.
  { apply Forall2_nil_inv_l in Hall as ->. constructor. }
  apply Forall2_cons_inv_l in Hall as (r & reports' & (df & -> & Hdf) & Hrest & ->).
  constructor; [|by apply IH]. cbn in *. split; [done|]. by exists devices, df.
Qed.

(** X19, witness: the three sample organizations on the MX68 catalog. *)
Lemma run_reports_follow_selection_witness :
  ∃ inventories reports,
    fetch_inventories one_device_each three_orgs = inl inventories ∧
    build_eol_reports (λ _, sort_units_keeping_ties) mx68_catalog inventories =
      Ok reports ∧
    map name reports = ["Acme - 101"; "Bolt - 102"; "Core - 103"].
Proof.
  destruct (fetch_inventories one_device_each three_orgs)
    as [inventories|e] eqn:Hf; [|by vm_compute in Hf].
  assert (Hcol : "ProductKey" ∈ columns mx68_catalog)
    by (vm_compute; right; left).
  assert (Hdash : Forall (λ o, lacks "-" (org_id o) = true) three_orgs)
    by (repeat constructor).
  pose proof three_orgs_NoDup as Hnd.
  destruct (run_reports_follow_selection (λ _, sort_units_keeping_ties)
              one_device_each mx68_catalog three_orgs inventories
              Hcol Hdash Hnd Hf) as (reports & Hr & Hall).
  exists inventories, reports. split; [done|]. split; [done|].
  vm_compute in Hf. injection Hf as <-.
  vm_compute in Hr. injection Hr as <-. reflexivity.
Defined.

End RunFacts.

(** ** Report Renderer (table): the rows of every organization *)

Module CsvRowsFacts.
Import PyStr PySort Matcher CsvExport CsvShape CsvNotes Samples.
Import PySortFacts MatcherFacts CsvExportFacts CsvShapeFacts.

(** The rows of an organization with matches: one per row of its report,
    labelled, with the report's cells, and with the report's note or a
    blank one. *)
Lemma report_rows_notes cols org_name df chunk :
  "Organization" ∈ cols → "Note" ∈ cols →
  report_rows cols org_name df = Ok chunk →
  Forall2 (λ r r',
      r' !! "Organization" = Some (CStr org_name) ∧
      r' !! "Note" =
        Some (if decide ("Note" ∈ columns df) then getitem r "Note"
              else CStr EmptyString) ∧
      ∀ col, col ∈ cols → col ∈ columns df → r' !! col = Some (getitem r col))
    (rows df) chunk.
Proof.
  intros Horg Hnote. unfold report_rows.
  case_decide as Ho; [done|]. cbv zeta.
  destruct (decide ("Note" ∈ columns df)) as [Hn|Hn].
  - rewrite decide_True by (by right). cbn [fst snd]. intros [= <-].
    induction (rows df) as [|r l IH]; [constructor|].
    cbn [map]. constructor; [|exact IH].
    unfold reindex. split_and!.
    + rewrite (lookup_columns_map _ cols "Organization") by done.
      rewrite decide_True by left.
      unfold getitem. by rewrite lookup_insert_eq.
    + rewrite (lookup_columns_map _ cols "Note") by done.
      rewrite decide_True by (by right).
      unfold getitem. by rewrite lookup_insert_ne.
    + intros col Hcol Hin. rewrite (lookup_columns_map _ cols col) by done.
      rewrite decide_True by (by right).
      unfold getitem. rewrite lookup_insert_ne by (intros <-; done). done.
  - rewrite decide_False by (intros [?|?]%elem_of_cons; done).
    cbn [fst snd]. intros [= <-].
    induction (rows df) as [|r l IH]; [constructor|].
    cbn [map]. constructor; [|exact IH].
    unfold reindex. split_and!.
    + rewrite (lookup_columns_map _ cols "Organization") by done.
      rewrite decide_True by left.
      unfold getitem. rewrite lookup_insert_ne by done.
      by rewrite lookup_insert_eq.
    + rewrite (lookup_columns_map _ cols "Note") by done.
      rewrite decide_True by (right; apply elem_of_app; right; left).
      unfold getitem. by rewrite lookup_insert_eq.
    + intros col Hcol Hin. rewrite (lookup_columns_map _ cols col) by done.
      rewrite decide_True by (right; apply elem_of_app; by left).
      unfold getitem. rewrite !lookup_insert_ne by (intros <-; done). done.
Qed.

(** What the loop body adds for one organization. *)
Lemma item_rows_with_notes sorted item chunk :
  item ∈ sorted →
  item_rows (csv_columns (all_columns sorted)) item = Ok chunk →
  contribution_with_notes (csv_columns (all_columns sorted)) item chunk.
Proof.
  intros Hin. unfold item_rows, contribution_with_notes, is_empty_report.
  pose proof (placeholder_row_cells (csv_columns (all_columns sorted)) (name item)
                (organization_in_columns _)) as (Ho & Hu & Hn & Hb).
  destruct (report item) as [df|] eqn:Hrep.
  - destruct (df_empty df) eqn:Hempty.
    + intros [= <-]. by eexists _, _.
    + intros Hrows. exists df. split; [done|].
      assert (Horg : "Organization" ∉ columns df).
      { unfold report_rows in Hrows. by case_decide. }
      eapply Forall2_impl;
        [apply (report_rows_notes _ _ _ _ (organization_in_columns _)
                  (note_in_columns _) Hrows)|].
      intros r r' (H1 & H2 & H3). split_and!; [done..|].
      intros col Hcol _.
      destruct (decide (col = "Note")) as [->|Hne].
      { by rewrite decide_True in H2. }
      apply H3; [|done].
      apply (report_column_in_csv sorted item df); try done. by intros ->.
  - intros [= <-]. by eexists _, _.
Qed.

Section rows.
Variable sort_values : sort_spec → list row → list row.
Variable to_numeric : cell → option Z.
Hypothesis sort_values_perm : ∀ by_ l, sort_values by_ l ≡ₚ l.
Hypothesis to_numeric_number : ∀ n, to_numeric (CNum n) = Some n.

(** Coercing the units to numbers keeps a contribution what it is. *)
Lemma with_notes_numeric cols item chunk :
  contribution_with_notes cols item chunk →
  contribution_with_notes cols item (map (numeric_units to_numeric) chunk).
Proof.
  unfold contribution_with_notes. destruct (is_empty_report (report item)).
  - intros (r & note & -> & Ho & Hu & Hn & Hne & Hb).
    exists (numeric_units to_numeric r), note. split; [done|].
    rewrite (numeric_units_other _ r "Organization") by done.
    rewrite (numeric_units_other _ r "Note") by done.
    rewrite (numeric_units_number _ to_numeric_number r 0) by done.
    split_and!; try done.
    intros col Hcol Hnot. rewrite numeric_units_other; [by apply Hb|].
    intros ->. apply Hnot. right. left.
  - intros (df & Hrep & Hall). exists df. split; [done|].
    induction Hall as [|r r' l k (H1 & H2 & H3) Hlk IH]; [constructor|].
    cbn [map]. constructor; [|exact IH].
    rewrite (numeric_units_other _ r' "Organization") by done.
    rewrite (numeric_units_other _ r' "Note") by done.
    split_and!; [done..|].
    intros col Hcol Hor. specialize (H3 col Hcol Hor).
    destruct (decide (col = "Total Units")) as [->|Hne].
    + destruct Hor as [?|[n Hn]]; [done|]. rewrite Hn in *.
      by apply numeric_units_number.
    + by rewrite numeric_units_other.
Qed.

(** The rows of the export, organization by organization. *)
Lemma generate_csv_chunks reports cols out :
  generate_csv sort_values to_numeric reports = Ok (cols, out) →
  ∃ chunks,
    out ≡ₚ concat chunks ∧
    Forall2 (contribution_with_notes cols) (sort_reports reports) chunks.
Proof.
  intros (-> & chunks0 & HM & Hout)%(generate_csv_inv _ _ sort_values_perm).
  exists (map (map (numeric_units to_numeric)) chunks0). split.
  - by rewrite <- concat_map.
  - apply mapM_Ok in HM.
    assert (Hall : Forall2
              (contribution_with_notes
                 (csv_columns (all_columns (sort_reports reports))))
              (sort_reports reports) chunks0).
    { eapply Forall2_elem; [exact HM|]. intros item chunk Hin Hrows.
      by apply item_rows_with_notes. }
    clear HM Hout. revert Hall.
    generalize (csv_columns (all_columns (sort_reports reports))).
    generalize (sort_reports reports). intros sorted cs Hall.
    induction Hall; cbn [map]; [constructor|].
    constructor; [|done]. by apply with_notes_numeric.
Qed.

End rows.

Lemma noted_reports_insertable :
  ¬ Exists has_organization_column noted_reports.
Proof.
  intros (item & Hin & df & Hr & _ & Hcol)%Exists_exists.
  unfold noted_reports in Hin. apply elem_of_cons in Hin as [->|Hin].
  - injection Hr as <-. cbn [columns] in Hcol.
    repeat (apply elem_of_cons in Hcol as [Hcol|Hcol]; [discriminate|]).
    by apply elem_of_nil in Hcol.
  - apply list_elem_of_singleton in Hin as ->. injection Hr as <-.
    by apply elem_of_nil in Hcol.
Qed.

(** C9 (amended): in the combined export every organization with an empty
    report contributes exactly one placeholder row (blank data cells,
    zero total units, a non-empty note) and every organization with
    matches contributes exactly one row per row of its report, with the
    report's cells; the note of such a row is blank when the report has
    no "Note" column and is the report's own note when it has one.  The
    export holds these rows and no others. *)
Theorem csv_rows_per_organization
    (sort_values : sort_spec → list row → list row)
    (to_numeric : cell → option Z) (reports : list org_report)
    (cols : list string) (out : list row) :
  (∀ by_ l, sort_values by_ l ≡ₚ l) →
  (∀ n, to_numeric (CNum n) = Some n) →
  generate_csv sort_values to_numeric reports = Ok (cols, out) →
  sort_reports reports ≡ₚ reports ∧
  ∃ chunks,
    out ≡ₚ concat chunks ∧
    Forall2 (contribution_with_notes cols) (sort_reports reports) chunks.
Proof.
  intros Hperm Hnum Hcsv. split; [apply isort_perm|].
  by apply (generate_csv_chunks sort_values to_numeric Hperm Hnum reports).
Qed.

(** C9, witness: an organization with one matched row that has a note of
    its own, and one without devices. *)
Lemma csv_rows_witness :
  ∃ cols out,
    generate_csv (λ _, sort_units_keeping_ties) numbers_only noted_reports =
      Ok (cols, out) ∧
    ∃ chunks,
      out ≡ₚ concat chunks ∧
      Forall2 (contribution_with_notes cols) (sort_reports noted_reports)
        chunks.
Proof.
  destruct (generate_csv_ok (λ _, sort_units_keeping_ties) numbers_only
              noted_reports noted_reports_insertable)
    as (cols & out & Hcsv).
  exists cols, out. split; [exact Hcsv|].
  refine (proj2 (csv_rows_per_organization
                   (λ _, sort_units_keeping_ties) numbers_only noted_reports
                   cols out _ _ Hcsv)).
  - intros by_ l. apply isort_perm.
  - reflexivity.
Defined.

(** C9, counterexample: the report of Acme has a "Note" column, and its
    row is written with the vendor's remark, not with a blank note,
    whatever rearrangement the sort makes. *)
Lemma note_column_is_kept :
  ¬ (∃ (sort_values : sort_spec → list row → list row)
       (to_numeric : cell → option Z),
       (∀ by_ l, sort_values by_ l ≡ₚ l) ∧
       (∀ n, to_numeric (CNum n) = Some n) ∧
       ∀ cols out,
         generate_csv sort_values to_numeric [noted_report] = Ok (cols, out) →
         ∃ chunks,
           out ≡ₚ concat chunks ∧
           Forall2 (contribution cols) (sort_reports [noted_report]) chunks).
Proof.
  intros (sort_values & to_numeric & Hperm & Hnum & Hclaim).
  destruct (generate_csv_ok sort_values to_numeric [noted_report])
    as (cols & out & Hcsv).
  { intros Hex. apply noted_reports_insertable. unfold noted_reports.
    apply Exists_cons. left. by apply Exists_cons in Hex as [?|?%Exists_nil]. }
  destruct (Hclaim cols out Hcsv) as (blank & Hblank & Hall).
  destruct (generate_csv_chunks sort_values to_numeric Hperm Hnum _ _ _ Hcsv)
    as (kept & Hkept & Hall').
  change (sort_reports [noted_report]) with [noted_report] in Hall, Hall'.
  apply Forall2_cons_inv_l in Hall as (c & cs & Hc & ->%Forall2_nil_inv_l & ->).
  apply Forall2_cons_inv_l in Hall' as (c' & cs' & Hc' & ->%Forall2_nil_inv_l & ->).
  cbn [concat] in Hblank, Hkept. rewrite app_nil_r in Hblank, Hkept.
  destruct Hc as (df & [= <-] & Hrows). destruct Hc' as (df' & [= <-] & Hrows').
  cbn [rows] in Hrows, Hrows'.
  apply Forall2_cons_inv_l in Hrows as (r & l & (_ & Hnote & _) & ->%Forall2_nil_inv_l & ->).
  apply Forall2_cons_inv_l in Hrows' as (r' & l' & (_ & Hnote' & _) & ->%Forall2_nil_inv_l & ->).
  rewrite Hblank in Hkept. apply Permutation_singleton_l in Hkept.
  injection Hkept as <-. rewrite Hnote in Hnote'. vm_compute in Hnote'.
  discriminate.
Qed.

End CsvRowsFacts.
